(** * Criticality search in OpenMC: the bracketing root finder and the
      adaptive concentration controller

    This development embeds two procedures of the repository:

    - [custom_root_finder] of [openmc/search.py], a false-position root
      finder with a bracket-repair prologue;
    - [CoupledOperator.search_crit_conc] of
      [openmc/deplete/coupled_operator.py], which rescales the density of
      the tracked nuclides after every inactive batch of a transport run.

    Numbers.  NumPy [float64] values are read as the rationals they denote
    and arithmetic on them is exact: rounding and overflow are not
    modelled.  NumPy does not raise on a zero divisor, it produces [inf] or
    [nan]; rationals have no such values, so every division of the
    controller goes through [np_div], which answers [None] on a zero
    divisor, and a run in which that happens ends in the outcome
    [NonFinite].  What the method does on such a run, and on a tally
    that is too short for the reads of lines 529-533, is the subject of
    a second embedding, [CoupledOperator64], whose numbers are
    [np.float64] values with [inf], [-inf] and [nan] and whose tally
    reads raise [IndexError]; the two embeddings agree on every batch
    that stays finite (lemma [inactive_batch_finite]).  The root finder
    divides only by the sum of two absolute values that are never both
    zero (lemmas [bracket_setup_opposite], [iterate_opposite] and
    [opposite_divisor_positive] below), so it uses the plain division of
    [Q].  The [print] calls of the controller are left out. *)

From Stdlib Require Import QArith Qabs Qminmax List String Bool ZArith Lia Lqa.
Import ListNotations.

Local Open Scope Q_scope.

(** ** Python values and exceptions *)

(** The dynamically typed arguments that the two procedures validate. *)
Inductive pyval : Type :=
| PyInt (z : Z)
| PyFloat (q : Q)
| PyStr (s : string).

Inductive py_exn : Type :=
| ValueError (msg : string)
| TypeError (name : string)
| AttributeError (name : string).

(** [isinstance(v, numbers.Real)] and [isinstance(v, numbers.Integral)]. *)
Definition is_Real (v : pyval) : bool :=
  match v with
  | PyInt _ | PyFloat _ => true
  | PyStr _ => false
  end.

Definition is_Integral (v : pyval) : bool :=
  match v with
  | PyInt _ => true
  | PyFloat _ | PyStr _ => false
  end.

(** The number a real-typed Python value denotes. *)
Definition to_Q (v : pyval) : Q :=
  match v with
  | PyInt z => inject_Z z
  | PyFloat q => q
  | PyStr _ => 0
  end.

(** Python's [a < b] on floats. *)
Definition Qltb (a b : Q) : bool := negb (Qle_bool b a).

(** ** [openmc.checkvalue] *)

Module cv.

(** Modelled from the spec: [openmc.checkvalue.check_type] is not part of
    the sources at hand; the spec has the arguments "type-checked" and
    failing fast on "non-real/non-integral types".  [ok] is the
    [isinstance] test the caller asks for. *)
Definition check_type (name : string) (ok : pyval -> bool) (v : pyval)
  : option py_exn :=
  if ok v then None else Some (TypeError name).

(** Modelled from the spec: [check_iterable_type] tests every element of
    the sequence. *)
Definition check_iterable_type (name : string) (ok : pyval -> bool)
    (vs : list pyval) : option py_exn :=
  if forallb ok vs then None else Some (TypeError name).

(** Modelled from the spec: [check_length] with one length demands it
    exactly ("two-point bracket"). *)
Definition check_length (name : string) (vs : list pyval) (n : nat)
  : option py_exn :=
  if Nat.eqb (List.length vs) n then None else Some (ValueError name).

(** Modelled from the spec: [check_less_than] rejects [value >= maximum]
    ("malformed bracket where lower >= upper"). *)
Definition check_less_than (name : string) (value maximum : Q)
  : option py_exn :=
  if Qltb value maximum then None else Some (ValueError name).

(** The three checks both procedures run on a bracket, in source order.
    On success the two endpoints are handed back. *)
Definition check_bracket (bracket : list pyval) : py_exn + (Q * Q) :=
  match check_iterable_type "bracket" is_Real bracket with
  | Some e => inl e
  | None =>
    match check_length "bracket" bracket 2 with
    | Some e => inl e
    | None =>
      match bracket with
      | [b0; b1] =>
        match check_less_than "bracket values" (to_Q b0) (to_Q b1) with
        | Some e => inl e
        | None => inr (to_Q b0, to_Q b1)
        end
      | _ => inl (ValueError "bracket")
      end
    end
  end.

End cv.

(** ** [openmc/search.py]: [custom_root_finder] *)

Module Search.

(** [class hold_root_cand]: a guess and the objective's value there. *)
Record hold_root_cand : Type := mk_cand { guess : Q; value : Q }.

(** [np.sign]. *)
Definition np_sign (v : Q) : Q :=
  match v ?= 0 with
  | Lt => -1
  | Eq => 0
  | Gt => 1
  end.

(** [bool((np.sign(a)*np.sign(b)+1)/2)]: false only when the signs are
    strictly opposite; a zero on either side gives 1/2, which is truthy. *)
Definition same_sign (a b : Q) : bool :=
  negb (Qeq_bool ((np_sign a * np_sign b + 1) / 2) 0).

(** What the two [print] calls report. *)
Inductive diagnostic : Type :=
| NoRootInRange (g v : Q)
| NotMonotonic (g v : Q).

(** How a call ends: an exception, an explicit [return] together with
    what was printed, or the end of the function body, where Python hands
    back [None]. *)
Inductive result : Type :=
| Raised (e : py_exn)
| Returned (x : Q) (printed : list diagnostic)
| FellThrough.

(** [give = left; if abs(right.value) < abs(give.value): give = right;
     if abs(next.value) < abs(give.value): give = next]. *)
Definition closest (left right next : hold_root_cand) : hold_root_cand :=
  let give := left in
  let give := if Qltb (Qabs (value right)) (Qabs (value give))
              then right else give in
  let give := if Qltb (Qabs (value next)) (Qabs (value give))
              then next else give in
  give.

(** The interpolation of line 260. *)
Definition false_position (left right : hold_root_cand) : Q :=
  guess left + (guess right - guess left) * Qabs (value left)
               / (Qabs (value left) + Qabs (value right)).

(** One pass through the body of the [for] loop. *)
Inductive iter_result : Type :=
| Converged (x : Q)
| Narrowed (left right : hold_root_cand)
| GaveUp (x : Q) (d : diagnostic).

Definition iterate (f : Q -> Q) (tol : Q) (left right : hold_root_cand)
  : iter_result :=
  let g := false_position left right in
  let next := mk_cand g (f g) in
  if Qltb (Qabs (value next)) tol then Converged (guess next)
  else if negb (same_sign (value left) (value next)) then Narrowed left next
  else if negb (same_sign (value next) (value right)) then Narrowed next right
  else
    let give := closest left right next in
    GaveUp (guess give) (NotMonotonic (guess give) (value give)).

(** [for i in range(max_iter): ...]; nothing follows the loop. *)
Fixpoint main_loop (f : Q -> Q) (tol : Q) (max_iter : nat)
    (left right : hold_root_cand) : result :=
  match max_iter with
  | O => FellThrough
  | S n =>
    match iterate f tol left right with
    | Converged x => Returned x []
    | Narrowed left' right' => main_loop f tol n left' right'
    | GaveUp x d => Returned x [d]
    end
  end.

(** Lines 223-257: the two fast accepts, the ordering of the first two
    candidates and the bracket repair.  [inl] is a call that ends here,
    [inr] the pair with which the main iteration is entered. *)
Definition bracket_setup (f : Q -> Q) (x0 b0 b1 tol : Q)
  : result + (hold_root_cand * hold_root_cand) :=
  let start0 := f x0 in
  if Qltb (Qabs start0) tol then inl (Returned x0 []) else
  let start_left := f b0 in
  if Qltb (Qabs start_left) tol then inl (Returned b0 []) else
  let left := if Qltb start0 start_left
              then mk_cand x0 start0 else mk_cand b0 start_left in
  let right := if Qltb start0 start_left
               then mk_cand b0 start_left else mk_cand x0 start0 in
  if same_sign (value left) (value right) then
    let start_right := f b1 in
    if Qltb (Qabs start_right) tol then inl (Returned b1 []) else
    let next := mk_cand b1 start_right in
    if negb (same_sign (value left) (value next)) then inr (left, next)
    else if negb (same_sign (value next) (value right)) then inr (next, right)
    else
      let give := closest left right next in
      inl (Returned (guess give) [NoRootInRange (guess give) (value give)])
  else inr (left, right).

Definition custom_root_finder (f : Q -> Q) (x0 : Q) (bracket : list pyval)
    (tol : Q) (max_iter : nat) : result :=
  match cv.check_bracket bracket with
  | inl e => Raised e
  | inr (b0, b1) =>
    match bracket_setup f x0 b0 b1 tol with
    | inl r => r
    | inr (l, r) => main_loop f tol max_iter l r
    end
  end.

(** [max_iter] consecutive passes in which the tolerance is not met and
    one of the two sign tests replaces an endpoint. *)
Inductive keeps_narrowing (f : Q -> Q) (tol : Q)
  : nat -> hold_root_cand -> hold_root_cand -> Prop :=
| kn_done left right : keeps_narrowing f tol O left right
| kn_right n left right :
    let g := false_position left right in
    ~ Qabs (f g) < tol ->
    same_sign (value left) (f g) = false ->
    keeps_narrowing f tol n left (mk_cand g (f g)) ->
    keeps_narrowing f tol (S n) left right
| kn_left n left right :
    let g := false_position left right in
    ~ Qabs (f g) < tol ->
    same_sign (value left) (f g) = true ->
    same_sign (f g) (value right) = false ->
    keeps_narrowing f tol n (mk_cand g (f g)) right ->
    keeps_narrowing f tol (S n) left right.

(** The pairs the main iteration can hold after some passes, starting
    from [left0], [right0]. *)
Inductive narrows_to (f : Q -> Q) (tol : Q)
    (left0 right0 : hold_root_cand)
  : hold_root_cand -> hold_root_cand -> Prop :=
| narrows_refl : narrows_to f tol left0 right0 left0 right0
| narrows_step left right left' right' :
    narrows_to f tol left0 right0 left right ->
    iterate f tol left right = Narrowed left' right' ->
    narrows_to f tol left0 right0 left' right'.

(** A candidate as the code builds them: the value is the objective at
    the guess, and it has failed the tolerance test. *)
Definition evaluated (f : Q -> Q) (tol : Q) (c : hold_root_cand) : Prop :=
  value c = f (guess c) /\ tol <= Qabs (value c).

(** The objective of the two worked examples. *)
Definition f_linear (x : Q) : Q := x - 5.

(** A convex objective on which false position creeps towards the root. *)
Definition f_square (x : Q) : Q := x * x - 2.

End Search.


(** ** [openmc/search.py]: objectives with side effects, [_search_keff]
       and [custom_search_for_keff] *)

Module SearchKeff.

Import Search.

(** *** [custom_root_finder] over an objective that changes a state

    The objective the keff search hands to the finder appends to two
    lists each time it is called.  Here the finder of lines 208-276 is
    written once more, statement by statement, for an objective
    [f : Q -> S -> Q * S] that threads a state; theorem
    [stateful_finder_agrees_with_pure] below ties it to
    [Search.custom_root_finder]. *)
Section Stateful.

Variable S : Type.
Variable f : Q -> S -> Q * S.

Definition iterate_st (tol : Q) (left right : hold_root_cand) (s : S)
  : iter_result * S :=
  let g := false_position left right in
  let vs := f g s in
  let next := mk_cand g (fst vs) in
  (if Qltb (Qabs (value next)) tol then Converged (guess next)
   else if negb (same_sign (value left) (value next))
        then Narrowed left next
   else if negb (same_sign (value next) (value right))
        then Narrowed next right
   else
     let give := closest left right next in
     GaveUp (guess give) (NotMonotonic (guess give) (value give)),
   snd vs).

Fixpoint main_loop_st (tol : Q) (max_iter : nat)
    (left right : hold_root_cand) (s : S) : result * S :=
  match max_iter with
  | O => (FellThrough, s)
  | Datatypes.S n =>
    match iterate_st tol left right s with
    | (Converged x, s) => (Returned x [], s)
    | (Narrowed left' right', s) => main_loop_st tol n left' right' s
    | (GaveUp x d, s) => (Returned x [d], s)
    end
  end.

Definition bracket_setup_st (x0 b0 b1 tol : Q) (s : S)
  : (result + (hold_root_cand * hold_root_cand)) * S :=
  let vs0 := f x0 s in
  let start0 := fst vs0 in
  let s := snd vs0 in
  if Qltb (Qabs start0) tol then (inl (Returned x0 []), s) else
  let vs1 := f b0 s in
  let start_left := fst vs1 in
  let s := snd vs1 in
  if Qltb (Qabs start_left) tol then (inl (Returned b0 []), s) else
  let left := if Qltb start0 start_left
              then mk_cand x0 start0 else mk_cand b0 start_left in
  let right := if Qltb start0 start_left
               then mk_cand b0 start_left else mk_cand x0 start0 in
  if same_sign (value left) (value right) then
    let vs2 := f b1 s in
    let start_right := fst vs2 in
    let s := snd vs2 in
    if Qltb (Qabs start_right) tol then (inl (Returned b1 []), s) else
    let next := mk_cand b1 start_right in
    if negb (same_sign (value left) (value next))
    then (inr (left, next), s)
    else if negb (same_sign (value next) (value right))
    then (inr (next, right), s)
    else
      let give := closest left right next in
      (inl (Returned (guess give)
                     [NoRootInRange (guess give) (value give)]), s)
  else (inr (left, right), s).

Definition custom_root_finder_st (x0 : Q) (bracket : list pyval) (tol : Q)
    (max_iter : nat) (s : S) : result * S :=
  match cv.check_bracket bracket with
  | inl e => (Raised e, s)
  | inr (b0, b1) =>
    match bracket_setup_st x0 b0 b1 tol s with
    | (inl r, s) => (r, s)
    | (inr (l, r), s) => main_loop_st tol max_iter l r s
    end
  end.

End Stateful.

(** *** [_search_keff] (lines 15-68) *)

(** The two lists the caller shares with the objective. *)
Record history : Type := mk_history {
  guesses : list Q;
  results : list (Q * Q)
}.

(** The call of [model_builder] on the guess, the call of [model.run]
    and the read of [sp.keff] are one collaborator, [run_model]: the
    eigenvalue and its uncertainty the model built for a guess produces.
    The optional [print] is left out. *)
Definition _search_keff (guess target : Q) (run_model : Q -> Q * Q)
    (h : history) : Q * history :=
  let keff := run_model guess in
  (fst keff - target,
   mk_history (guesses h ++ [guess]) (results h ++ [keff])).

(** A model whose eigenvalue falls linearly with the searched
    parameter, critical at 4. *)
Definition keff_line (guess : Q) : Q * Q := (1.2 - 0.05 * guess, 0.001).

(** *** [custom_search_for_keff] (lines 282-344) *)

Inductive search_exn : Type :=
| Checked (e : py_exn)
| UnboundLocalError (name : string).

Inductive search_result : Type :=
| SearchRaised (e : search_exn)
| SearchReturned (zero_value : option Q) (printed : list diagnostic)
                 (guesses : list Q) (results : list (Q * Q)).

(** [cv.check_type(name, value, Real)] on an argument whose default is
    [None]: [None] is not a real number. *)
Definition check_real (name : string) (v : option pyval) : option py_exn :=
  match v with
  | None => Some (TypeError name)
  | Some v => cv.check_type name is_Real v
  end.

(** The arguments are taken at their documented types: [model_builder]
    is callable and returns a model, [model_args] and [run_args] are
    dictionaries or absent, [print_iterations] is a boolean, and the
    extra keyword arguments carry at most [max_iter]. *)
Definition custom_search_for_keff (run_model : Q -> Q * Q)
    (initial_guess : option pyval) (target : pyval)
    (bracket : option (list pyval)) (tol : option pyval)
    (max_iter : option nat) : search_result :=
  match (match initial_guess with
         | Some v => cv.check_type "initial_guess" is_Real v
         | None => None
         end) with
  | Some e => SearchRaised (Checked e)
  | None =>
  match (match bracket with
         | Some br => match cv.check_bracket br with
                      | inl e => Some e
                      | inr _ => None
                      end
         | None => None
         end) with
  | Some e => SearchRaised (Checked e)
  | None =>
  match cv.check_type "target" is_Real target with
  | Some e => SearchRaised (Checked e)
  | None =>
  match check_real "tol" tol with
  | Some e => SearchRaised (Checked e)
  | None =>
    match bracket, initial_guess with
    | None, None => SearchRaised (UnboundLocalError "model")
    | None, Some _ =>
      SearchRaised (Checked (ValueError "'bracket' parameter must be set"))
    | Some _, None =>
      SearchRaised
        (Checked (ValueError "'initial_guess' parameter must be set"))
    | Some br, Some x0 =>
      let tol := match tol with Some t => to_Q t | None => 1e-3 end in
      let max_iter := match max_iter with Some n => n | None => 50%nat end in
      let f := fun guess h =>
                 _search_keff guess (to_Q target) run_model h in
      match custom_root_finder_st history f (to_Q x0) br tol max_iter
                                  (mk_history [] []) with
      | (Raised e, _) => SearchRaised (Checked e)
      | (Returned x printed, h) =>
        SearchReturned (Some x) printed (guesses h) (results h)
      | (FellThrough, h) =>
        SearchReturned None [] (guesses h) (results h)
      end
    end
  end end end end.

End SearchKeff.


(** ** [openmc/deplete/coupled_operator.py]: [search_crit_conc] *)

Module CoupledOperator.

(** NumPy division on finite values; [None] stands for the [inf] or [nan]
    that a zero divisor produces. *)
Definition np_div (a b : Q) : option Q :=
  if Qeq_bool b 0 then None else Some (a / b).

Notation "'do' x <- e ; k" :=
  (match e with Some x => k | None => None end)
  (at level 10, x name, e at level 100, k at level 200, only parsing).

(** *** Tally arrays *)

(** [tally.results[0]]: the rows of the first filter bin, one per
    score/nuclide bin, each row holding the three result columns. *)
Definition array2 : Type := list (list Q).

(** Elementwise [a - b] of two arrays of one shape (a tally keeps its
    shape for the whole run). *)
Definition arr_sub (a b : array2) : array2 :=
  map (fun rows => map (fun xy => fst xy - snd xy)
                       (combine (fst rows) (snd rows)))
      (combine a b).

(** [a[i][j]].  The first tally has at least five score rows of three
    columns, so the reads of lines 529-533 are in range; outside the
    array, where Python raises [IndexError], this reads 0. *)
Definition at2 (a : array2) (i j : nat) : Q := nth j (nth i a []) 0.

Definition sum_list (l : list Q) : Q := fold_right Qplus 0 l.

(** [np.sum(np.sum(np.array(a).T, axis=1))]: the total of all entries;
    with exact arithmetic the order of summation does not matter. *)
Definition np_sum (a : array2) : Q := sum_list (map sum_list a).

(** What the transport solver shows after one batch: [openmc.lib.keff()],
    the results of the first two registered tallies (first filter bin)
    and [openmc.lib.global_tallies()[3][0]]. *)
Record batch_obs : Type := mk_obs {
  keff : Q * Q;
  tally0 : array2;
  tally1 : array2;
  glob_leak : Q
}.

(** *** The per-batch estimator (lines 503-555) *)

(** The local variables that live across batches. *)
Record locals : Type := mk_locals {
  f : Q;
  g : Q;
  f_prev : Q;
  prev_res0 : array2;
  prev_res1 : array2;
  prev_leak : Q;
  x : Q;
  p : Q
}.

(** Lines 487-492.  [x] and [p] are unbound until the batch with [M == 1]
    assigns them; they are not read before. *)
Definition initial_locals : locals :=
  mk_locals 1 1 1 [] [] 0 0 0.

(** The six balance terms of lines 529-534. *)
Record balance : Type := mk_balance {
  P_fiss_prompt : Q;
  P_fiss_delayed : Q;
  P_nxn : Q;
  L_leak : Q;
  L_abs : Q;
  L_abs_nucs : Q
}.

(** Lines 507-534: the increments of the two tallies and of the leakage
    since the previous batch, and the balance terms read off them. *)
Definition prev_res_at (M : nat) (loc : locals) (o : batch_obs)
  : array2 * array2 :=
  if Nat.eqb M 1
  then (arr_sub (tally0 o) (tally0 o), arr_sub (tally1 o) (tally1 o))
  else (prev_res0 loc, prev_res1 loc).

Definition tally_deltas (M : nat) (loc : locals) (o : batch_obs) : balance :=
  let prev_res := prev_res_at M loc o in
  let curr_res0 := arr_sub (tally0 o) (fst prev_res) in
  let curr_res1 := arr_sub (tally1 o) (snd prev_res) in
  let leak := glob_leak o * inject_Z (Z.of_nat M) - prev_leak loc in
  mk_balance (at2 curr_res0 0 1)
             (at2 curr_res0 1 1)
             (at2 curr_res0 3 1 - at2 curr_res0 4 1)
             leak
             (at2 curr_res0 2 1)
             (np_sum curr_res1).

(** The nuclide-absorption increment [L_abs_nucs] of each batch from [M]
    on, when every batch so far was inactive: the bookkeeping of
    [prev_res[1]] of lines 507-520 followed along the run. *)
Fixpoint absorption_deltas (M : nat) (prev : array2) (obs : list batch_obs)
  : list Q :=
  match obs with
  | [] => []
  | o :: rest =>
    np_sum (arr_sub (tally1 o)
                    (if Nat.eqb M 1 then arr_sub (tally1 o) (tally1 o)
                     else prev))
    :: absorption_deltas (S M) (tally1 o) rest
  end.

(** Line 537. *)
Definition corr (target : Q) (b : balance) : option Q :=
  do prompt <- np_div (P_fiss_prompt b) target;
  np_div ((prompt + P_fiss_delayed b + P_nxn b) * (1 - L_leak b)
          - (L_abs b - L_abs_nucs b))
         (L_abs_nucs b).

(** Lines 538-540: [g = corr; if g <= 0: g = 0.5]. *)
Definition clamp (c : Q) : Q := if Qle_bool c 0 then 0.5 else c.

(** Line 542.  [sqrt_particles] is [np.sqrt(self.model.settings.particles)]. *)
Definition p_measure (target sqrt_particles : Q) (k : Q * Q) : option Q :=
  do dev <- np_div (Qabs (fst k - target)) target;
  do noise <- np_div 1 sqrt_particles;
  Some ((dev + noise) ^ 2).

(** Lines 544-551: the running estimate [x] and its weight [p] after the
    observation [z] with weight [pm]. *)
Definition fuse (M : nat) (x p pm z : Q) : option (Q * Q) :=
  do start <-
    (if Nat.eqb M 1 then Some (0, pm, pm)
     else
       do ip <- np_div 1 p;
       do ipm <- np_div 1 pm;
       do p_n <- np_div 1 (ip + ipm);
       Some (x, p, p_n));
  let '(x, p, p_n) := start in
  do w <- np_div p_n p;
  Some (x + w * (z - x), p_n).

(** Lines 503-555 for one batch with [M < batches]. *)
Definition inactive_batch (target sqrt_particles : Q) (M : nat)
    (loc : locals) (o : batch_obs) : option locals :=
  let b := tally_deltas M loc o in
  do c <- corr target b;
  let g := clamp c in
  do pm <- p_measure target sqrt_particles (keff o);
  let z := f_prev loc * g in
  do xp <- fuse M (x loc) (p loc) pm z;
  let f := fst xp in
  do g <- np_div f (f_prev loc);
  Some (mk_locals f g f (tally0 o) (tally1 o)
                  (glob_leak o * inject_Z (Z.of_nat M))
                  (fst xp) (snd xp)).

(** The recursion as the specification words it, to be compared with
    [fuse]: "running_precision_new = 1 / (1/running_precision +
    1/p_measure), and running_estimate += (running_precision_new /
    p_measure) * (z - running_estimate)"; on the first batch the estimate
    is [z] and the precision [p_measure]. *)
Definition fuse_spec (M : nat) (x p pm z : Q) : Q * Q :=
  if Nat.eqb M 1 then (z, pm)
  else
    let p_n := 1 / (1 / p + 1 / pm) in
    (x + (p_n / pm) * (z - x), p_n).

(** *** Densities on the C API side (lines 606-623) *)

(** The parallel arrays [nuclides] and [densities] of one material. *)
Definition material : Type := list (string * Q).

(** [(all_dens[all_nuc == str(nuc)])[0]]: the density at the first place
    where the name occurs. *)
Fixpoint first_density (m : material) (nuc : string) : Q :=
  match m with
  | [] => 0
  | (n, d) :: m' => if String.eqb n nuc then d else first_density m' nuc
  end.

(** [str(nuc) in iso]. *)
Definition in_iso (iso : list string) (nuc : string) : bool :=
  existsb (String.eqb nuc) iso.

(** The body of [for nuc in all_nuc]: the entry appended for [nuc], if
    any. *)
Definition rescaled_entry (iso : list string) (g : Q) (m : material)
    (nuc : string) : list (string * Q) :=
  let val := first_density m nuc in
  if Qltb 1e-36 val
  then [(nuc, if in_iso iso nuc then val * g else val)]
  else [].

(** The lists handed to [set_densities] for one material. *)
Definition rescale (iso : list string) (g : Q) (m : material) : material :=
  flat_map (rescaled_entry iso g m) (map fst m).

(** [openmc.lib.materials]: material id to material, in iteration order. *)
Definition lib_materials : Type := list (Z * material).

Definition update_densities (iso : list string) (g : Q) (ms : lib_materials)
  : lib_materials :=
  map (fun im => (fst im, rescale iso g (snd im))) ms.


(** *** The operator, the library state and the transport collaborator *)

(** Calls into [openmc.lib] and the exports, in the order they happen. *)
Inductive lib_call : Type :=
| update_materials_and_nuclides
| export_materials_xml
| lib_reset
| simulation_init
| next_batch (M : nat)
| set_densities (mat : Z)
| simulation_finalize
| sync_python_materials
| export_model_xml
| calculate_reaction_rates.

(** The attributes of [self] the method touches, the densities held by
    [openmc.lib.materials], and the trace of collaborator calls.
    [initial_value] is [None] while [hasattr(self, 'initial_value')] is
    false. *)
Record operator : Type := mk_operator {
  initial_value : option Q;
  concs : list Q;
  reaction_rates : list Q;
  n_calls : nat;
  materials : lib_materials;
  trace : list lib_call
}.

(** The transport solver and the depletion bookkeeping, as far as the
    method needs them: the square root of the particle count, what each
    batch of the run shows, the eigenvalue read after the run, the
    densities [_update_materials_and_nuclides] installs for a vector and
    the rates [_calculate_reaction_rates] computes. *)
Record transport : Type := mk_transport {
  sqrt_particles : Q;
  script : list batch_obs;
  final_keff : Q * Q;
  densities_of_vec : list (list Q) -> lib_materials -> lib_materials;
  rates_of : Q -> list Q
}.

Record OperatorResult : Type := mk_result {
  k : Q * Q;
  rates : list Q
}.

(** A call raises, returns, or leaves the rationals; the operator is the
    one at that moment. *)
Inductive outcome : Type :=
| Raise (e : py_exn) (self : operator)
| Return (r : OperatorResult) (self : operator)
| NonFinite.

(** Lines 448-461. *)
Definition check_arguments (iso : option (list string))
    (batches : option pyval) (bracket : option (list pyval))
    (initial_value : option pyval) : option py_exn :=
  match iso with
  | None => Some (ValueError "'iso' argument is empty")
  | Some _ =>
    match initial_value with
    | None => Some (ValueError "'initial_value' argument is empty")
    | Some v =>
      match cv.check_type "initial_value" is_Real v with
      | Some e => Some e
      | None =>
        match batches with
        | None => Some (ValueError "'batches' argument is empty")
        | Some n =>
          match cv.check_type "batches" is_Integral n with
          | Some e => Some e
          | None =>
            match bracket with
            | None => None
            | Some br =>
              match cv.check_bracket br with
              | inl e => Some e
              | inr _ => None
              end
            end
          end
        end
      end
    end
  end.

(** Lines 468-470: the attributes are created on the first call only. *)
Definition init_attributes (self : operator) (v : Q) : operator :=
  match initial_value self with
  | Some _ => self
  | None =>
    mk_operator (Some v) [v] (reaction_rates self) (n_calls self)
                (materials self) (trace self)
  end.

Definition log (c : list lib_call) (self : operator) : operator :=
  mk_operator (initial_value self) (concs self) (reaction_rates self)
              (n_calls self) (materials self) (trace self ++ c).

Definition with_materials (ms : lib_materials) (self : operator)
  : operator :=
  mk_operator (initial_value self) (concs self) (reaction_rates self)
              (n_calls self) ms (trace self).

(** Lines 498-627, [for _ in openmc.lib.iter_batches()], from batch [M]
    on; [obs] is what the remaining batches show. *)
Fixpoint iter_batches (target sqrt_particles : Q) (iso : list string)
    (batches : Z) (M : nat) (obs : list batch_obs) (loc : locals)
    (self : operator) : option (locals * operator) :=
  match obs with
  | [] => Some (loc, self)
  | o :: rest =>
    let self := log [next_batch M] self in
    do ls <-
      (if Z.ltb (Z.of_nat M) batches then
         do loc' <- inactive_batch target sqrt_particles M loc o;
         Some (loc',
               log (map (fun im => set_densities (fst im)) (materials self))
                   (with_materials
                      (update_densities iso (g loc') (materials self))
                      self))
       else Some (loc, self));
    let self := if Z.eqb (Z.of_nat M) batches
                then log [lib_reset] (snd ls) else snd ls in
    iter_batches target sqrt_particles iso batches (S M) rest (fst ls) self
  end.

(** Lines 630-659: what follows the run. *)
Definition finish (sim : transport) (source_rate : Q) (loc : locals)
    (self : operator) : outcome :=
  let self := log [simulation_finalize] self in
  match initial_value self with
  | None => Raise (AttributeError "initial_value") self
  | Some v =>
    let v' := v * f loc in
    let self :=
      mk_operator (Some v') (concs self ++ [v']) (reaction_rates self)
                  (n_calls self) (materials self) (trace self) in
    let self := log [sync_python_materials; export_model_xml;
                     calculate_reaction_rates] self in
    let self :=
      mk_operator (initial_value self) (concs self) (reaction_rates self)
                  (S (n_calls self)) (materials self) (trace self) in
    Return (mk_result (final_keff sim) (rates_of sim source_rate)) self
  end.

Definition search_crit_conc (sim : transport) (self : operator)
    (vec : list (list Q)) (source_rate : Q) (iso : option (list string))
    (batches : option pyval) (bracket : option (list pyval))
    (initial_value : option pyval) (target : Q) : outcome :=
  match check_arguments iso batches bracket initial_value with
  | Some e => Raise e self
  | None =>
    if Qeq_bool source_rate 0 then
      Return (mk_result (0, 0) (map (fun _ => 0) (reaction_rates self))) self
    else
      match iso, batches, initial_value with
      | Some iso, Some (PyInt batches), Some v =>
        let self := init_attributes self (to_Q v) in
        let self :=
          log [update_materials_and_nuclides; export_materials_xml]
              (with_materials (densities_of_vec sim vec (materials self))
                              self) in
        let self := log [lib_reset; simulation_init] self in
        match iter_batches target (sqrt_particles sim) iso batches 1
                           (script sim) initial_locals self with
        | None => NonFinite
        | Some (loc, self) => finish sim source_rate loc self
        end
      | _, _, _ =>
        (* not reached: [check_arguments] has accepted the arguments *)
        Raise (TypeError "batches") self
      end
  end.

End CoupledOperator.

(** ** [openmc/deplete/coupled_operator.py]: the other entry points *)

Module OperatorCalls.

Import CoupledOperator.

(** *** [_get_nuclides_with_data] (lines 63-86) *)

(** One entry of [DataLibrary.from_xml(cross_sections).libraries]: its
    ['type'] and its ['materials']. *)
Record library : Type := mk_library {
  library_type : string;
  library_materials : list string
}.

(** [if name not in nuclides: nuclides.add(name)].  The Python set is a
    list without repetitions; its order carries no meaning. *)
Definition set_add (nuclides : list string) (name : string) : list string :=
  if existsb (String.eqb name) nuclides then nuclides
  else nuclides ++ [name].

Definition _get_nuclides_with_data (libraries : list library)
  : list string :=
  fold_left
    (fun nuclides library =>
       if negb (String.eqb (library_type library) "neutron")
       then nuclides
       else fold_left set_add (library_materials library) nuclides)
    libraries [].

(** *** [_update_materials], C API side (lines 718-756)

    [openmc.deplete.AtomNumber] is not among the sources; the method
    needs two things of it, which are taken as parameters: the read
    [get_atom_density(mat, nuc)] and the assignment
    [number[mat, nuc] = 0.0].  The rounding of lines 733-738 goes through
    logarithms and is the parameter [round8].  One process is modelled,
    so that [comm.bcast] hands back [self.number] itself; material ids
    are integers throughout.  The Python-side pass of lines 758-776 works
    on [openmc.Material] objects and is left out. *)
Section AtomNumber.

Variable number : Type.
Variable get_atom_density : number -> Z -> string -> Q.
Variable set_zero : number -> Z -> string -> number.
Variable round8 : Q -> Q.

(** The warning printed at lines 747-750: nuclide, material, density. *)
Definition warning : Type := (string * Z * Q)%type.

(** [for nuc in number_i.nuclides], for one material: the number vector
    afterwards, the lists for [set_densities] and the warnings. *)
Fixpoint update_nuclides (nuclides_with_data : list string)
    (round_number : bool) (mat : Z) (nuclides : list string) (n : number)
  : number * material * list warning :=
  match nuclides with
  | [] => (n, [], [])
  | nuc :: rest =>
    if existsb (String.eqb nuc) nuclides_with_data then
      let val := 1e-24 * get_atom_density n mat nuc in
      if Qltb 1e-36 val then
        let val := if round_number then round8 val else val in
        let '(n', dens, warns) :=
          update_nuclides nuclides_with_data round_number mat rest n in
        (n', (nuc, val) :: dens, warns)
      else if Qltb val (-1e-21) then
        let '(n', dens, warns) :=
          update_nuclides nuclides_with_data round_number mat rest
                          (set_zero n mat nuc) in
        (n', dens, (nuc, mat, val) :: warns)
      else update_nuclides nuclides_with_data round_number mat rest n
    else update_nuclides nuclides_with_data round_number mat rest n
  end.

(** [for mat in number_i.materials]: the number vector afterwards, the
    [set_densities] calls in order, and the warnings. *)
Fixpoint _update_materials (nuclides_with_data : list string)
    (round_number : bool) (materials : list Z) (nuclides : list string)
    (n : number) : number * list (Z * material) * list warning :=
  match materials with
  | [] => (n, [], [])
  | mat :: rest =>
    let '(n1, dens, warns1) :=
      update_nuclides nuclides_with_data round_number mat nuclides n in
    let '(n2, calls, warns2) :=
      _update_materials nuclides_with_data round_number rest nuclides n1 in
    (n2, (mat, dens) :: calls, warns1 ++ warns2)
  end.

(** What one nuclide of one material contributes to the lists for
    [set_densities], read off a given number vector. *)
Definition handed_over (nuclides_with_data : list string)
    (round_number : bool) (n : number) (mat : Z) (nuc : string)
  : material :=
  if existsb (String.eqb nuc) nuclides_with_data
     && Qltb 1e-36 (1e-24 * get_atom_density n mat nuc)
  then [(nuc, if round_number
              then round8 (1e-24 * get_atom_density n mat nuc)
              else 1e-24 * get_atom_density n mat nuc)]
  else [].

(** A nuclide with data that the loops visit and whose density, in
    atom/b-cm, is below [-1e-21]. *)
Definition significantly_negative (nuclides_with_data : list string)
    (materials : list Z) (nuclides : list string) (n : number) (mat : Z)
    (nuc : string) : Prop :=
  In mat materials /\ In nuc nuclides /\
  existsb (String.eqb nuc) nuclides_with_data = true /\
  1e-24 * get_atom_density n mat nuc < -1e-21.

End AtomNumber.

(** An atom-number vector for the examples: densities by material and
    nuclide, zero elsewhere. *)
Definition number_table : Type := list (Z * string * Q).

Fixpoint table_get (n : number_table) (mat : Z) (nuc : string) : Q :=
  match n with
  | [] => 0
  | (m, k, d) :: rest =>
    if Z.eqb m mat && String.eqb k nuc then d else table_get rest mat nuc
  end.

Definition table_set_zero (n : number_table) (mat : Z) (nuc : string)
  : number_table :=
  (mat, nuc, 0) :: n.

Definition depleted : number_table :=
  [(1%Z, "U235"%string, 7e20); (1%Z, "Xe135"%string, -5e2);
   (1%Z, "I135"%string, -2e3); (1%Z, "Pu239"%string, 1e-13);
   (1%Z, "He4"%string, 3e18)].

(** *** [__call__] (lines 661-716) *)

(** [openmc.lib.reset_timers()] and [openmc.lib.run()] have no name in
    [lib_call]; whether a call made them is reported beside the result.
    The other collaborator calls are appended to the trace. *)
Record call_outcome : Type := mk_call_outcome {
  call_result : OperatorResult;
  call_self : operator;
  timers_reset : bool;
  transport_run : bool
}.

Definition __call__ (sim : transport) (self : operator)
    (vec : list (list Q)) (source_rate : Q) : call_outcome :=
  let self := log [lib_reset] self in
  let timers := Nat.ltb 0 (n_calls self) in
  let self :=
    log [update_materials_and_nuclides]
        (with_materials (densities_of_vec sim vec (materials self)) self) in
  if Qeq_bool source_rate 0 then
    mk_call_outcome
      (mk_result (0, 0) (map (fun _ => 0) (reaction_rates self)))
      self timers false
  else
    let self := log [calculate_reaction_rates] self in
    let self :=
      mk_operator (initial_value self) (concs self) (reaction_rates self)
                  (S (n_calls self)) (materials self) (trace self) in
    mk_call_outcome
      (mk_result (final_keff sim) (rates_of sim source_rate))
      self timers true.

(** A depletion driver calling the operator once per step. *)
Fixpoint call_sequence (sim : transport) (self : operator)
    (steps : list (list (list Q) * Q)) : operator * list call_outcome :=
  match steps with
  | [] => (self, [])
  | (vec, source_rate) :: rest =>
    let o := __call__ sim self vec source_rate in
    let '(self', os) := call_sequence sim (call_self o) rest in
    (self', o :: os)
  end.

End OperatorCalls.


(** ** NumPy [float64] with its non-finite values *)

(** The embedding of [search_crit_conc] above stops, with [NonFinite],
    where a division leaves the finite numbers, and reads 0 outside a
    tally.  The code does neither: NumPy answers a zero divisor with
    [inf], [-inf] or [nan] and the method carries on with that value, and
    a read outside a tally raises [IndexError].  The embedding below,
    [CoupledOperator64], follows the same lines of the source with both
    in place; on a batch that stays finite and whose reads are in range
    the two agree (lemma [inactive_batch_finite]). *)
Module np.

(** A [float64]: a finite value, read as the rational it denotes, or one
    of [inf], [-inf] and [nan].  As before rounding and overflow are not
    modelled; neither is the sign of a zero: [Fin 0] stands for [+0.0]
    (a tally increment that is zero, a sum of increments that is zero
    and a square that is zero are all [+0.0] in IEEE 754; a target of
    [-0.0] is not considered). *)
Inductive float64 : Type :=
| Fin (q : Q)
| PInf
| NInf
| NaN.

(** The infinity of a given sign; no sign gives [nan]. *)
Definition inf_of (c : comparison) : float64 :=
  match c with
  | Gt => PInf
  | Lt => NInf
  | Eq => NaN
  end.

Definition sign (a : float64) : comparison :=
  match a with
  | Fin q => q ?= 0
  | PInf => Gt
  | NInf => Lt
  | NaN => Eq
  end.

Definition sign_mul (a b : comparison) : comparison :=
  match a, b with
  | Eq, _ | _, Eq => Eq
  | Gt, Gt | Lt, Lt => Gt
  | _, _ => Lt
  end.

(** [a + b]: [inf + -inf] is [nan]. *)
Definition add (a b : float64) : float64 :=
  match a, b with
  | NaN, _ | _, NaN => NaN
  | Fin x, Fin y => Fin (x + y)
  | PInf, NInf | NInf, PInf => NaN
  | PInf, _ | _, PInf => PInf
  | NInf, _ | _, NInf => NInf
  end.

Definition opp (a : float64) : float64 :=
  match a with
  | Fin x => Fin (- x)
  | PInf => NInf
  | NInf => PInf
  | NaN => NaN
  end.

(** [a - b]. *)
Definition sub (a b : float64) : float64 :=
  match a, b with
  | Fin x, Fin y => Fin (x - y)
  | _, _ => add a (opp b)
  end.

(** [a * b]: [0 * inf] is [nan]. *)
Definition mul (a b : float64) : float64 :=
  match a, b with
  | NaN, _ | _, NaN => NaN
  | Fin x, Fin y => Fin (x * y)
  | _, _ => inf_of (sign_mul (sign a) (sign b))
  end.

(** [a / b]: a finite [a] over zero is the infinity of the sign of [a],
    and [nan] when [a] is zero too; [inf / inf] is [nan]; a finite value
    over an infinity is zero. *)
Definition div (a b : float64) : float64 :=
  match a, b with
  | NaN, _ | _, NaN => NaN
  | Fin x, Fin y => if Qeq_bool y 0 then inf_of (x ?= 0) else Fin (x / y)
  | Fin _, _ => Fin 0
  | _, Fin y =>
    inf_of (sign_mul (sign a) (match y ?= 0 with Lt => Lt | _ => Gt end))
  | _, _ => NaN
  end.

(** [a <= b] and [a > b]: false as soon as one side is [nan]. *)
Definition le (a b : float64) : bool :=
  match a, b with
  | NaN, _ | _, NaN => false
  | Fin x, Fin y => Qle_bool x y
  | NInf, _ | _, PInf => true
  | _, _ => false
  end.

Definition gt (a b : float64) : bool :=
  match a, b with
  | NaN, _ | _, NaN => false
  | Fin x, Fin y => Qltb y x
  | PInf, (Fin _ | NInf) | Fin _, NInf => true
  | _, _ => false
  end.

Declare Scope np_scope.
Delimit Scope np_scope with np.
Bind Scope np_scope with float64.

Infix "+" := add : np_scope.
Infix "-" := sub : np_scope.
Infix "*" := mul : np_scope.
Infix "/" := div : np_scope.

End np.

(** ** [search_crit_conc] over [float64] *)

Module CoupledOperator64.

(** The observations, the tally arrays, the balance terms, the argument
    checks and the collaborator calls are those of [CoupledOperator];
    what holds a [float64] in the code is declared anew. *)
Import CoupledOperator np.

(** [a[i][j]] with Python's bounds check; [None] stands for
    [IndexError]. *)
Definition item (a : array2) (i j : nat) : option Q :=
  do row <- nth_error a i;
  nth_error row j.

(** *** The per-batch estimator (lines 503-555) *)

Record locals : Type := mk_locals {
  f : float64;
  g : float64;
  f_prev : float64;
  prev_res0 : array2;
  prev_res1 : array2;
  prev_leak : Q;
  x : float64;
  p : float64
}.

(** Lines 487-492; [x] and [p] are unbound until the batch with [M == 1]
    assigns them. *)
Definition initial_locals : locals :=
  mk_locals (Fin 1) (Fin 1) (Fin 1) [] [] 0 (Fin 0) (Fin 0).

(** Locals that hold finite values. *)
Definition finite_locals (loc : CoupledOperator.locals) : locals :=
  mk_locals (Fin (CoupledOperator.f loc)) (Fin (CoupledOperator.g loc))
            (Fin (CoupledOperator.f_prev loc))
            (CoupledOperator.prev_res0 loc) (CoupledOperator.prev_res1 loc)
            (CoupledOperator.prev_leak loc)
            (Fin (CoupledOperator.x loc)) (Fin (CoupledOperator.p loc)).

(** Lines 507-534.  The tallies hold finite values; the five reads of
    lines 529-533 are checked. *)
Definition tally_deltas (M : nat) (loc : locals) (o : batch_obs)
  : option balance :=
  let prev_res :=
    if Nat.eqb M 1
    then (arr_sub (tally0 o) (tally0 o), arr_sub (tally1 o) (tally1 o))
    else (prev_res0 loc, prev_res1 loc) in
  let curr_res0 := arr_sub (tally0 o) (fst prev_res) in
  let curr_res1 := arr_sub (tally1 o) (snd prev_res) in
  let leak := (glob_leak o * inject_Z (Z.of_nat M) - prev_leak loc)%Q in
  do prompt <- item curr_res0 0 1;
  do delayed <- item curr_res0 1 1;
  do nxn_gain <- item curr_res0 3 1;
  do nxn_loss <- item curr_res0 4 1;
  do absorbed <- item curr_res0 2 1;
  Some (mk_balance prompt delayed (nxn_gain - nxn_loss)%Q leak absorbed
                   (np_sum curr_res1)).

(** Line 537. *)
Definition corr (target : Q) (b : balance) : float64 :=
  (((Fin (P_fiss_prompt b) / Fin target + Fin (P_fiss_delayed b)
     + Fin (P_nxn b)) * Fin (1 - L_leak b)
    - Fin (L_abs b - L_abs_nucs b)) / Fin (L_abs_nucs b))%np.

(** Lines 538-540: [g = corr; if g <= 0: g = 0.5].  A [nan] passes the
    test unchanged. *)
Definition clamp (c : float64) : float64 :=
  if le c (Fin 0) then Fin 0.5 else c.

(** Line 542; [**2] is the product of the value with itself. *)
Definition p_measure (target sqrt_particles : Q) (k : Q * Q) : float64 :=
  let s := (Fin (Qabs (fst k - target)) / Fin target
            + Fin 1 / Fin sqrt_particles)%np in
  (s * s)%np.

(** Lines 544-551. *)
Definition fuse (M : nat) (x p pm z : float64) : float64 * float64 :=
  let '(x, p, p_n) :=
    if Nat.eqb M 1 then (Fin 0, pm, pm)
    else (x, p, (Fin 1 / (Fin 1 / p + Fin 1 / pm))%np) in
  ((x + p_n / p * (z - x))%np, p_n).

(** Lines 503-555 for one batch with [M < batches]; [None] is the
    [IndexError] of a tally read. *)
Definition inactive_batch (target sqrt_particles : Q) (M : nat)
    (loc : locals) (o : batch_obs) : option locals :=
  do b <- tally_deltas M loc o;
  let g := clamp (corr target b) in
  let pm := p_measure target sqrt_particles (keff o) in
  let z := (f_prev loc * g)%np in
  let xp := fuse M (x loc) (p loc) pm z in
  let f := fst xp in
  let g := (f / f_prev loc)%np in
  Some (mk_locals f g f (tally0 o) (tally1 o)
                  (glob_leak o * inject_Z (Z.of_nat M))%Q
                  (fst xp) (snd xp)).

(** *** Densities on the C API side (lines 606-623) *)

Definition material : Type := list (string * float64).

Fixpoint first_density (m : material) (nuc : string) : float64 :=
  match m with
  | [] => Fin 0
  | (n, d) :: m' => if String.eqb n nuc then d else first_density m' nuc
  end.

(** [if val > 1e-36: ...]: a [nan] density is dropped, an infinite one
    kept. *)
Definition rescaled_entry (iso : list string) (g : float64) (m : material)
    (nuc : string) : list (string * float64) :=
  let val := first_density m nuc in
  if gt val (Fin 1e-36)
  then [(nuc, if in_iso iso nuc then (val * g)%np else val)]
  else [].

Definition rescale (iso : list string) (g : float64) (m : material)
  : material :=
  flat_map (rescaled_entry iso g m) (map fst m).

Definition lib_materials : Type := list (Z * material).

Definition update_densities (iso : list string) (g : float64)
    (ms : lib_materials) : lib_materials :=
  map (fun im => (fst im, rescale iso g (snd im))) ms.

(** *** The operator, the collaborators and the run *)

Record operator : Type := mk_operator {
  initial_value : option float64;
  concs : list float64;
  reaction_rates : list Q;
  n_calls : nat;
  materials : lib_materials;
  trace : list lib_call
}.

Record transport : Type := mk_transport {
  sqrt_particles : Q;
  script : list batch_obs;
  final_keff : Q * Q;
  densities_of_vec : list (list Q) -> lib_materials -> lib_materials;
  rates_of : Q -> list Q
}.

(** What a call can raise: the exceptions of the argument checks and of
    the missing attribute, and the [IndexError] of a tally read. *)
Inductive exn : Type :=
| Checked (e : py_exn)
| IndexError.

(** A call raises or returns; a returned operator may hold non-finite
    values. *)
Inductive outcome : Type :=
| Raise (e : exn) (self : operator)
| Return (r : OperatorResult) (self : operator).

(** Lines 468-470. *)
Definition init_attributes (self : operator) (v : float64) : operator :=
  match initial_value self with
  | Some _ => self
  | None =>
    mk_operator (Some v) [v] (reaction_rates self) (n_calls self)
                (materials self) (trace self)
  end.

Definition log (c : list lib_call) (self : operator) : operator :=
  mk_operator (initial_value self) (concs self) (reaction_rates self)
              (n_calls self) (materials self) (trace self ++ c).

Definition with_materials (ms : lib_materials) (self : operator)
  : operator :=
  mk_operator (initial_value self) (concs self) (reaction_rates self)
              (n_calls self) ms (trace self).

(** Lines 498-627 from batch [M] on; [inl] is the operator at the moment
    a tally read raises. *)
Fixpoint iter_batches (target sqrt_particles : Q) (iso : list string)
    (batches : Z) (M : nat) (obs : list batch_obs) (loc : locals)
    (self : operator) : operator + (locals * operator) :=
  match obs with
  | [] => inr (loc, self)
  | o :: rest =>
    let self := log [next_batch M] self in
    let step :=
      if Z.ltb (Z.of_nat M) batches then
        match inactive_batch target sqrt_particles M loc o with
        | None => inl self
        | Some loc' =>
          inr (loc',
               log (map (fun im => set_densities (fst im)) (materials self))
                   (with_materials
                      (update_densities iso (g loc') (materials self))
                      self))
        end
      else inr (loc, self) in
    match step with
    | inl self => inl self
    | inr ls =>
      let self := if Z.eqb (Z.of_nat M) batches
                  then log [lib_reset] (snd ls) else snd ls in
      iter_batches target sqrt_particles iso batches (S M) rest (fst ls)
                   self
    end
  end.

(** Lines 630-659. *)
Definition finish (sim : transport) (source_rate : Q) (loc : locals)
    (self : operator) : outcome :=
  let self := log [simulation_finalize] self in
  match initial_value self with
  | None => Raise (Checked (AttributeError "initial_value")) self
  | Some v =>
    let v' := (v * f loc)%np in
    let self :=
      mk_operator (Some v') (concs self ++ [v']) (reaction_rates self)
                  (n_calls self) (materials self) (trace self) in
    let self := log [sync_python_materials; export_model_xml;
                     calculate_reaction_rates] self in
    let self :=
      mk_operator (initial_value self) (concs self) (reaction_rates self)
                  (S (n_calls self)) (materials self) (trace self) in
    Return (mk_result (final_keff sim) (rates_of sim source_rate)) self
  end.

Definition search_crit_conc (sim : transport) (self : operator)
    (vec : list (list Q)) (source_rate : Q) (iso : option (list string))
    (batches : option pyval) (bracket : option (list pyval))
    (initial_value : option pyval) (target : Q) : outcome :=
  match check_arguments iso batches bracket initial_value with
  | Some e => Raise (Checked e) self
  | None =>
    if Qeq_bool source_rate 0 then
      Return (mk_result (0, 0) (map (fun _ => 0) (reaction_rates self))) self
    else
      match iso, batches, initial_value with
      | Some iso, Some (PyInt batches), Some v =>
        let self := init_attributes self (Fin (to_Q v)) in
        let self :=
          log [update_materials_and_nuclides; export_materials_xml]
              (with_materials (densities_of_vec sim vec (materials self))
                              self) in
        let self := log [lib_reset; simulation_init] self in
        match iter_batches target (sqrt_particles sim) iso batches 1
                           (script sim) initial_locals self with
        | inl self => Raise IndexError self
        | inr (loc, self) => finish sim source_rate loc self
        end
      | _, _, _ =>
        (* not reached: [check_arguments] has accepted the arguments *)
        Raise (Checked (TypeError "batches")) self
      end
  end.

(** *** Tallies of one shape *)

(** An array of [rows] score rows of three result columns each. *)
Definition shaped (rows : nat) (a : array2) : bool :=
  Nat.eqb (List.length a) rows
  && forallb (fun row => Nat.eqb (List.length row) 3) a.

(** A batch whose first tally has [n0] score rows and whose second has
    [n1]. *)
Definition tallies_shaped (n0 n1 : nat) (o : batch_obs) : bool :=
  shaped n0 (tally0 o) && shaped n1 (tally1 o).

End CoupledOperator64.


(** ** A scripted run *)

(** A transport collaborator that shows fixed tallies: three batches, the
    first two of them inactive when [batches = 3], over one material that
    holds two tracked boron isotopes, hydrogen, and a trace of xenon
    below the density floor. *)
Module Scripted.

Import CoupledOperator.

Definition obs1 : batch_obs :=
  mk_obs (1.1, 0.01)
         [[0.9; 0.9; 0.81]; [0.01; 0.01; 0.0001]; [0.6; 0.6; 0.36];
          [0.02; 0.02; 0.0004]; [0.01; 0.01; 0.0001]]
         [[0.1; 0.1; 0.01]; [0.05; 0.05; 0.0025]]
         0.05.

Definition obs2 : batch_obs :=
  mk_obs (1.3, 0.01)
         [[0.95; 1.85; 1.7125]; [0.01; 0.02; 0.0002]; [0.6; 1.2; 0.72];
          [0.02; 0.04; 0.0008]; [0.01; 0.02; 0.0002]]
         [[0.1; 0.2; 0.02]; [0.05; 0.1; 0.005]]
         0.05.

Definition obs3 : batch_obs :=
  mk_obs (1.01, 0.005)
         [[0.9; 2.75; 2.5225]; [0.01; 0.03; 0.0003]; [0.6; 1.8; 1.08];
          [0.02; 0.06; 0.0012]; [0.01; 0.03; 0.0003]]
         [[0.1; 0.3; 0.03]; [0.05; 0.15; 0.0075]]
         0.05.

(** A second batch that finds the balance closed: the increments since
    [obs1] give a correction of exactly 1. *)
Definition obs_critical : batch_obs :=
  mk_obs (1.0, 0.01)
         [[0.9; 1.9; 0.81]; [0.01; 0.01; 0.0001]; [0.6; 1.6; 0.36];
          [0.02; 0.02; 0.0004]; [0.01; 0.01; 0.0001]]
         [[0.1; 0.4; 0.01]; [0.05; 0.05; 0.0025]]
         0.025.

Definition water : material :=
  [("B10"%string, 2e-5); ("B11"%string, 8e-5); ("H1"%string, 0.06);
   ("Xe135"%string, 5e-37)].

Definition sim : transport :=
  mk_transport 10 [obs1; obs2; obs3] (1.001, 0.002)
               (fun _ ms => ms) (fun source_rate => [source_rate; 0]).

Definition self0 : operator :=
  mk_operator None [] [3; 4] 0 [(1%Z, water)] [].

Definition boron : list string := ["B10"%string; "B11"%string].

(** The operator and the result the scripted search with two inactive
    batches ends with. *)
Definition searched : OperatorResult * operator :=
  match search_crit_conc sim self0 [] 1 (Some boron) (Some (PyInt 3)) None
                         (Some (PyFloat 0.001)) 1 with
  | Return r self' => (r, self')
  | _ => (mk_result (0, 0) [], self0)
  end.

(** Three plain calls, the middle one at power, and the outcome of the
    third. *)
Definition steps3 : list (list (list Q) * Q) :=
  [([], 0); ([], 2); ([], 0)].

Definition third_call : OperatorCalls.call_outcome :=
  OperatorCalls.__call__ sim
    (OperatorCalls.call_self
       (OperatorCalls.__call__ sim
          (OperatorCalls.call_self (OperatorCalls.__call__ sim self0 [] 0))
          [] 2))
    [] 0.

(** The locals after the first and after the second inactive batch. *)
Definition loc1 : locals :=
  match inactive_batch 1 10 1 initial_locals obs1 with
  | Some l => l
  | None => initial_locals
  end.

Definition loc2 : locals :=
  match inactive_batch 1 10 2 loc1 obs2 with
  | Some l => l
  | None => loc1
  end.

(** Runs over [float64].  A batch in a model that holds none of the
    tracked nuclides, so that the second tally stays at zero, with the
    neutron balance closed: production 1, absorption 1, no leakage. *)
Definition obs_balanced : batch_obs :=
  mk_obs (1.0, 0.01)
         [[1; 1; 1]; [0; 0; 0]; [1; 1; 1]; [0; 0; 0]; [0; 0; 0]]
         [[0; 0; 0]; [0; 0; 0]]
         0.

(** The same with production 0.9 below absorption 1. *)
Definition obs_subcritical : batch_obs :=
  mk_obs (0.9, 0.01)
         [[0.9; 0.9; 0.81]; [0; 0; 0]; [1; 1; 1]; [0; 0; 0]; [0; 0; 0]]
         [[0; 0; 0]; [0; 0; 0]]
         0.

(** A first tally with three score rows only. *)
Definition obs_short : batch_obs :=
  mk_obs (1.1, 0.01)
         [[0.9; 0.9; 0.81]; [0.01; 0.01; 0.0001]; [0.6; 0.6; 0.36]]
         [[0.1; 0.1; 0.01]; [0.05; 0.05; 0.0025]]
         0.05.

Definition plain_water : CoupledOperator64.material :=
  [("H1"%string, np.Fin 0.06); ("O16"%string, np.Fin 0.03)].

Definition borated_water : CoupledOperator64.material :=
  map (fun nd => (fst nd, np.Fin (snd nd))) water.

Definition sim64 (obs : list batch_obs) : CoupledOperator64.transport :=
  CoupledOperator64.mk_transport 10 obs (1.001, 0.002)
    (fun _ ms => ms) (fun source_rate => [source_rate; 0]).

Definition self64 (m : CoupledOperator64.material)
  : CoupledOperator64.operator :=
  CoupledOperator64.mk_operator None [] [3; 4] 0 [(1%Z, m)] [].

End Scripted.

(** * Properties *)

(** ** Comparisons on rationals *)

Lemma Qltb_lt (a b : Q) : Qltb a b = true <-> a < b.
Proof.
  unfold Qltb. rewrite negb_true_iff.
  split; intro H.
  - destruct (Qlt_le_dec a b) as [Hlt | Hle]; [exact Hlt | ].
    apply Qle_bool_iff in Hle. congruence.
  - destruct (Qle_bool b a) eqn:E; [ | reflexivity].
    apply Qle_bool_iff in E. exfalso. apply (Qlt_not_le _ _ H E).
Qed.

Lemma Qltb_ge (a b : Q) : Qltb a b = false <-> b <= a.
Proof.
  unfold Qltb. rewrite negb_false_iff. apply Qle_bool_iff.
Qed.

(** ** The root finder *)

Section RootFinder.

Import Search.

(** The sign test fails exactly on strictly opposite signs. *)
Lemma same_sign_false (a b : Q) :
  same_sign a b = false <-> (a < 0 /\ 0 < b) \/ (0 < a /\ b < 0).
Proof.
  unfold same_sign, np_sign.
  rewrite negb_false_iff.
  destruct (Qcompare_spec a 0) as [Ea | Ea | Ea];
    destruct (Qcompare_spec b 0) as [Eb | Eb | Eb];
    match goal with
    | |- context [Qeq_bool ?e 0] =>
      let v := eval vm_compute in (Qeq_bool e 0) in
      change (Qeq_bool e 0) with v
    end;
    (split; intro H;
     [ try discriminate H;
       first [ left; split; assumption | right; split; assumption ]
     | try reflexivity;
       exfalso; destruct H as [[H1 H2] | [H1 H2]]; lra ]).
Qed.

(** On strictly opposite signs the divisor of the interpolation is not
    zero. *)
Lemma opposite_divisor_positive (left right : hold_root_cand) :
  same_sign (value left) (value right) = false ->
  0 < Qabs (value left) + Qabs (value right).
Proof.
  intro H. apply same_sign_false in H.
  assert (Hl := Qabs_nonneg (value left)).
  assert (Hr := Qabs_nonneg (value right)).
  destruct H as [[H1 H2] | [H1 H2]].
  - assert (Qabs (value right) == value right)
      by (apply Qabs_pos; lra). lra.
  - assert (Qabs (value left) == value left)
      by (apply Qabs_pos; lra). lra.
Qed.

(** The main iteration is entered on strictly opposite signs only. *)
Lemma bracket_setup_opposite (f : Q -> Q) (x0 b0 b1 tol : Q)
    (l r : hold_root_cand) :
  bracket_setup f x0 b0 b1 tol = inr (l, r) ->
  same_sign (value l) (value r) = false.
Proof.
  unfold bracket_setup.
  destruct (Qltb (Qabs (f x0)) tol); [discriminate | ].
  destruct (Qltb (Qabs (f b0)) tol); [discriminate | ].
  set (lft := if Qltb (f x0) (f b0) then _ else _).
  set (rgt := if Qltb (f x0) (f b0) then _ else _).
  destruct (same_sign (value lft) (value rgt)) eqn:E0.
  - destruct (Qltb (Qabs (f b1)) tol); [discriminate | ].
    cbn [value].
    destruct (same_sign (value lft) (f b1)) eqn:E1; cbn [negb].
    + destruct (same_sign (f b1) (value rgt)) eqn:E2; cbn [negb].
      * discriminate.
      * intro H. injection H as <- <-. exact E2.
    + intro H. injection H as <- <-. exact E1.
  - intro H. injection H as <- <-. exact E0.
Qed.

(** Replacing an endpoint keeps the signs strictly opposite. *)
Lemma iterate_opposite (f : Q -> Q) (tol : Q)
    (left right left' right' : hold_root_cand) :
  iterate f tol left right = Narrowed left' right' ->
  same_sign (value left') (value right') = false.
Proof.
  unfold iterate. cbn [value guess].
  destruct (Qltb _ tol); [discriminate | ].
  destruct (same_sign (value left) _) eqn:E1; cbn [negb].
  - destruct (same_sign _ (value right)) eqn:E2; cbn [negb].
    + discriminate.
    + intro H. injection H as <- <-. exact E2.
  - intro H. injection H as <- <-. exact E1.
Qed.

(** The candidate the diagnostics report has the least residual of the
    three. *)
Lemma closest_least (left right next : hold_root_cand) :
  Qabs (value (closest left right next)) <= Qabs (value left) /\
  Qabs (value (closest left right next)) <= Qabs (value right) /\
  Qabs (value (closest left right next)) <= Qabs (value next).
Proof.
  unfold closest.
  destruct (Qltb (Qabs (value right)) (Qabs (value left))) eqn:E1.
  - apply Qltb_lt in E1.
    destruct (Qltb (Qabs (value next)) (Qabs (value right))) eqn:E2.
    + apply Qltb_lt in E2. repeat split; lra.
    + apply Qltb_ge in E2. repeat split; lra.
  - apply Qltb_ge in E1.
    destruct (Qltb (Qabs (value next)) (Qabs (value left))) eqn:E2.
    + apply Qltb_lt in E2. repeat split; lra.
    + apply Qltb_ge in E2. repeat split; lra.
Qed.

(** It is one of the three. *)
Lemma closest_among (left right next : hold_root_cand) :
  closest left right next = left \/ closest left right next = right \/
  closest left right next = next.
Proof.
  unfold closest.
  repeat match goal with
         | |- context [if ?c then _ else _] => destruct c
         end; tauto.
Qed.

Lemma keeps_narrowing_main_loop (f : Q -> Q) (tol : Q) (n : nat)
    (left right : hold_root_cand) :
  keeps_narrowing f tol n left right ->
  main_loop f tol n left right = FellThrough.
Proof.
  induction 1 as [ | n left right g Htol Hs _ IH
                   | n left right g Htol Hs1 Hs2 _ IH ].
  - reflexivity.
  - cbn [main_loop]. unfold iterate. cbn [value guess]. fold g.
    destruct (Qltb (Qabs (f g)) tol) eqn:E.
    + apply Qltb_lt in E. contradiction.
    + rewrite Hs. cbn [negb]. exact IH.
  - cbn [main_loop]. unfold iterate. cbn [value guess]. fold g.
    destruct (Qltb (Qabs (f g)) tol) eqn:E.
    + apply Qltb_lt in E. contradiction.
    + rewrite Hs1, Hs2. cbn [negb]. exact IH.
Qed.

(** C4.  Whenever [custom_root_finder] enters its main iteration and, for
    [max_iter] passes in a row, the tolerance is not met while one of the
    two sign tests replaces an endpoint, the loop runs out and the call
    ends without an explicit [return]: the caller receives Python's
    implicit [None], not a "did not converge" result. *)
Theorem C4_exhausted_loop_falls_through (f : Q -> Q) (x0 : Q)
    (bracket : list pyval) (tol : Q) (max_iter : nat) (b0 b1 : Q)
    (l r : hold_root_cand) :
  cv.check_bracket bracket = inr (b0, b1) ->
  bracket_setup f x0 b0 b1 tol = inr (l, r) ->
  keeps_narrowing f tol max_iter l r ->
  custom_root_finder f x0 bracket tol max_iter = FellThrough.
Proof.
  intros Hb Hs Hk. unfold custom_root_finder.
  rewrite Hb, Hs. apply keeps_narrowing_main_loop. exact Hk.
Qed.

Lemma C4_witness :
  custom_root_finder f_square 1 [PyInt 0; PyInt 2] 1e-3 3 = FellThrough.
Proof.
  apply (C4_exhausted_loop_falls_through f_square 1 [PyInt 0; PyInt 2]
           1e-3 3 0 2 (mk_cand 0 (f_square 0)) (mk_cand 2 (f_square 2))).
  - reflexivity.
  - vm_compute. reflexivity.
  - apply kn_left; [ vm_compute; discriminate | reflexivity | reflexivity | ].
    apply kn_left; [ vm_compute; discriminate | reflexivity | reflexivity | ].
    apply kn_left; [ vm_compute; discriminate | reflexivity | reflexivity | ].
    apply kn_done.
Defined.

Lemma same_sign_sym (a b : Q) : same_sign a b = same_sign b a.
Proof.
  unfold same_sign. f_equal. apply Qeqb_comp; [field | reflexivity].
Qed.

(** When the three residuals miss the tolerance and no two of them have
    strictly opposite signs, the call ends in the repair step with the
    first diagnostic and the candidate of least residual. *)
Lemma bracket_setup_unrepairable (f : Q -> Q) (x0 b0 b1 tol : Q) :
  ~ Qabs (f x0) < tol -> ~ Qabs (f b0) < tol -> ~ Qabs (f b1) < tol ->
  same_sign (f x0) (f b0) = true ->
  same_sign (f x0) (f b1) = true ->
  same_sign (f b0) (f b1) = true ->
  exists give,
    bracket_setup f x0 b0 b1 tol
      = inl (Returned (guess give)
                      [NoRootInRange (guess give) (value give)]) /\
    In give [mk_cand x0 (f x0); mk_cand b0 (f b0); mk_cand b1 (f b1)] /\
    Qabs (value give) <= Qabs (f x0) /\
    Qabs (value give) <= Qabs (f b0) /\
    Qabs (value give) <= Qabs (f b1).
Proof.
  intros T0 T1 T2 S01 S02 S12. unfold bracket_setup.
  destruct (Qltb (Qabs (f x0)) tol) eqn:E0;
    [apply Qltb_lt in E0; contradiction | ].
  destruct (Qltb (Qabs (f b0)) tol) eqn:E1;
    [apply Qltb_lt in E1; contradiction | ].
  destruct (Qltb (Qabs (f b1)) tol) eqn:E2;
    [apply Qltb_lt in E2; contradiction | ].
  assert (S10 := S01). rewrite same_sign_sym in S10.
  assert (S20 := S02). rewrite same_sign_sym in S20.
  assert (S21 := S12). rewrite same_sign_sym in S21.
  destruct (Qltb (f x0) (f b0)); cbn [value];
    rewrite ?S01, ?S10, ?S02, ?S20, ?S12, ?S21, ?E2; cbn [negb];
    match goal with
    | |- context [closest ?l ?r ?n] =>
      exists (closest l r n);
      destruct (closest_least l r n) as (L1 & L2 & L3);
      cbn [value] in L1, L2, L3;
      split; [reflexivity | ];
      split; [ | repeat split; assumption];
      unfold closest; cbn [value In];
      repeat match goal with
             | |- context [if ?c then _ else _] => destruct c
             end; tauto
    end.
Qed.

(** C9.  For [f(x) = x - 5], bracket [[0, 10]], [x0 = 1] and
    [tol = 1e-3], every call that is allowed at least one iteration
    returns, without a diagnostic, the first false-position iterate
    [left.guess + (right.guess - left.guess) * |left.value| /
    (|left.value| + |right.value|)] of the repaired bracket
    [(0, -5), (10, 5)]; that iterate is 5 and its residual is below the
    tolerance. *)
Theorem C9_linear_root_found (max_iter : nat) :
  (1 <= max_iter)%nat ->
  exists x_star : Q,
    custom_root_finder f_linear 1 [PyInt 0; PyInt 10] 1e-3 max_iter
      = Returned x_star []
    /\ bracket_setup f_linear 1 0 10 1e-3
        = inr (mk_cand 0 (f_linear 0), mk_cand 10 (f_linear 10))
    /\ x_star = false_position (mk_cand 0 (f_linear 0))
                               (mk_cand 10 (f_linear 10))
    /\ x_star == 5
    /\ Qabs (f_linear x_star) < 1e-3.
Proof.
  intro H. destruct max_iter as [ | n]; [lia | ].
  exists (false_position (mk_cand 0 (f_linear 0))
                         (mk_cand 10 (f_linear 10))).
  split; [ | split; [ | split; [ | split]]].
  - vm_compute. reflexivity.
  - vm_compute. reflexivity.
  - reflexivity.
  - vm_compute. reflexivity.
  - vm_compute. reflexivity.
Qed.

Lemma C9_witness :
  exists x_star : Q,
    custom_root_finder f_linear 1 [PyInt 0; PyInt 10] 1e-3 50
      = Returned x_star []
    /\ bracket_setup f_linear 1 0 10 1e-3
        = inr (mk_cand 0 (f_linear 0), mk_cand 10 (f_linear 10))
    /\ x_star = false_position (mk_cand 0 (f_linear 0))
                               (mk_cand 10 (f_linear 10))
    /\ x_star == 5
    /\ Qabs (f_linear x_star) < 1e-3.
Proof.
  apply (C9_linear_root_found 50). lia.
Defined.

(** The repair step that fails, as an equation: the call ends in lines
    252-257 with the candidate [closest] picks among [left], [right] and
    the upper bracket end. *)
Lemma bracket_setup_repair_fails (f : Q -> Q) (x0 b0 b1 tol : Q) :
  ~ Qabs (f x0) < tol -> ~ Qabs (f b0) < tol -> ~ Qabs (f b1) < tol ->
  same_sign (f x0) (f b0) = true ->
  same_sign (f x0) (f b1) = true ->
  same_sign (f b0) (f b1) = true ->
  let left := if Qltb (f x0) (f b0)
              then mk_cand x0 (f x0) else mk_cand b0 (f b0) in
  let right := if Qltb (f x0) (f b0)
               then mk_cand b0 (f b0) else mk_cand x0 (f x0) in
  let give := closest left right (mk_cand b1 (f b1)) in
  bracket_setup f x0 b0 b1 tol
  = inl (Returned (guess give) [NoRootInRange (guess give) (value give)]).
Proof.
  intros T0 T1 T2 S01 S02 S12. unfold bracket_setup.
  destruct (Qltb (Qabs (f x0)) tol) eqn:E0;
    [apply Qltb_lt in E0; contradiction | ].
  destruct (Qltb (Qabs (f b0)) tol) eqn:E1;
    [apply Qltb_lt in E1; contradiction | ].
  destruct (Qltb (Qabs (f b1)) tol) eqn:E2;
    [apply Qltb_lt in E2; contradiction | ].
  assert (S10 := S01). rewrite same_sign_sym in S10.
  assert (S20 := S02). rewrite same_sign_sym in S20.
  assert (S21 := S12). rewrite same_sign_sym in S21.
  destruct (Qltb (f x0) (f b0)); cbn [value];
    rewrite ?S01, ?S10, ?S02, ?S20, ?S12, ?S21, ?E2; cbn [negb];
    reflexivity.
Qed.

(** C10.  Whenever the bracket repair of [custom_root_finder] cannot
    produce a sign-changing pair, that is, the residuals at [x0],
    [bracket[0]] and [bracket[1]] all miss the tolerance and no two of
    them have strictly opposite signs, the call ends before the main
    iteration, whatever [max_iter] is: it does not raise, it prints the
    "range does not contain the root" diagnostic, and it returns the
    candidate of least absolute residual among [left], [right] (the
    points [x0] and [bracket[0]]) and the upper bracket end.  For
    [f(x) = x - 5], bracket [[10, 20]] and [x0 = 12] this is the lower
    end 10 ([unrepairable_bracket_of_the_example]). *)
Theorem C10_unrepairable_bracket_returns_closest (f : Q -> Q) (x0 : Q)
    (bracket : list pyval) (tol : Q) (max_iter : nat) (b0 b1 : Q) :
  cv.check_bracket bracket = inr (b0, b1) ->
  ~ Qabs (f x0) < tol -> ~ Qabs (f b0) < tol -> ~ Qabs (f b1) < tol ->
  same_sign (f x0) (f b0) = true ->
  same_sign (f x0) (f b1) = true ->
  same_sign (f b0) (f b1) = true ->
  exists give,
    custom_root_finder f x0 bracket tol max_iter
      = Returned (guess give) [NoRootInRange (guess give) (value give)] /\
    In give [mk_cand x0 (f x0); mk_cand b0 (f b0); mk_cand b1 (f b1)] /\
    Qabs (value give) <= Qabs (f x0) /\
    Qabs (value give) <= Qabs (f b0) /\
    Qabs (value give) <= Qabs (f b1).
Proof.
  intros Hb T0 T1 T2 S01 S02 S12. unfold custom_root_finder. rewrite Hb.
  rewrite (bracket_setup_repair_fails f x0 b0 b1 tol T0 T1 T2 S01 S02 S12).
  destruct (Qltb (f x0) (f b0));
    match goal with
    | |- context [closest ?l ?r ?n] =>
      exists (closest l r n);
      destruct (closest_least l r n) as (L1 & L2 & L3);
      destruct (closest_among l r n) as [E | [E | E]]
    end;
    (split; [reflexivity | ]);
    rewrite E in *; cbn [value In] in *; repeat split; auto.
Qed.

Lemma C10_witness :
  exists give,
    custom_root_finder f_linear 12 [PyInt 10; PyInt 20] 1e-3 50
      = Returned (guess give) [NoRootInRange (guess give) (value give)] /\
    In give [mk_cand 12 (f_linear 12); mk_cand 10 (f_linear 10);
             mk_cand 20 (f_linear 20)] /\
    Qabs (value give) <= Qabs (f_linear 12) /\
    Qabs (value give) <= Qabs (f_linear 10) /\
    Qabs (value give) <= Qabs (f_linear 20).
Proof.
  apply (C10_unrepairable_bracket_returns_closest f_linear 12
           [PyInt 10; PyInt 20] 1e-3 50 10 20).
  - reflexivity.
  - intro H. vm_compute in H. discriminate H.
  - intro H. vm_compute in H. discriminate H.
  - intro H. vm_compute in H. discriminate H.
  - reflexivity.
  - reflexivity.
  - reflexivity.
Defined.

(** The worked example: for [f(x) = x - 5], bracket [[10, 20]] and
    [x0 = 12] the residuals are 7, 5 and 15; whatever [max_iter] is, the
    call prints the diagnostic for the lower end 10, whose residual 5 is
    the least, and returns 10. *)
Example unrepairable_bracket_of_the_example (max_iter : nat) :
  custom_root_finder f_linear 12 [PyInt 10; PyInt 20] 1e-3 max_iter
    = Returned 10 [NoRootInRange 10 5]
  /\ bracket_setup f_linear 12 10 20 1e-3
      = inl (Returned 10 [NoRootInRange 10 5])
  /\ closest (mk_cand 10 (f_linear 10)) (mk_cand 12 (f_linear 12))
             (mk_cand 20 (f_linear 20))
      = mk_cand 10 5
  /\ Qabs 5 <= Qabs (f_linear 10)
  /\ Qabs 5 <= Qabs (f_linear 12)
  /\ Qabs 5 <= Qabs (f_linear 20).
Proof.
  split; [ | split; [ | split; [ | split; [ | split]]]].
  - vm_compute. reflexivity.
  - vm_compute. reflexivity.
  - vm_compute. reflexivity.
  - vm_compute. discriminate.
  - vm_compute. discriminate.
  - vm_compute. discriminate.
Qed.

(** *** Further properties of [custom_root_finder] *)

Lemma bracket_setup_evaluated (f : Q -> Q) (x0 b0 b1 tol : Q)
    (l r : hold_root_cand) :
  bracket_setup f x0 b0 b1 tol = inr (l, r) ->
  evaluated f tol l /\ evaluated f tol r /\
  In (guess l) [x0; b0; b1] /\ In (guess r) [x0; b0; b1].
Proof.
  unfold bracket_setup, evaluated.
  destruct (Qltb (Qabs (f x0)) tol) eqn:E0; [discriminate | ].
  destruct (Qltb (Qabs (f b0)) tol) eqn:E1; [discriminate | ].
  apply Qltb_ge in E0, E1.
  set (lft := if Qltb (f x0) (f b0) then _ else _).
  set (rgt := if Qltb (f x0) (f b0) then _ else _).
  assert (Hl : (value lft = f (guess lft) /\ tol <= Qabs (value lft)) /\
               In (guess lft) [x0; b0; b1]).
  { subst lft. destruct (Qltb (f x0) (f b0)); cbn [value guess In]; auto. }
  assert (Hr : (value rgt = f (guess rgt) /\ tol <= Qabs (value rgt)) /\
               In (guess rgt) [x0; b0; b1]).
  { subst rgt. destruct (Qltb (f x0) (f b0)); cbn [value guess In]; auto. }
  clearbody lft rgt.
  destruct (same_sign (value lft) (value rgt)).
  - destruct (Qltb (Qabs (f b1)) tol) eqn:E2; [discriminate | ].
    apply Qltb_ge in E2. cbn [value].
    destruct (same_sign (value lft) (f b1)); cbn [negb].
    + destruct (same_sign (f b1) (value rgt)); cbn [negb];
        [discriminate | ].
      intro H. injection H as <- <-. cbn [value guess In]. tauto.
    + intro H. injection H as <- <-. cbn [value guess In]. tauto.
  - intro H. injection H as <- <-. tauto.
Qed.

Lemma iterate_evaluated (f : Q -> Q) (tol : Q)
    (left right left' right' : hold_root_cand) :
  evaluated f tol left -> evaluated f tol right ->
  iterate f tol left right = Narrowed left' right' ->
  evaluated f tol left' /\ evaluated f tol right'.
Proof.
  intros Hl Hr. unfold iterate. cbn [value guess].
  destruct (Qltb _ tol) eqn:E; [discriminate | ].
  apply Qltb_ge in E.
  destruct (same_sign (value left) _); cbn [negb].
  - destruct (same_sign _ (value right)); cbn [negb]; [discriminate | ].
    intro H. injection H as <- <-. split; [ | exact Hr].
    split; [reflexivity | exact E].
  - intro H. injection H as <- <-. split; [exact Hl | ].
    split; [reflexivity | exact E].
Qed.

Lemma main_loop_silent (f : Q -> Q) (tol : Q) (n : nat) :
  forall (left right : hold_root_cand) (x : Q),
    main_loop f tol n left right = Returned x [] -> Qabs (f x) < tol.
Proof.
  induction n as [ | n IH]; intros left right x; cbn [main_loop].
  - discriminate.
  - destruct (iterate f tol left right) as [y | l' r' | y d] eqn:E.
    + intro H. injection H as <-.
      unfold iterate in E. cbn [value guess] in E.
      destruct (Qltb (Qabs (f (false_position left right))) tol) eqn:Et.
      * injection E as <-. apply Qltb_lt. exact Et.
      * destruct (same_sign (value left) _) in E; cbn [negb] in E;
          [ | discriminate E].
        destruct (same_sign _ (value right)) in E; discriminate E.
    + apply IH.
    + discriminate.
Qed.

(** A return without a diagnostic is a point where the objective is
    within the tolerance. *)
Theorem silent_return_is_within_tolerance (f : Q -> Q) (x0 : Q)
    (bracket : list pyval) (tol : Q) (max_iter : nat) (x : Q) :
  custom_root_finder f x0 bracket tol max_iter = Returned x [] ->
  Qabs (f x) < tol.
Proof.
  unfold custom_root_finder.
  destruct (cv.check_bracket bracket) as [e | [b0 b1]]; [discriminate | ].
  destruct (bracket_setup f x0 b0 b1 tol) as [r | [l r]] eqn:E.
  - intros ->. unfold bracket_setup in E.
    destruct (Qltb (Qabs (f x0)) tol) eqn:E0.
    { injection E as <-. apply Qltb_lt. exact E0. }
    destruct (Qltb (Qabs (f b0)) tol) eqn:E1.
    { injection E as <-. apply Qltb_lt. exact E1. }
    match type of E with
    | context [if same_sign ?u ?v then _ else _] =>
      destruct (same_sign u v)
    end; [ | discriminate].
    destruct (Qltb (Qabs (f b1)) tol) eqn:E2.
    { injection E as <-. apply Qltb_lt. exact E2. }
    cbn [value] in E.
    destruct (same_sign _ (f b1)) in E; cbn [negb] in E;
      [ | discriminate E].
    destruct (same_sign (f b1) _) in E; discriminate E.
  - apply main_loop_silent.
Qed.

Lemma silent_return_witness :
  Qabs (f_linear (false_position (mk_cand 0 (f_linear 0))
                                 (mk_cand 10 (f_linear 10)))) < 1e-3.
Proof.
  apply (silent_return_is_within_tolerance f_linear 1 [PyInt 0; PyInt 10]
           1e-3 50).
  vm_compute. reflexivity.
Defined.

Lemma main_loop_diagnostic (f : Q -> Q) (tol : Q) (n : nat) :
  forall (left right : hold_root_cand) (x : Q) (d : diagnostic)
         (ds : list diagnostic),
    evaluated f tol left -> evaluated f tol right ->
    main_loop f tol n left right = Returned x (d :: ds) ->
    ds = [] /\ d = NotMonotonic x (f x) /\ tol <= Qabs (f x).
Proof.
  induction n as [ | n IH]; intros left right x d ds Hl Hr;
    cbn [main_loop].
  - discriminate.
  - destruct (iterate f tol left right) as [y | l' r' | y d'] eqn:E.
    + discriminate.
    + destruct (iterate_evaluated _ _ _ _ _ _ Hl Hr E) as [Hl' Hr'].
      apply IH; assumption.
    + intro H. injection H as <- <- <-.
      unfold iterate in E. cbn [value guess] in E.
      set (nxt := mk_cand (false_position left right)
                          (f (false_position left right))) in E.
      destruct (Qltb (Qabs (f (false_position left right))) tol) eqn:Et;
        [discriminate E | ].
      apply Qltb_ge in Et.
      destruct (same_sign (value left) _) in E; cbn [negb] in E;
        [ | discriminate E].
      destruct (same_sign _ (value right)) in E; cbn [negb] in E;
        [ | discriminate E].
      injection E as <- <-.
      assert (Hn : evaluated f tol nxt) by (split; [reflexivity | exact Et]).
      destruct (closest_among left right nxt) as [-> | [-> | ->]];
        match goal with
        | H : evaluated f tol ?c |- context [guess ?c] =>
          destruct H as [Hv Ht]; rewrite Hv in *; auto
        end.
Qed.

(** A return with a diagnostic prints exactly one message, the message
    shows the returned point with the objective's value there, and that
    value misses the tolerance. *)
Theorem diagnostic_return_misses_tolerance (f : Q -> Q) (x0 : Q)
    (bracket : list pyval) (tol : Q) (max_iter : nat) (x : Q)
    (d : diagnostic) (ds : list diagnostic) :
  custom_root_finder f x0 bracket tol max_iter = Returned x (d :: ds) ->
  ds = [] /\
  (d = NoRootInRange x (f x) \/ d = NotMonotonic x (f x)) /\
  tol <= Qabs (f x).
Proof.
  unfold custom_root_finder.
  destruct (cv.check_bracket bracket) as [e | [b0 b1]]; [discriminate | ].
  destruct (bracket_setup f x0 b0 b1 tol) as [r | [l r]] eqn:E.
  - intros ->. unfold bracket_setup in E.
    destruct (Qltb (Qabs (f x0)) tol) eqn:E0; [discriminate E | ].
    destruct (Qltb (Qabs (f b0)) tol) eqn:E1; [discriminate E | ].
    apply Qltb_ge in E0, E1.
    set (lft := if Qltb (f x0) (f b0) then _ else _) in E.
    set (rgt := if Qltb (f x0) (f b0) then _ else _) in E.
    assert (Hl : evaluated f tol lft).
    { subst lft. destruct (Qltb (f x0) (f b0)); split; auto. }
    assert (Hr : evaluated f tol rgt).
    { subst rgt. destruct (Qltb (f x0) (f b0)); split; auto. }
    clearbody lft rgt.
    destruct (same_sign (value lft) (value rgt)); [ | discriminate E].
    destruct (Qltb (Qabs (f b1)) tol) eqn:E2; [discriminate E | ].
    apply Qltb_ge in E2. cbn [value] in E.
    set (nxt := mk_cand b1 (f b1)) in E.
    assert (Hn : evaluated f tol nxt) by (split; [reflexivity | exact E2]).
    destruct (same_sign (value lft) (f b1)) in E; cbn [negb] in E;
      [ | discriminate E].
    destruct (same_sign (f b1) (value rgt)) in E; cbn [negb] in E;
      [ | discriminate E].
    injection E as <- <- <-.
    split; [reflexivity | ].
    destruct (closest_among lft rgt nxt) as [-> | [-> | ->]];
      match goal with
      | H : evaluated f tol ?c |- context [guess ?c] =>
        destruct H as [Hv Ht]; rewrite Hv in *; auto
      end.
  - intro H.
    destruct (bracket_setup_evaluated _ _ _ _ _ _ _ E) as (Hl & Hr & _).
    destruct (main_loop_diagnostic _ _ _ _ _ _ _ _ Hl Hr H)
      as (H1 & H2 & H3).
    auto.
Qed.

Lemma diagnostic_return_witness :
  [] = @nil diagnostic /\
  (NoRootInRange 10 5 = NoRootInRange 10 (f_linear 10) \/
   NoRootInRange 10 5 = NotMonotonic 10 (f_linear 10)) /\
  1e-3 <= Qabs (f_linear 10).
Proof.
  apply (diagnostic_return_misses_tolerance f_linear 12
           [PyInt 10; PyInt 20] 1e-3 50 10 (NoRootInRange 10 5) []).
  vm_compute. reflexivity.
Defined.

(** Every pair the main iteration works on has residuals of strictly
    opposite sign, each the objective's value at its guess, so the
    divisor of the interpolation is positive: the loop never divides by
    zero. *)
Theorem main_iteration_keeps_sign_change (f : Q -> Q) (x0 b0 b1 tol : Q)
    (l0 r0 l r : hold_root_cand) :
  bracket_setup f x0 b0 b1 tol = inr (l0, r0) ->
  narrows_to f tol l0 r0 l r ->
  same_sign (value l) (value r) = false /\
  0 < Qabs (value l) + Qabs (value r) /\
  evaluated f tol l /\ evaluated f tol r.
Proof.
  intros Hs Hn.
  assert (H : same_sign (value l) (value r) = false /\
              evaluated f tol l /\ evaluated f tol r).
  { induction Hn as [ | l r l' r' _ IH Hit].
    - split; [exact (bracket_setup_opposite _ _ _ _ _ _ _ Hs) | ].
      destruct (bracket_setup_evaluated _ _ _ _ _ _ _ Hs) as (A & B & _).
      split; assumption.
    - destruct IH as (_ & A & B).
      split; [exact (iterate_opposite _ _ _ _ _ _ Hit) | ].
      exact (iterate_evaluated _ _ _ _ _ _ A B Hit). }
  destruct H as (A & B & C).
  split; [exact A | ].
  split; [apply opposite_divisor_positive; exact A | ].
  split; assumption.
Qed.

Lemma main_iteration_keeps_sign_change_witness :
  let g := false_position (mk_cand 0 (f_square 0))
                          (mk_cand 2 (f_square 2)) in
  same_sign (value (mk_cand g (f_square g)))
            (value (mk_cand 2 (f_square 2))) = false /\
  0 < Qabs (value (mk_cand g (f_square g)))
      + Qabs (value (mk_cand 2 (f_square 2))) /\
  evaluated f_square 1e-3 (mk_cand g (f_square g)) /\
  evaluated f_square 1e-3 (mk_cand 2 (f_square 2)).
Proof.
  intro g.
  apply (main_iteration_keeps_sign_change f_square 1 0 2 1e-3
           (mk_cand 0 (f_square 0)) (mk_cand 2 (f_square 2))).
  - vm_compute. reflexivity.
  - eapply narrows_step; [apply narrows_refl | ].
    vm_compute. reflexivity.
Defined.

End RootFinder.

(** ** The controller *)

Section Controller.

Import CoupledOperator.

Lemma np_div_some (a b : Q) : ~ b == 0 -> np_div a b = Some (a / b).
Proof.
  intro H. unfold np_div.
  destruct (Qeq_bool b 0) eqn:E; [ | reflexivity].
  apply Qeq_bool_iff in E. contradiction.
Qed.

Lemma np_div_inv (a b c : Q) :
  np_div a b = Some c -> ~ b == 0 /\ c = a / b.
Proof.
  unfold np_div. destruct (Qeq_bool b 0) eqn:E; [discriminate | ].
  intro H. injection H as <-. split; [ | reflexivity].
  intro Hb. apply Qeq_bool_iff in Hb. congruence.
Qed.

Lemma clamp_nonpositive (c : Q) : c <= 0 -> clamp c = 0.5.
Proof.
  intro H. unfold clamp. apply Qle_bool_iff in H. rewrite H. reflexivity.
Qed.

Lemma clamp_positive (c : Q) : 0 < c -> clamp c = c.
Proof.
  intro H. unfold clamp. destruct (Qle_bool c 0) eqn:E; [ | reflexivity].
  apply Qle_bool_iff in E. lra.
Qed.

Lemma clamp_is_positive (c : Q) : 0 < clamp c.
Proof.
  unfold clamp. destruct (Qle_bool c 0) eqn:E.
  - reflexivity.
  - destruct (Qlt_le_dec 0 c) as [H | H]; [exact H | ].
    apply Qle_bool_iff in H. congruence.
Qed.

(** The pieces an inactive batch that stays finite has computed. *)
Lemma inactive_batch_inv (target sp : Q) (M : nat) (loc loc' : locals)
    (o : batch_obs) :
  inactive_batch target sp M loc o = Some loc' ->
  exists c pm xp g',
    corr target (tally_deltas M loc o) = Some c /\
    p_measure target sp (keff o) = Some pm /\
    fuse M (x loc) (p loc) pm (f_prev loc * clamp c) = Some xp /\
    np_div (fst xp) (f_prev loc) = Some g' /\
    loc' = mk_locals (fst xp) g' (fst xp) (tally0 o) (tally1 o)
                     (glob_leak o * inject_Z (Z.of_nat M))
                     (fst xp) (snd xp).
Proof.
  unfold inactive_batch.
  destruct (corr target (tally_deltas M loc o)) as [c | ] eqn:Ec;
    [ | discriminate].
  destruct (p_measure target sp (keff o)) as [pm | ] eqn:Epm;
    [ | discriminate].
  destruct (fuse M (x loc) (p loc) pm (f_prev loc * clamp c))
    as [xp | ] eqn:Ef; [ | discriminate].
  destruct (np_div (fst xp) (f_prev loc)) as [g' | ] eqn:Eg;
    [ | discriminate].
  intro H. injection H as <-.
  exists c, pm, xp, g'. repeat split; first [reflexivity | assumption].
Qed.

(** C7.  In every inactive batch that stays finite, the instantaneous
    correction is [((P_prompt/target + P_delayed + P_nxn) * (1 - L_leak) -
    (L_abs - L_abs_nuc)) / L_abs_nuc] on that batch's tally increments,
    and the factor that enters the observation [z = f_prev * g] is exactly
    0.5 whenever the correction is at most zero (and the correction itself
    otherwise). *)
Theorem C7_correction_and_clamp (target sp : Q) (M : nat)
    (loc loc' : locals) (o : batch_obs) :
  inactive_batch target sp M loc o = Some loc' ->
  let b := tally_deltas M loc o in
  exists c g0 pm,
    corr target b = Some c /\
    c = ((P_fiss_prompt b / target + P_fiss_delayed b + P_nxn b)
         * (1 - L_leak b) - (L_abs b - L_abs_nucs b)) / L_abs_nucs b /\
    (c <= 0 -> g0 = 0.5) /\
    (0 < c -> g0 = c) /\
    p_measure target sp (keff o) = Some pm /\
    fuse M (x loc) (p loc) pm (f_prev loc * g0) = Some (x loc', p loc').
Proof.
  intros H b.
  apply inactive_batch_inv in H.
  destruct H as (c & pm & xp & g' & Hc & Hpm & Hf & _ & ->).
  exists c, (clamp c), pm.
  split; [exact Hc | ].
  split.
  - fold b in Hc. unfold corr in Hc.
    destruct (np_div (P_fiss_prompt b) target) as [prompt | ] eqn:E;
      [ | discriminate].
    apply np_div_inv in E. destruct E as [_ ->].
    apply np_div_inv in Hc. destruct Hc as [_ ->]. reflexivity.
  - split; [apply clamp_nonpositive | ].
    split; [apply clamp_positive | ].
    split; [exact Hpm | ].
    cbn [x p]. rewrite Hf. destruct xp; reflexivity.
Qed.

Lemma C7_witness :
  let b := tally_deltas 1 initial_locals Scripted.obs1 in
  exists c g0 pm,
    corr 1 b = Some c /\
    c = ((P_fiss_prompt b / 1 + P_fiss_delayed b + P_nxn b)
         * (1 - L_leak b) - (L_abs b - L_abs_nucs b)) / L_abs_nucs b /\
    (c <= 0 -> g0 = 0.5) /\
    (0 < c -> g0 = c) /\
    p_measure 1 10 (keff Scripted.obs1) = Some pm /\
    fuse 1 (x initial_locals) (p initial_locals) pm
         (f_prev initial_locals * g0)
      = Some (x Scripted.loc1, p Scripted.loc1).
Proof.
  apply (C7_correction_and_clamp 1 10 1 initial_locals Scripted.loc1
           Scripted.obs1).
  vm_compute. reflexivity.
Defined.

(** *** The fusion of lines 544-551 *)

Lemma Qinv_pos (a : Q) : 0 < a -> 0 < 1 / a.
Proof.
  intro H. unfold Qdiv. rewrite Qmult_1_l.
  apply Qinv_lt_0_compat. exact H.
Qed.

Lemma fused_precision_bounds (p pm : Q) :
  0 < p -> 0 < pm ->
  0 < 1 / (1 / p + 1 / pm) /\
  1 / (1 / p + 1 / pm) <= p /\
  1 / (1 / p + 1 / pm) <= pm.
Proof.
  intros Hp Hpm.
  assert (H1 := Qinv_pos p Hp). assert (H2 := Qinv_pos pm Hpm).
  assert (E1 : p * (1 / p) == 1) by (field; lra).
  assert (E2 : pm * (1 / pm) == 1) by (field; lra).
  assert (P1 : 0 < p * (1 / pm)) by (apply Qmult_lt_0_compat; assumption).
  assert (P2 : 0 < pm * (1 / p)) by (apply Qmult_lt_0_compat; assumption).
  split; [apply Qinv_pos; lra | ].
  split; (apply Qle_shift_div_r; [lra | lra]).
Qed.

(** The first batch: the estimate becomes the observation. *)
Lemma fuse_first (x p pm z : Q) :
  ~ pm == 0 ->
  exists x', fuse 1 x p pm z = Some (x', pm) /\ x' == z.
Proof.
  intro H. unfold fuse. cbn [Nat.eqb].
  rewrite (np_div_some pm pm H).
  eexists. split; [reflexivity | ]. field. exact H.
Qed.

(** A later batch with positive weights. *)
Lemma fuse_later (M : nat) (x p pm z : Q) :
  M <> 1%nat -> 0 < p -> 0 < pm ->
  fuse M x p pm z
  = Some (x + (1 / (1 / p + 1 / pm) / p) * (z - x), 1 / (1 / p + 1 / pm)).
Proof.
  intros HM Hp Hpm. unfold fuse.
  apply Nat.eqb_neq in HM. rewrite HM.
  assert (H1 := Qinv_pos p Hp). assert (H2 := Qinv_pos pm Hpm).
  rewrite (np_div_some 1 p) by lra.
  rewrite (np_div_some 1 pm) by lra.
  rewrite (np_div_some 1 (1 / p + 1 / pm)) by lra.
  rewrite (np_div_some _ p) by lra.
  reflexivity.
Qed.

Lemma fuse_inv (M : nat) (x p pm z x' p' : Q) :
  fuse M x p pm z = Some (x', p') ->
  (M = 1%nat -> p' = pm /\ x' == z) /\
  (M <> 1%nat ->
   p' = 1 / (1 / p + 1 / pm) /\ x' = x + (p' / p) * (z - x)).
Proof.
  unfold fuse. destruct (Nat.eqb M 1) eqn:EM.
  - apply Nat.eqb_eq in EM.
    destruct (np_div pm pm) as [w | ] eqn:Ew; [ | discriminate].
    apply np_div_inv in Ew. destruct Ew as [Hpm ->].
    intro H. injection H as <- <-.
    split; [ | intro; contradiction].
    intros _. split; [reflexivity | field; exact Hpm].
  - apply Nat.eqb_neq in EM.
    destruct (np_div 1 p) as [ip | ] eqn:E1; [ | discriminate].
    destruct (np_div 1 pm) as [ipm | ] eqn:E2; [ | discriminate].
    destruct (np_div 1 (ip + ipm)) as [p_n | ] eqn:E3; [ | discriminate].
    destruct (np_div p_n p) as [w | ] eqn:E4; [ | discriminate].
    apply np_div_inv in E1, E2, E3, E4.
    destruct E1 as [_ ->], E2 as [_ ->], E3 as [_ ->], E4 as [_ ->].
    intro H. injection H as <- <-.
    split; [intro; contradiction | ].
    intros _. split; reflexivity.
Qed.

(** C5.  In every batch after the first with positive running weight [p]
    and positive measurement weight [pm], the fusion succeeds and the new
    weight is [1 / (1/p + 1/pm)], which is at most [min p pm]. *)
Theorem C5_fused_precision_below_both (M : nat) (x p pm z : Q) :
  M <> 1%nat -> 0 < p -> 0 < pm ->
  exists x' p_n,
    fuse M x p pm z = Some (x', p_n) /\
    p_n = 1 / (1 / p + 1 / pm) /\
    p_n <= Qmin p pm.
Proof.
  intros HM Hp Hpm.
  exists (x + (1 / (1 / p + 1 / pm) / p) * (z - x)), (1 / (1 / p + 1 / pm)).
  split; [apply fuse_later; assumption | ].
  split; [reflexivity | ].
  destruct (fused_precision_bounds p pm Hp Hpm) as (_ & H1 & H2).
  apply Q.min_glb; assumption.
Qed.

Lemma C5_witness :
  exists x' p_n,
    fuse 2 (x Scripted.loc1) 0.04 0.16 5 = Some (x', p_n) /\
    p_n = 1 / (1 / 0.04 + 1 / 0.16) /\
    p_n <= Qmin 0.04 0.16.
Proof.
  apply (C5_fused_precision_below_both 2 (x Scripted.loc1) 0.04 0.16 5).
  - discriminate.
  - reflexivity.
  - reflexivity.
Defined.

(** The two gains in play.  With [p_n = 1 / (1/p + 1/pm)], the gain of
    inverse-variance fusion of an observation of variance [pm] into an
    estimate of variance [p] is [p_n / pm]; the gain [p_n / p] that line
    550 takes is its complement [1 - p_n / pm = pm / (p + pm)], which
    grows with the variance of the observation. *)
Lemma fusion_gains_are_complementary (p pm : Q) :
  0 < p -> 0 < pm ->
  let p_n := 1 / (1 / p + 1 / pm) in
  p_n / p == pm / (p + pm) /\
  p_n / pm == p / (p + pm) /\
  p_n / p == 1 - p_n / pm.
Proof.
  intros Hp Hpm p_n. subst p_n.
  repeat split; field; repeat split; lra.
Qed.

(** C1.  The code at the second inactive batch of the scripted run,
    where the running weight is [p = 0.04] and the measurement weight
    [p_measure = 0.16]: the new weight is [1 / (1/p + 1/p_measure) =
    0.032] as the claim has it, but line 550 moves the estimate by the
    gain [p_n / p = 0.8] where the inverse-variance recursion of the
    claim has [p_n / p_measure = 0.2], so the estimate the code reaches
    is not the one of the claim. *)
Theorem C1_second_batch_takes_complementary_gain :
  exists c pm z,
    inactive_batch 1 10 1 initial_locals Scripted.obs1
      = Some Scripted.loc1 /\
    inactive_batch 1 10 2 Scripted.loc1 Scripted.obs2
      = Some Scripted.loc2 /\
    corr 1 (tally_deltas 2 Scripted.loc1 Scripted.obs2) = Some c /\
    p_measure 1 10 (keff Scripted.obs2) = Some pm /\
    z = f_prev Scripted.loc1 * clamp c /\
    p Scripted.loc1 == 0.04 /\
    pm == 0.16 /\
    p Scripted.loc2 == 1 / (1 / p Scripted.loc1 + 1 / pm) /\
    p Scripted.loc2 == 0.032 /\
    p Scripted.loc2 / p Scripted.loc1 == 0.8 /\
    p Scripted.loc2 / pm == 0.2 /\
    x Scripted.loc2
    == x Scripted.loc1 + 0.8 * (z - x Scripted.loc1) /\
    fst (fuse_spec 2 (x Scripted.loc1) (p Scripted.loc1) pm z)
    == x Scripted.loc1 + 0.2 * (z - x Scripted.loc1) /\
    ~ x Scripted.loc2
      == fst (fuse_spec 2 (x Scripted.loc1) (p Scripted.loc1) pm z).
Proof.
  eexists. eexists. eexists.
  split; [vm_compute; reflexivity | ].
  split; [vm_compute; reflexivity | ].
  split; [vm_compute; reflexivity | ].
  split; [vm_compute; reflexivity | ].
  split; [reflexivity | ].
  do 8 (split; [vm_compute; reflexivity | ]).
  intro H; vm_compute in H; discriminate H.
Qed.

(** *** The density update of lines 606-623 *)

Lemma rescaled_entry_In (iso : list string) (g : Q) (m : material)
    (n nuc : string) (d : Q) :
  In (nuc, d) (rescaled_entry iso g m n) <->
  n = nuc /\ 1e-36 < first_density m nuc /\
  d = (if in_iso iso nuc then first_density m nuc * g
       else first_density m nuc).
Proof.
  unfold rescaled_entry.
  destruct (Qltb 1e-36 (first_density m n)) eqn:E.
  - apply Qltb_lt in E. cbn [In]. split.
    + intros [H | []]. injection H as <- <-. repeat split. exact E.
    + intros (-> & _ & ->). left. reflexivity.
  - apply Qltb_ge in E. cbn [In]. split; [intros [] | ].
    intros (-> & H & _). lra.
Qed.

(** After an inactive batch the library holds the rescaled densities of
    every material, with the factor [g] of that batch. *)
Lemma inactive_batch_rescales (target sp : Q) (iso : list string)
    (batches : Z) (M : nat) (o : batch_obs) (loc loc' : locals)
    (self self' : operator) :
  (Z.of_nat M < batches)%Z ->
  iter_batches target sp iso batches M [o] loc self = Some (loc', self') ->
  inactive_batch target sp M loc o = Some loc' /\
  materials self' = update_densities iso (g loc') (materials self).
Proof.
  intros HM. cbn [iter_batches].
  apply Z.ltb_lt in HM. rewrite HM.
  destruct (inactive_batch target sp M loc o) as [l | ]; [ | discriminate].
  cbn [fst snd].
  intro H. injection H as <- <-.
  split; [reflexivity | ].
  destruct (Z.eqb (Z.of_nat M) batches); reflexivity.
Qed.

(** C8.  The lists written back to a material hold exactly the nuclides
    whose current density exceeds [1e-36]; a tracked one carries its
    density times [g], any other its density unchanged; every material of
    the library is rewritten this way, under its own id.  On a material
    with a tracked nuclide at [2e-36], an untracked one at [5e-37], one
    at the floor itself and [g = 1.1], the result keeps the first at
    [2.2e-36] and drops the other two.  In the scripted run the library
    ends with the densities rescaled by the factors of the two inactive
    batches, the xenon trace gone. *)
Theorem C8_density_update_threshold :
  (forall (iso : list string) (g : Q) (m : material) (nuc : string) (d : Q),
     In (nuc, d) (rescale iso g m) <->
     In nuc (map fst m) /\ 1e-36 < first_density m nuc /\
     d = (if in_iso iso nuc then first_density m nuc * g
          else first_density m nuc)) /\
  (forall (iso : list string) (g : Q) (ms : lib_materials),
     map fst (update_densities iso g ms) = map fst ms /\
     map snd (update_densities iso g ms)
     = map (rescale iso g) (map snd ms)) /\
  rescale ["B10"%string] 1.1
          [("B10"%string, 2e-36); ("Xe135"%string, 5e-37);
           ("H1"%string, 0.06); ("B11"%string, 1e-36)]
  = [("B10"%string, 2e-36 * 1.1); ("H1"%string, 0.06)] /\
  2e-36 * 1.1 == 2.2e-36 /\
  (exists r self',
     search_crit_conc Scripted.sim Scripted.self0 [] 1
                      (Some Scripted.boron) (Some (PyInt 3)) None
                      (Some (PyFloat 0.001)) 1
       = Return r self' /\
     materials self'
     = update_densities Scripted.boron (g Scripted.loc2)
         (update_densities Scripted.boron (g Scripted.loc1)
            [(1%Z, Scripted.water)]) /\
     map (fun im => map fst (snd im)) (materials self')
     = [["B10"%string; "B11"%string; "H1"%string]]).
Proof.
  split; [ | split; [ | split; [ | split]]].
  - intros iso g m nuc d. unfold rescale.
    rewrite in_flat_map. split.
    + intros (n & Hn & H). apply rescaled_entry_In in H.
      destruct H as (-> & H1 & H2). repeat split; assumption.
    + intros (Hn & H1 & H2). exists nuc. split; [exact Hn | ].
      apply rescaled_entry_In. repeat split; assumption.
  - intros iso g ms. unfold update_densities.
    rewrite !map_map. cbn [fst snd]. split; reflexivity.
  - vm_compute. reflexivity.
  - vm_compute. reflexivity.
  - eexists. eexists.
    split; [vm_compute; reflexivity | ].
    split; vm_compute; reflexivity.
Qed.

(** *** Argument checks and the zero source rate *)

(** C3.  With accepted arguments and a zero source rate the call returns
    at once: the eigenvalue is 0 with uncertainty 0, the rates are a
    zero-filled copy of [self.reaction_rates], and the operator handed
    back is the one received, so no collaborator was called and no
    density changed. *)
Theorem C3_zero_source_rate_short_circuit (sim : transport)
    (self : operator) (vec : list (list Q)) (source_rate : Q)
    (iso : option (list string)) (batches : option pyval)
    (bracket : option (list pyval)) (initial_value : option pyval)
    (target : Q) :
  check_arguments iso batches bracket initial_value = None ->
  source_rate == 0 ->
  exists r,
    search_crit_conc sim self vec source_rate iso batches bracket
                     initial_value target
      = Return r self /\
    k r = (0, 0) /\
    Forall (fun v => v = 0) (rates r) /\
    List.length (rates r) = List.length (reaction_rates self).
Proof.
  intros Hargs Hs. unfold search_crit_conc. rewrite Hargs.
  apply Qeq_bool_iff in Hs. rewrite Hs.
  eexists. split; [reflexivity | ]. cbn [k rates].
  split; [reflexivity | ].
  split; [ | apply length_map].
  apply Forall_forall. intros v Hv.
  apply in_map_iff in Hv. destruct Hv as (_ & <- & _). reflexivity.
Qed.

Lemma C3_witness :
  exists r,
    search_crit_conc Scripted.sim Scripted.self0 [] 0
                     (Some Scripted.boron) (Some (PyInt 3)) None
                     (Some (PyFloat 0.001)) 1
      = Return r Scripted.self0 /\
    k r = (0, 0) /\
    Forall (fun v => v = 0) (rates r) /\
    List.length (rates r) = List.length (reaction_rates Scripted.self0).
Proof.
  apply (C3_zero_source_rate_short_circuit Scripted.sim Scripted.self0 [] 0
           (Some Scripted.boron) (Some (PyInt 3)) None
           (Some (PyFloat 0.001)) 1).
  - reflexivity.
  - reflexivity.
Defined.

(** C2, as the code has it.  A call with [iso], [initial_value] or
    [batches] missing, with an [initial_value] that is not a real number,
    with [batches] that is not integral, or with a two-element real
    bracket whose lower bound is not below its upper bound, raises; the
    operator is untouched at that moment, so nothing was simulated and no
    density changed. *)
Theorem C2_rejected_arguments_raise (sim : transport) (self : operator)
    (vec : list (list Q)) (source_rate : Q) (iso : option (list string))
    (batches : option pyval) (bracket : option (list pyval))
    (initial_value : option pyval) (target : Q) :
  iso = None \/ initial_value = None \/ batches = None \/
  (exists v, initial_value = Some v /\ is_Real v = false) \/
  (exists n, batches = Some n /\ is_Integral n = false) \/
  (exists lo hi, bracket = Some [lo; hi] /\ is_Real lo = true /\
                 is_Real hi = true /\ to_Q hi <= to_Q lo) ->
  exists e,
    search_crit_conc sim self vec source_rate iso batches bracket
                     initial_value target
      = Raise e self.
Proof.
  intro H. unfold search_crit_conc.
  destruct (check_arguments iso batches bracket initial_value)
    as [e | ] eqn:E; [exists e; reflexivity | ].
  exfalso. unfold check_arguments, cv.check_type in E.
  destruct iso as [i | ]; [ | discriminate].
  destruct initial_value as [v | ]; [ | discriminate].
  destruct (is_Real v) eqn:Ev; [ | discriminate].
  destruct batches as [n | ]; [ | discriminate].
  destruct (is_Integral n) eqn:En; [ | discriminate].
  destruct H as [H | [H | [H | [(v' & H & Hv) | [(n' & H & Hn) | H]]]]];
    try discriminate H.
  - injection H as <-. congruence.
  - injection H as <-. congruence.
  - destruct H as (lo & hi & -> & Hlo & Hhi & Hle).
    unfold cv.check_bracket, cv.check_iterable_type, cv.check_length,
      cv.check_less_than in E.
    cbn [forallb List.length Nat.eqb] in E. rewrite Hlo, Hhi in E.
    cbn [andb] in E.
    apply Qltb_ge in Hle. rewrite Hle in E. discriminate E.
Qed.

Lemma C2_witness :
  exists e,
    search_crit_conc Scripted.sim Scripted.self0 [] 1
                     (Some Scripted.boron) (Some (PyInt 3))
                     (Some [PyFloat 0.002; PyFloat 0.001])
                     (Some (PyFloat 0.001)) 1
      = Raise e Scripted.self0.
Proof.
  apply (C2_rejected_arguments_raise Scripted.sim Scripted.self0 [] 1
           (Some Scripted.boron) (Some (PyInt 3))
           (Some [PyFloat 0.002; PyFloat 0.001])
           (Some (PyFloat 0.001)) 1).
  right. right. right. right. right.
  exists (PyFloat 0.002), (PyFloat 0.001).
  repeat split; try reflexivity. vm_compute. discriminate.
Defined.

(** C2 as worded fails: an empty [iso] list and a negative
    [initial_value] both pass the checks, the transport run takes place
    and the call returns; with the negative value the boron densities
    have been rewritten as well. *)
Lemma C2_counterexample :
  (exists r self',
     search_crit_conc Scripted.sim Scripted.self0 [] 1 (Some [])
                      (Some (PyInt 3)) None (Some (PyFloat 0.001)) 1
       = Return r self' /\
     In simulation_init (trace self') /\
     In (next_batch 1) (trace self')) /\
  (exists r self',
     search_crit_conc Scripted.sim Scripted.self0 [] 1
                      (Some Scripted.boron) (Some (PyInt 3)) None
                      (Some (PyFloat (-1))) 1
       = Return r self' /\
     In simulation_init (trace self') /\
     In (set_densities 1) (trace self') /\
     ~ first_density (snd (nth 0 (materials self') (0%Z, []))) "B10"
       == first_density Scripted.water "B10").
Proof.
  split.
  - eexists. eexists.
    split; [vm_compute; reflexivity | ].
    split; cbn [trace In]; tauto.
  - eexists. eexists.
    split; [vm_compute; reflexivity | ].
    split; [cbn [trace In]; tauto | ].
    split; [cbn [trace In]; tauto | ].
    intro H. vm_compute in H. discriminate H.
Qed.

(** *** Positivity of the reference density *)

Lemma p_measure_positive (target sp : Q) (kk : Q * Q) :
  0 < target -> 0 < sp ->
  exists pm, p_measure target sp kk = Some pm /\ 0 < pm.
Proof.
  intros Ht Hs. unfold p_measure.
  rewrite (np_div_some _ target) by lra.
  rewrite (np_div_some 1 sp) by lra.
  eexists. split; [reflexivity | ].
  assert (H1 : 0 <= Qabs (fst kk - target) / target).
  { apply Qle_shift_div_l; [exact Ht | ].
    assert (H := Qabs_nonneg (fst kk - target)). lra. }
  assert (H2 := Qinv_pos sp Hs).
  change ((?a + ?b) ^ 2) with ((a + b) * (a + b)).
  apply Qmult_lt_0_compat; lra.
Qed.

(** The gain of a later batch lies strictly between 0 and 1, so the new
    estimate is a proper mean of the old one and the observation. *)
Lemma fused_estimate_positive (x p pm z : Q) :
  0 < x -> 0 < z -> 0 < p -> 0 < pm ->
  0 < x + (1 / (1 / p + 1 / pm) / p) * (z - x).
Proof.
  intros Hx Hz Hp Hpm.
  destruct (fused_precision_bounds p pm Hp Hpm) as (Hn & Hle & _).
  set (p_n := 1 / (1 / p + 1 / pm)) in *.
  assert (Hw0 : 0 < p_n / p) by (apply Qlt_shift_div_l; lra).
  assert (Hw1 : p_n / p <= 1) by (apply Qle_shift_div_r; lra).
  set (w := p_n / p) in *.
  assert (E : x + w * (z - x) == (1 - w) * x + w * z) by ring.
  assert (A : 0 <= (1 - w) * x) by (apply Qmult_le_0_compat; lra).
  assert (B : 0 < w * z) by (apply Qmult_lt_0_compat; lra).
  lra.
Qed.

(** One inactive batch keeps the estimate positive. *)
Lemma inactive_batch_positive (target sp : Q) (M : nat) (loc : locals)
    (o : batch_obs) :
  0 < target -> 0 < sp -> 0 < f_prev loc ->
  (M <> 1%nat -> 0 < x loc /\ 0 < p loc) ->
  ~ L_abs_nucs (tally_deltas M loc o) == 0 ->
  exists loc',
    inactive_batch target sp M loc o = Some loc' /\
    0 < f loc' /\ 0 < f_prev loc' /\ 0 < x loc' /\ 0 < p loc' /\
    prev_res1 loc' = tally1 o.
Proof.
  intros Ht Hs Hf Hxp Hn. unfold inactive_batch, corr.
  rewrite (np_div_some _ target) by lra.
  rewrite (np_div_some _ _ Hn).
  set (c := _ / L_abs_nucs _).
  destruct (p_measure_positive target sp (keff o) Ht Hs) as (pm & -> & Hpm).
  assert (Hz : 0 < f_prev loc * clamp c)
    by (apply Qmult_lt_0_compat; [exact Hf | apply clamp_is_positive]).
  destruct (Nat.eq_dec M 1) as [-> | HM].
  - destruct (fuse_first (x loc) (p loc) pm (f_prev loc * clamp c))
      as (x' & -> & Hx'); [lra | ].
    cbn [fst snd]. rewrite (np_div_some x' (f_prev loc)) by lra.
    eexists. split; [reflexivity | ]. cbn [f f_prev x p prev_res1].
    repeat split; lra.
  - destruct (Hxp HM) as [Hx Hp].
    rewrite (fuse_later M _ _ _ _ HM Hp Hpm). cbn [fst snd].
    assert (Hx' := fused_estimate_positive _ _ _ _ Hx Hz Hp Hpm).
    destruct (fused_precision_bounds _ _ Hp Hpm) as (Hpn & _).
    rewrite (np_div_some _ (f_prev loc)) by lra.
    eexists. split; [reflexivity | ]. cbn [f f_prev x p prev_res1].
    repeat split; assumption.
Qed.

Lemma L_abs_nucs_unfold (M : nat) (loc : locals) (o : batch_obs) :
  L_abs_nucs (tally_deltas M loc o)
  = np_sum (arr_sub (tally1 o)
                    (if Nat.eqb M 1 then arr_sub (tally1 o) (tally1 o)
                     else prev_res1 loc)).
Proof.
  unfold tally_deltas, prev_res_at. cbn [L_abs_nucs].
  destruct (Nat.eqb M 1); reflexivity.
Qed.

(** The whole batch loop keeps [f] positive and leaves the attributes of
    the operator alone. *)
Lemma iter_batches_positive (target sp : Q) (iso : list string)
    (batches : Z) (obs : list batch_obs) :
  0 < target -> 0 < sp ->
  forall (M : nat) (loc : locals) (self : operator),
    0 < f loc -> 0 < f_prev loc ->
    (M <> 1%nat -> (Z.of_nat M < batches)%Z -> 0 < x loc /\ 0 < p loc) ->
    Forall (fun d => ~ d == 0)
           (firstn (Z.to_nat (batches - Z.of_nat M))
                   (absorption_deltas M (prev_res1 loc) obs)) ->
    exists loc' self',
      iter_batches target sp iso batches M obs loc self
        = Some (loc', self') /\
      0 < f loc' /\
      initial_value self' = initial_value self /\
      concs self' = concs self.
Proof.
  intros Ht Hs. induction obs as [ | o rest IH];
    intros M loc self Hf Hfp Hxp Habs.
  - exists loc, self. cbn [iter_batches]. repeat split; assumption.
  - cbn [iter_batches].
    destruct (Z.ltb (Z.of_nat M) batches) eqn:EM.
    + apply Z.ltb_lt in EM.
      replace (Z.to_nat (batches - Z.of_nat M))
        with (S (Z.to_nat (batches - Z.of_nat (S M)))) in Habs by lia.
      cbn [absorption_deltas firstn] in Habs.
      apply Forall_cons_iff in Habs. destruct Habs as [Hd Habs].
      rewrite <- L_abs_nucs_unfold in Hd.
      destruct (inactive_batch_positive target sp M loc o Ht Hs Hfp
                  (fun HM => Hxp HM EM) Hd)
        as (loc' & -> & Hf' & Hfp' & Hx' & Hp' & Hprev).
      cbn [fst snd]. rewrite <- Hprev in Habs.
      match goal with
      | |- context [iter_batches _ _ _ _ _ _ _ ?s] =>
        destruct (IH (S M) loc' s Hf' Hfp' (fun _ _ => conj Hx' Hp') Habs)
          as (loc'' & self'' & -> & Hf'' & Hi & Hc)
      end.
      exists loc'', self''. split; [reflexivity | ].
      split; [exact Hf'' | ].
      rewrite Hi, Hc.
      destruct (Z.eqb (Z.of_nat M) batches); split; reflexivity.
    + apply Z.ltb_ge in EM. cbn [fst snd].
      replace (Z.to_nat (batches - Z.of_nat M)) with 0%nat in Habs by lia.
      match goal with
      | |- context [iter_batches _ _ _ _ _ _ _ ?s] =>
        destruct (IH (S M) loc s Hf Hfp) as
          (loc'' & self'' & -> & Hf'' & Hi & Hc)
      end.
      * intros _ HM. lia.
      * replace (Z.to_nat (batches - Z.of_nat (S M))) with 0%nat by lia.
        constructor.
      * exists loc'', self''. split; [reflexivity | ].
        split; [exact Hf'' | ].
        rewrite Hi, Hc.
        destruct (Z.eqb (Z.of_nat M) batches); split; reflexivity.
Qed.

(** Finite runs need no assumption on the target or the particle count:
    a measurement weight is a square, and the divisions that succeeded
    show it is not zero. *)
Lemma p_measure_nonneg (target sp : Q) (kk : Q * Q) (pm : Q) :
  p_measure target sp kk = Some pm -> 0 <= pm.
Proof.
  unfold p_measure.
  destruct (np_div (Qabs (fst kk - target)) target) as [dev | ];
    [ | discriminate].
  destruct (np_div 1 sp) as [noise | ]; [ | discriminate].
  intro H. injection H as <-.
  change ((?a + ?b) ^ 2) with ((a + b) * (a + b)).
  destruct (Qlt_le_dec (dev + noise) 0) as [Hneg | Hpos].
  - assert (E : (dev + noise) * (dev + noise)
                == (- (dev + noise)) * (- (dev + noise))) by ring.
    rewrite E. apply Qmult_le_0_compat; lra.
  - apply Qmult_le_0_compat; assumption.
Qed.

Lemma fuse_some_weight_nonzero (M : nat) (x p pm z : Q) (xp : Q * Q) :
  fuse M x p pm z = Some xp -> ~ pm == 0.
Proof.
  unfold fuse. destruct (Nat.eqb M 1).
  - destruct (np_div pm pm) as [w | ] eqn:E; [ | discriminate].
    intros _. apply np_div_inv in E. tauto.
  - destruct (np_div 1 p) as [ip | ]; [ | discriminate].
    destruct (np_div 1 pm) as [ipm | ] eqn:E; [ | discriminate].
    intros _. apply np_div_inv in E. tauto.
Qed.

Lemma inactive_batch_finite_positive (target sp : Q) (M : nat)
    (loc loc' : locals) (o : batch_obs) :
  inactive_batch target sp M loc o = Some loc' ->
  0 < f_prev loc ->
  (M <> 1%nat -> 0 < x loc /\ 0 < p loc) ->
  0 < f loc' /\ 0 < f_prev loc' /\ 0 < x loc' /\ 0 < p loc'.
Proof.
  intros H Hf Hxp. apply inactive_batch_inv in H.
  destruct H as (c & pm & [x' p'] & g' & _ & Hpm & Hfuse & _ & ->).
  cbn [f f_prev x p fst snd].
  assert (Hpos : 0 < pm).
  { apply p_measure_nonneg in Hpm.
    apply fuse_some_weight_nonzero in Hfuse.
    destruct (Qlt_le_dec 0 pm) as [Hlt | Hle]; [exact Hlt | ].
    exfalso. apply Hfuse. lra. }
  assert (Hz : 0 < f_prev loc * clamp c)
    by (apply Qmult_lt_0_compat; [exact Hf | apply clamp_is_positive]).
  destruct (Nat.eq_dec M 1) as [HM | HM].
  - apply fuse_inv in Hfuse. destruct Hfuse as [H1 _].
    destruct (H1 HM) as [-> Hx]. repeat split; lra.
  - destruct (Hxp HM) as [Hx Hp].
    rewrite (fuse_later M _ _ _ _ HM Hp Hpos) in Hfuse.
    injection Hfuse as <- <-.
    assert (Hx' := fused_estimate_positive _ _ _ _ Hx Hz Hp Hpos).
    destruct (fused_precision_bounds _ _ Hp Hpos) as (Hpn & _).
    repeat split; assumption.
Qed.

Lemma iter_batches_finite_positive (target sp : Q) (iso : list string)
    (batches : Z) (obs : list batch_obs) :
  forall (M : nat) (loc loc' : locals) (self self' : operator),
    iter_batches target sp iso batches M obs loc self
      = Some (loc', self') ->
    0 < f loc -> 0 < f_prev loc ->
    (M <> 1%nat -> (Z.of_nat M < batches)%Z -> 0 < x loc /\ 0 < p loc) ->
    0 < f loc' /\
    initial_value self' = initial_value self /\
    concs self' = concs self.
Proof.
  induction obs as [ | o rest IH]; intros M loc loc' self self' H Hf Hfp Hxp.
  - cbn [iter_batches] in H. injection H as <- <-.
    repeat split; assumption.
  - cbn [iter_batches] in H.
    destruct (Z.ltb (Z.of_nat M) batches) eqn:EM.
    + apply Z.ltb_lt in EM.
      destruct (inactive_batch target sp M loc o) as [l | ] eqn:El;
        [ | discriminate].
      cbn [fst snd] in H.
      destruct (inactive_batch_finite_positive _ _ _ _ _ _ El Hfp
                  (fun HM => Hxp HM EM)) as (Hf' & Hfp' & Hx' & Hp').
      apply IH in H;
        [ | assumption | assumption | intros _ _; split; assumption].
      destruct H as (Hf'' & Hi & Hc).
      split; [exact Hf'' | ]. rewrite Hi, Hc.
      destruct (Z.eqb (Z.of_nat M) batches); split; reflexivity.
    + apply Z.ltb_ge in EM. cbn [fst snd] in H.
      apply IH in H; [ | assumption | assumption | intros _ HM; lia].
      destruct H as (Hf'' & Hi & Hc).
      split; [exact Hf'' | ]. rewrite Hi, Hc.
      destruct (Z.eqb (Z.of_nat M) batches); split; reflexivity.
Qed.

(** Every call that runs the transport and returns has multiplied a
    positive [self.initial_value] by a positive estimate and appended the
    product to [concs]. *)
Lemma returning_run_keeps_reference_density_positive (sim : transport)
    (self self' : operator) (vec : list (list Q)) (source_rate : Q)
    (iso : option (list string)) (batches : option pyval)
    (bracket : option (list pyval)) (iv : pyval) (target v0 : Q)
    (r : OperatorResult) :
  search_crit_conc sim self vec source_rate iso batches bracket (Some iv)
                   target
    = Return r self' ->
  ~ source_rate == 0 ->
  initial_value (init_attributes self (to_Q iv)) = Some v0 ->
  0 < v0 ->
  exists estimate,
    0 < estimate /\
    initial_value self' = Some (v0 * estimate) /\
    0 < v0 * estimate /\
    concs self'
    = concs (init_attributes self (to_Q iv)) ++ [v0 * estimate].
Proof.
  unfold search_crit_conc. intros H Hsrc Hv0 Hpos.
  destruct (check_arguments iso batches bracket (Some iv));
    [discriminate | ].
  destruct (Qeq_bool source_rate 0) eqn:E;
    [apply Qeq_bool_iff in E; contradiction | ].
  destruct iso as [iso | ]; [ | discriminate].
  destruct batches as [[n | q | str] | ]; try discriminate.
  match type of H with
  | context [iter_batches ?t ?sp ?i ?b ?M ?obs ?l ?s] =>
    destruct (iter_batches t sp i b M obs l s) as [[loc s'] | ] eqn:Eit;
      [ | discriminate]
  end.
  apply iter_batches_finite_positive in Eit;
    [ | reflexivity | reflexivity | intros HM; contradiction].
  destruct Eit as (Hf & Hi & Hc).
  cbn [initial_value concs log with_materials] in Hi, Hc.
  unfold finish in H. cbn [initial_value log] in H.
  rewrite Hi, Hv0 in H. injection H as _ <-.
  exists (f loc). cbn [initial_value concs log]. rewrite Hc.
  split; [exact Hf | ].
  split; [reflexivity | ].
  split; [apply Qmult_lt_0_compat; assumption | reflexivity].
Qed.

(** Line 539 at work: a batch whose balance asks for a negative density
    factor is fused with the factor 0.5. *)
Example clamp_engaged :
  exists c,
    corr 1 (tally_deltas 1 initial_locals
              (mk_obs (0.7, 0.01)
                      [[0.2; 0.2; 0.04]; [0; 0; 0]; [0.9; 0.9; 0.81];
                       [0; 0; 0]; [0; 0; 0]]
                      [[0.1; 0.1; 0.01]] 0.05))
    = Some c /\
    c == - (50 # 21) /\
    clamp c = 0.5.
Proof.
  eexists. split; [vm_compute; reflexivity | ].
  split; vm_compute; reflexivity.
Qed.

End Controller.

(** ** Runs over [float64] *)

Section NonFiniteRuns.

Import CoupledOperator np.

(** *** Agreement with the finite embedding *)

Lemma div_finite (a b c : Q) :
  np_div a b = Some c -> div (Fin a) (Fin b) = Fin c.
Proof.
  unfold np_div. cbn [div]. destruct (Qeq_bool b 0); [discriminate | ].
  intro H. injection H as <-. reflexivity.
Qed.

Lemma corr_finite (target : Q) (b : balance) (c : Q) :
  corr target b = Some c -> CoupledOperator64.corr target b = Fin c.
Proof.
  unfold corr, CoupledOperator64.corr.
  destruct (np_div (P_fiss_prompt b) target) as [prompt | ] eqn:E;
    [ | discriminate].
  intro H. rewrite (div_finite _ _ _ E). cbn [add mul sub].
  exact (div_finite _ _ _ H).
Qed.

Lemma clamp_finite (c : Q) :
  CoupledOperator64.clamp (Fin c) = Fin (clamp c).
Proof.
  unfold CoupledOperator64.clamp, clamp. cbn [le].
  destruct (Qle_bool c 0); reflexivity.
Qed.

Lemma p_measure_finite (target sp : Q) (kk : Q * Q) (pm : Q) :
  p_measure target sp kk = Some pm ->
  CoupledOperator64.p_measure target sp kk = Fin pm.
Proof.
  unfold p_measure, CoupledOperator64.p_measure.
  destruct (np_div (Qabs (fst kk - target)) target) as [dev | ] eqn:E1;
    [ | discriminate].
  destruct (np_div 1 sp) as [noise | ] eqn:E2; [ | discriminate].
  intro H. injection H as <-.
  rewrite (div_finite _ _ _ E1), (div_finite _ _ _ E2). reflexivity.
Qed.

Lemma fuse_finite (M : nat) (x p pm z x' p' : Q) :
  fuse M x p pm z = Some (x', p') ->
  CoupledOperator64.fuse M (Fin x) (Fin p) (Fin pm) (Fin z)
  = (Fin x', Fin p').
Proof.
  unfold fuse, CoupledOperator64.fuse. destruct (Nat.eqb M 1).
  - destruct (np_div pm pm) as [w | ] eqn:E; [ | discriminate].
    intro H. injection H as <- <-.
    rewrite (div_finite _ _ _ E). reflexivity.
  - destruct (np_div 1 p) as [ip | ] eqn:E1; [ | discriminate].
    destruct (np_div 1 pm) as [ipm | ] eqn:E2; [ | discriminate].
    destruct (np_div 1 (ip + ipm)) as [p_n | ] eqn:E3; [ | discriminate].
    destruct (np_div p_n p) as [w | ] eqn:E4; [ | discriminate].
    intro H. injection H as <- <-.
    rewrite (div_finite _ _ _ E1), (div_finite _ _ _ E2). cbn [add].
    rewrite (div_finite _ _ _ E3), (div_finite _ _ _ E4). reflexivity.
Qed.

(** On a batch that stays finite and whose tally reads are in range, the
    estimator over [float64] computes what the finite one computes. *)
Lemma inactive_batch_finite (target sp : Q) (M : nat) (loc loc' : locals)
    (o : batch_obs) :
  inactive_batch target sp M loc o = Some loc' ->
  CoupledOperator64.tally_deltas M (CoupledOperator64.finite_locals loc) o
    = Some (tally_deltas M loc o) ->
  CoupledOperator64.inactive_batch target sp M
    (CoupledOperator64.finite_locals loc) o
  = Some (CoupledOperator64.finite_locals loc').
Proof.
  intros H Hd. apply inactive_batch_inv in H.
  destruct H as (c & pm & [x' p'] & g' & Hc & Hpm & Hf & Hg & ->).
  unfold CoupledOperator64.inactive_batch. rewrite Hd.
  rewrite (corr_finite _ _ _ Hc), clamp_finite,
    (p_measure_finite _ _ _ _ Hpm).
  cbn [CoupledOperator64.finite_locals CoupledOperator64.f_prev
       CoupledOperator64.x CoupledOperator64.p mul].
  rewrite (fuse_finite _ _ _ _ _ _ _ Hf). cbn [fst snd] in *.
  rewrite (div_finite _ _ _ Hg). reflexivity.
Qed.

(** *** Tally reads in range *)

Lemma shaped_spec (n : nat) (a : array2) :
  CoupledOperator64.shaped n a = true <->
  List.length a = n /\ Forall (fun row => List.length row = 3%nat) a.
Proof.
  unfold CoupledOperator64.shaped.
  rewrite andb_true_iff, Nat.eqb_eq, forallb_forall, Forall_forall.
  split; intros [H1 H2]; (split; [exact H1 | ]); intros row Hr.
  - apply Nat.eqb_eq. exact (H2 row Hr).
  - apply Nat.eqb_eq. exact (H2 row Hr).
Qed.

Lemma arr_sub_shaped (n : nat) (a b : array2) :
  CoupledOperator64.shaped n a = true ->
  CoupledOperator64.shaped n b = true ->
  CoupledOperator64.shaped n (arr_sub a b) = true.
Proof.
  rewrite !shaped_spec. intros [La Fa] [Lb Fb]. unfold arr_sub. split.
  - rewrite length_map, length_combine. lia.
  - apply Forall_map. apply Forall_forall. intros [r1 r2] Hin.
    cbn [fst snd]. rewrite length_map, length_combine.
    rewrite Forall_forall in Fa, Fb.
    rewrite (Fa r1 (in_combine_l _ _ _ _ Hin)),
      (Fb r2 (in_combine_r _ _ _ _ Hin)).
    reflexivity.
Qed.

Lemma item_shaped (n : nat) (a : array2) (i j : nat) :
  CoupledOperator64.shaped n a = true -> (i < n)%nat -> (j < 3)%nat ->
  CoupledOperator64.item a i j = Some (at2 a i j).
Proof.
  rewrite shaped_spec. intros [La Fa] Hi Hj.
  unfold CoupledOperator64.item, at2.
  rewrite (nth_error_nth' a []) by lia.
  apply nth_error_nth'. rewrite Forall_forall in Fa.
  rewrite (Fa (nth i a [])); [exact Hj | apply nth_In; lia].
Qed.

Lemma tally_deltas_shaped (n0 n1 : nat) (M : nat) (loc : locals)
    (o : batch_obs) :
  (5 <= n0)%nat ->
  CoupledOperator64.tallies_shaped n0 n1 o = true ->
  (M <> 1%nat -> CoupledOperator64.shaped n0 (prev_res0 loc) = true) ->
  CoupledOperator64.tally_deltas M (CoupledOperator64.finite_locals loc) o
  = Some (tally_deltas M loc o).
Proof.
  intros Hn Ho Hprev. unfold CoupledOperator64.tallies_shaped in Ho.
  apply andb_true_iff in Ho. destruct Ho as [H0 _].
  unfold CoupledOperator64.tally_deltas, tally_deltas, prev_res_at.
  cbn [CoupledOperator64.finite_locals CoupledOperator64.prev_res0
       CoupledOperator64.prev_res1 CoupledOperator64.prev_leak].
  assert (Hs : CoupledOperator64.shaped n0
                 (arr_sub (tally0 o)
                    (fst (if Nat.eqb M 1
                          then (arr_sub (tally0 o) (tally0 o),
                                arr_sub (tally1 o) (tally1 o))
                          else (prev_res0 loc, prev_res1 loc)))) = true).
  { apply arr_sub_shaped; [exact H0 | ].
    destruct (Nat.eqb M 1) eqn:EM; cbn [fst].
    - apply arr_sub_shaped; exact H0.
    - apply Hprev. apply Nat.eqb_neq. exact EM. }
  rewrite !(item_shaped n0 _ _ _ Hs) by lia. reflexivity.
Qed.

(** *** Positivity of the reference density *)

(** The batch loop over [float64] under the conditions that keep every
    division finite and every read in range: it runs through, the
    estimate [f] stays finite and positive, and the attributes of the
    operator are left alone. *)
Lemma iter_batches64_positive (target sp : Q) (iso : list string)
    (batches : Z) (n0 n1 : nat) (obs : list batch_obs) :
  0 < target -> 0 < sp -> (5 <= n0)%nat ->
  forall (M : nat) (loc : locals) (self : CoupledOperator64.operator),
    0 < f loc -> 0 < f_prev loc ->
    (M <> 1%nat -> (Z.of_nat M < batches)%Z -> 0 < x loc /\ 0 < p loc) ->
    (M <> 1%nat -> (Z.of_nat M < batches)%Z ->
     CoupledOperator64.shaped n0 (prev_res0 loc) = true) ->
    Forall (fun o => CoupledOperator64.tallies_shaped n0 n1 o = true)
           (firstn (Z.to_nat (batches - Z.of_nat M)) obs) ->
    Forall (fun d => ~ d == 0)
           (firstn (Z.to_nat (batches - Z.of_nat M))
                   (absorption_deltas M (prev_res1 loc) obs)) ->
    exists loc' self',
      CoupledOperator64.iter_batches target sp iso batches M obs
        (CoupledOperator64.finite_locals loc) self
        = inr (CoupledOperator64.finite_locals loc', self') /\
      0 < f loc' /\
      CoupledOperator64.initial_value self'
        = CoupledOperator64.initial_value self /\
      CoupledOperator64.concs self' = CoupledOperator64.concs self.
Proof.
  intros Ht Hs Hn. induction obs as [ | o rest IH];
    intros M loc self Hf Hfp Hxp Hprev Hshape Habs.
  - exists loc, self. cbn [CoupledOperator64.iter_batches].
    repeat split; assumption.
  - cbn [CoupledOperator64.iter_batches].
    destruct (Z.ltb (Z.of_nat M) batches) eqn:EM.
    + apply Z.ltb_lt in EM.
      replace (Z.to_nat (batches - Z.of_nat M))
        with (S (Z.to_nat (batches - Z.of_nat (S M)))) in Habs, Hshape
        by lia.
      cbn [absorption_deltas firstn] in Habs, Hshape.
      apply Forall_cons_iff in Habs. destruct Habs as [Hd Habs].
      apply Forall_cons_iff in Hshape. destruct Hshape as [Ho Hshape].
      rewrite <- L_abs_nucs_unfold in Hd.
      destruct (inactive_batch_positive target sp M loc o Ht Hs Hfp
                  (fun HM => Hxp HM EM) Hd)
        as (loc' & Hib & Hf' & Hfp' & Hx' & Hp' & Hprev1).
      rewrite (inactive_batch_finite target sp M loc loc' o Hib
                 (tally_deltas_shaped n0 n1 M loc o Hn Ho
                    (fun HM => Hprev HM EM))).
      cbn [fst snd]. rewrite <- Hprev1 in Habs.
      assert (Hprev0 : prev_res0 loc' = tally0 o).
      { apply inactive_batch_inv in Hib.
        destruct Hib as (c & pm & xp & g' & _ & _ & _ & _ & ->).
        reflexivity. }
      assert (Hshape0 : CoupledOperator64.shaped n0 (prev_res0 loc') = true).
      { rewrite Hprev0. unfold CoupledOperator64.tallies_shaped in Ho.
        apply andb_true_iff in Ho. tauto. }
      match goal with
      | |- context [CoupledOperator64.iter_batches _ _ _ _ _ _ _ ?s] =>
        destruct (IH (S M) loc' s Hf' Hfp' (fun _ _ => conj Hx' Hp')
                     (fun _ _ => Hshape0) Hshape Habs)
          as (loc'' & self'' & -> & Hf'' & Hi & Hc)
      end.
      exists loc'', self''. split; [reflexivity | ].
      split; [exact Hf'' | ].
      rewrite Hi, Hc.
      destruct (Z.eqb (Z.of_nat M) batches); split; reflexivity.
    + apply Z.ltb_ge in EM. cbn [fst snd].
      replace (Z.to_nat (batches - Z.of_nat M)) with 0%nat
        in Habs, Hshape by lia.
      match goal with
      | |- context [CoupledOperator64.iter_batches _ _ _ _ _ _ _ ?s] =>
        destruct (IH (S M) loc s Hf Hfp) as
          (loc'' & self'' & -> & Hf'' & Hi & Hc)
      end.
      * intros _ HM. lia.
      * intros _ HM. lia.
      * replace (Z.to_nat (batches - Z.of_nat (S M))) with 0%nat by lia.
        constructor.
      * replace (Z.to_nat (batches - Z.of_nat (S M))) with 0%nat by lia.
        constructor.
      * exists loc'', self''. split; [reflexivity | ].
        split; [exact Hf'' | ].
        rewrite Hi, Hc.
        destruct (Z.eqb (Z.of_nat M) batches); split; reflexivity.
Qed.

(** On the scripted run, in which every batch stays finite, the run over
    [float64] ends as the finite one does: the same result, the same
    reference density and history, the same densities and the same
    collaborator calls. *)
Example float64_run_agrees_on_scripted_run :
  exists r self',
    CoupledOperator64.search_crit_conc
      (Scripted.sim64 [Scripted.obs1; Scripted.obs2; Scripted.obs3])
      (Scripted.self64 Scripted.borated_water) [] 1
      (Some Scripted.boron) (Some (PyInt 3)) None (Some (PyFloat 0.001)) 1
      = CoupledOperator64.Return r self' /\
    r = fst Scripted.searched /\
    CoupledOperator64.initial_value self'
    = option_map Fin (initial_value (snd Scripted.searched)) /\
    CoupledOperator64.concs self'
    = map Fin (concs (snd Scripted.searched)) /\
    CoupledOperator64.materials self'
    = map (fun im => (fst im, map (fun nd => (fst nd, Fin (snd nd)))
                                  (snd im)))
          (materials (snd Scripted.searched)) /\
    CoupledOperator64.n_calls self' = n_calls (snd Scripted.searched) /\
    CoupledOperator64.trace self' = trace (snd Scripted.searched).
Proof.
  eexists. eexists.
  split; [vm_compute; reflexivity | ].
  repeat split; vm_compute; reflexivity.
Qed.

(** C6, with the conditions it needs.  In a run with a nonzero source
    rate, a positive target eigenvalue, a positive particle count,
    tallies of one shape with at least five score rows in the first one,
    and a nonzero nuclide-absorption increment in every inactive batch,
    a positive [self.initial_value] is multiplied by a positive finite
    running estimate: the call returns, the updated [initial_value] is
    positive, and it is the one value appended to [concs]. *)
Theorem C6_reference_density_stays_positive
    (sim : CoupledOperator64.transport) (self : CoupledOperator64.operator)
    (vec : list (list Q)) (source_rate : Q) (iso : list string)
    (batches : Z) (bracket : option (list pyval)) (iv : pyval)
    (target v0 : Q) (n0 n1 : nat) :
  check_arguments (Some iso) (Some (PyInt batches)) bracket (Some iv)
    = None ->
  ~ source_rate == 0 ->
  0 < target ->
  0 < CoupledOperator64.sqrt_particles sim ->
  (5 <= n0)%nat ->
  Forall (fun o => CoupledOperator64.tallies_shaped n0 n1 o = true)
         (firstn (Z.to_nat (batches - 1)) (CoupledOperator64.script sim)) ->
  Forall (fun d => ~ d == 0)
         (firstn (Z.to_nat (batches - 1))
                 (absorption_deltas 1 [] (CoupledOperator64.script sim))) ->
  CoupledOperator64.initial_value
    (CoupledOperator64.init_attributes self (Fin (to_Q iv)))
    = Some (Fin v0) ->
  0 < v0 ->
  exists r self' estimate,
    CoupledOperator64.search_crit_conc sim self vec source_rate (Some iso)
      (Some (PyInt batches)) bracket (Some iv) target
      = CoupledOperator64.Return r self' /\
    0 < estimate /\
    CoupledOperator64.initial_value self' = Some (Fin (v0 * estimate)) /\
    0 < v0 * estimate /\
    CoupledOperator64.concs self'
    = CoupledOperator64.concs
        (CoupledOperator64.init_attributes self (Fin (to_Q iv)))
      ++ [Fin (v0 * estimate)].
Proof.
  intros Hargs Hsrc Ht Hs Hn Hshape Habs Hv0 Hpos.
  unfold CoupledOperator64.search_crit_conc. rewrite Hargs.
  destruct (Qeq_bool source_rate 0) eqn:E;
    [apply Qeq_bool_iff in E; contradiction | ].
  change CoupledOperator64.initial_locals
    with (CoupledOperator64.finite_locals initial_locals).
  match goal with
  | |- context [CoupledOperator64.iter_batches _ _ _ _ _ _ _ ?s] =>
    destruct (iter_batches64_positive target
                (CoupledOperator64.sqrt_particles sim) iso batches n0 n1
                (CoupledOperator64.script sim) Ht Hs Hn 1 initial_locals s)
      as (loc & self' & -> & Hf & Hi & Hc)
  end.
  - reflexivity.
  - reflexivity.
  - intros HM. contradiction.
  - intros HM. contradiction.
  - exact Hshape.
  - exact Habs.
  - cbn [CoupledOperator64.initial_value CoupledOperator64.concs
         CoupledOperator64.log CoupledOperator64.with_materials] in Hi, Hc.
    unfold CoupledOperator64.finish.
    cbn [CoupledOperator64.initial_value CoupledOperator64.log].
    rewrite Hi, Hv0.
    eexists. eexists. exists (f loc).
    split; [reflexivity | ].
    split; [exact Hf | ].
    cbn [CoupledOperator64.initial_value CoupledOperator64.concs
         CoupledOperator64.log]. rewrite Hc.
    split; [reflexivity | ].
    split; [apply Qmult_lt_0_compat; assumption | reflexivity].
Qed.

Lemma C6_witness :
  exists r self' estimate,
    CoupledOperator64.search_crit_conc
      (Scripted.sim64 [Scripted.obs1; Scripted.obs2; Scripted.obs3])
      (Scripted.self64 Scripted.borated_water) [] 1
      (Some Scripted.boron) (Some (PyInt 3)) None (Some (PyFloat 0.001)) 1
      = CoupledOperator64.Return r self' /\
    0 < estimate /\
    CoupledOperator64.initial_value self' = Some (Fin (0.001 * estimate)) /\
    0 < 0.001 * estimate /\
    CoupledOperator64.concs self'
    = CoupledOperator64.concs
        (CoupledOperator64.init_attributes
           (Scripted.self64 Scripted.borated_water)
           (Fin (to_Q (PyFloat 0.001))))
      ++ [Fin (0.001 * estimate)].
Proof.
  apply (C6_reference_density_stays_positive
           (Scripted.sim64 [Scripted.obs1; Scripted.obs2; Scripted.obs3])
           (Scripted.self64 Scripted.borated_water)
           [] 1 Scripted.boron 3 None (PyFloat 0.001) 1 0.001 5 2).
  - reflexivity.
  - intro H. vm_compute in H. discriminate H.
  - reflexivity.
  - reflexivity.
  - lia.
  - repeat constructor.
  - repeat constructor; intro H; vm_compute in H; discriminate H.
  - reflexivity.
  - reflexivity.
Defined.

(** C6 as worded fails.  A first call with [initial_value = 0.001] on a
    model that holds none of the tracked nuclides, with one inactive
    batch in which the neutron balance is closed: the nuclide-absorption
    increment and the numerator of line 537 are both zero, the
    correction is [0/0 = nan], the test [g <= 0] lets it pass, and the
    call returns with [self.initial_value = nan], which is not greater
    than zero, appended to [concs]. *)
Lemma C6_counterexample :
  exists r self' b,
    CoupledOperator64.initial_value
      (CoupledOperator64.init_attributes
         (Scripted.self64 Scripted.plain_water)
         (Fin (to_Q (PyFloat 0.001))))
      = Some (Fin 0.001) /\
    0 < 0.001 /\
    CoupledOperator64.search_crit_conc
      (Scripted.sim64 [Scripted.obs_balanced; Scripted.obs3])
      (Scripted.self64 Scripted.plain_water) [] 1
      (Some Scripted.boron) (Some (PyInt 2)) None (Some (PyFloat 0.001)) 1
      = CoupledOperator64.Return r self' /\
    CoupledOperator64.tally_deltas 1 CoupledOperator64.initial_locals
      Scripted.obs_balanced = Some b /\
    L_abs_nucs b == 0 /\
    CoupledOperator64.corr 1 b = NaN /\
    CoupledOperator64.clamp NaN = NaN /\
    CoupledOperator64.initial_value self' = Some NaN /\
    gt NaN (Fin 0) = false /\
    CoupledOperator64.concs self' = [Fin 0.001; NaN].
Proof.
  eexists. eexists. eexists.
  split; [reflexivity | ].
  split; [reflexivity | ].
  split; [vm_compute; reflexivity | ].
  split; [vm_compute; reflexivity | ].
  repeat split.
Qed.

(** The other non-finite corrections.  With production below absorption
    the correction is [-inf], line 539 replaces it by 0.5 and the run
    stays finite: the reference density is halved. *)
Example minus_infinity_is_clamped :
  exists r self' v b,
    CoupledOperator64.tally_deltas 1 CoupledOperator64.initial_locals
      Scripted.obs_subcritical = Some b /\
    CoupledOperator64.corr 1 b = NInf /\
    CoupledOperator64.clamp NInf = Fin 0.5 /\
    CoupledOperator64.search_crit_conc
      (Scripted.sim64 [Scripted.obs_subcritical; Scripted.obs3])
      (Scripted.self64 Scripted.plain_water) [] 1
      (Some Scripted.boron) (Some (PyInt 2)) None (Some (PyFloat 0.001)) 1
      = CoupledOperator64.Return r self' /\
    CoupledOperator64.initial_value self' = Some (Fin v) /\
    v == 0.0005.
Proof.
  eexists. eexists. eexists. eexists.
  split; [vm_compute; reflexivity | ].
  split; [reflexivity | ].
  split; [reflexivity | ].
  split; [vm_compute; reflexivity | ].
  split; [reflexivity | ].
  reflexivity.
Qed.

(** A first tally with fewer than five score rows: the read
    [curr_res[0][0][3][1]] of line 531 raises [IndexError] in the first
    inactive batch, before any density or attribute is changed. *)
Example short_tally_raises_IndexError :
  exists self',
    CoupledOperator64.search_crit_conc
      (Scripted.sim64 [Scripted.obs_short; Scripted.obs3])
      (Scripted.self64 Scripted.plain_water) [] 1
      (Some Scripted.boron) (Some (PyInt 2)) None (Some (PyFloat 0.001)) 1
      = CoupledOperator64.Raise CoupledOperator64.IndexError self' /\
    CoupledOperator64.initial_value self' = Some (Fin 0.001) /\
    CoupledOperator64.concs self' = [Fin 0.001] /\
    CoupledOperator64.materials self' = [(1%Z, Scripted.plain_water)].
Proof.
  eexists. split; [vm_compute; reflexivity | ].
  repeat split.
Qed.

End NonFiniteRuns.

(** ** Objectives with side effects and the keff search *)

Section KeffSearch.

Import Search SearchKeff.

Lemma iterate_cases (f : Q -> Q) (tol : Q) (left right : hold_root_cand) :
  match iterate f tol left right with
  | Converged y => y = false_position left right
  | Narrowed l' r' =>
    (l' = left /\ r' = mk_cand (false_position left right)
                               (f (false_position left right))) \/
    (l' = mk_cand (false_position left right)
                  (f (false_position left right)) /\ r' = right)
  | GaveUp y d =>
    y = guess (closest left right
                 (mk_cand (false_position left right)
                          (f (false_position left right))))
  end.
Proof.
  unfold iterate. cbn [value guess].
  destruct (Qltb _ tol); [reflexivity | ].
  destruct (same_sign (value left) _); cbn [negb]; [ | left; split; reflexivity].
  destruct (same_sign _ (value right)); cbn [negb];
    [reflexivity | right; split; reflexivity].
Qed.

Lemma iterate_st_eq (S : Type) (f : Q -> S -> Q * S) (tol : Q)
    (left right : hold_root_cand) (s : S) :
  iterate_st S f tol left right s
  = (iterate (fun _ => fst (f (false_position left right) s)) tol
             left right,
     snd (f (false_position left right) s)).
Proof. reflexivity. Qed.

Lemma iterate_const (f0 : Q -> Q) (v tol : Q)
    (left right : hold_root_cand) :
  v = f0 (false_position left right) ->
  iterate (fun _ => v) tol left right = iterate f0 tol left right.
Proof. intros ->. reflexivity. Qed.

Section Agreement.

Variable S : Type.
Variable f : Q -> S -> Q * S.
Variable f0 : Q -> Q.
Hypothesis f_value : forall g s, fst (f g s) = f0 g.

Lemma main_loop_st_agrees (tol : Q) (n : nat) :
  forall (left right : hold_root_cand) (s : S),
    fst (main_loop_st S f tol n left right s)
    = main_loop f0 tol n left right.
Proof.
  induction n as [ | n IH]; intros left right s; cbn [main_loop_st main_loop].
  - reflexivity.
  - rewrite iterate_st_eq.
    rewrite (iterate_const f0) by apply f_value.
    destruct (iterate f0 tol left right); cbn [fst]; [reflexivity | | reflexivity].
    apply IH.
Qed.

Lemma bracket_setup_st_agrees (x0 b0 b1 tol : Q) (s : S) :
  fst (bracket_setup_st S f x0 b0 b1 tol s) = bracket_setup f0 x0 b0 b1 tol.
Proof.
  unfold bracket_setup_st, bracket_setup. cbn zeta.
  rewrite !f_value.
  destruct (Qltb (Qabs (f0 x0)) tol); [reflexivity | ].
  destruct (Qltb (Qabs (f0 b0)) tol); [reflexivity | ].
  match goal with
  | |- context [if same_sign ?u ?v then _ else _] => destruct (same_sign u v)
  end; [ | reflexivity].
  destruct (Qltb (Qabs (f0 b1)) tol); [reflexivity | ].
  cbn [value].
  match goal with
  | |- context [if negb (same_sign ?u ?v) then _ else _] =>
    destruct (same_sign u v)
  end; cbn [negb]; [ | reflexivity].
  match goal with
  | |- context [if negb (same_sign ?u ?v) then _ else _] =>
    destruct (same_sign u v)
  end; reflexivity.
Qed.

Lemma custom_root_finder_st_agrees (x0 : Q) (bracket : list pyval)
    (tol : Q) (max_iter : nat) (s : S) :
  fst (custom_root_finder_st S f x0 bracket tol max_iter s)
  = custom_root_finder f0 x0 bracket tol max_iter.
Proof.
  unfold custom_root_finder_st, custom_root_finder.
  destruct (cv.check_bracket bracket) as [e | [b0 b1]]; [reflexivity | ].
  assert (H := bracket_setup_st_agrees x0 b0 b1 tol s).
  destruct (bracket_setup_st S f x0 b0 b1 tol s) as [[r | [l r]] s'];
    cbn [fst] in H; rewrite <- H; [reflexivity | ].
  apply main_loop_st_agrees.
Qed.

(** When the value of the objective does not depend on the state it
    threads, the finder written for stateful objectives returns exactly
    what [custom_root_finder] returns on the underlying function. *)
Theorem stateful_finder_agrees_with_pure (x0 : Q) (bracket : list pyval)
    (tol : Q) (max_iter : nat) (s : S) :
  fst (custom_root_finder_st S f x0 bracket tol max_iter s)
  = custom_root_finder f0 x0 bracket tol max_iter.
Proof.
  apply custom_root_finder_st_agrees.
Qed.

End Agreement.

Lemma stateful_finder_agrees_with_pure_witness :
  fst (custom_root_finder_st history
         (fun guess h => _search_keff guess 1 keff_line h)
         1 [PyInt 0; PyInt 10] 1e-3 50 (mk_history [] []))
  = custom_root_finder (fun guess => fst (keff_line guess) - 1)
                       1 [PyInt 0; PyInt 10] 1e-3 50.
Proof.
  apply (stateful_finder_agrees_with_pure history
           (fun guess h => _search_keff guess 1 keff_line h)
           (fun guess => fst (keff_line guess) - 1)).
  intros g s. reflexivity.
Defined.

(** *** The history of a keff search *)

Section History.

Variable run_model : Q -> Q * Q.
Variable target : Q.

Let F (guess : Q) (h : history) : Q * history :=
  _search_keff guess target run_model h.

Lemma main_loop_st_history (tol : Q) (n : nat) :
  forall (left right : hold_root_cand) (h : history),
  exists new,
    snd (main_loop_st history F tol n left right h)
    = mk_history (guesses h ++ new) (results h ++ map run_model new) /\
    (List.length new <= n)%nat /\
    forall x ds,
      fst (main_loop_st history F tol n left right h) = Returned x ds ->
      In x (guess left :: guess right :: new).
Proof.
  induction n as [ | n IH]; intros left right h; cbn [main_loop_st].
  - exists []. cbn [fst snd map List.length]. rewrite !app_nil_r.
    split; [destruct h; reflexivity | ].
    split; [lia | discriminate].
  - rewrite iterate_st_eq.
    set (g := false_position left right).
    set (v := fst (F g h)).
    assert (Hc := iterate_cases (fun _ => v) tol left right). fold g in Hc.
    set (h1 := snd (F g h)).
    assert (Hh1 : h1 = mk_history (guesses h ++ [g])
                                  (results h ++ map run_model [g]))
      by reflexivity.
    destruct (iterate (fun _ => v) tol left right) as [y | l' r' | y d].
    + exists [g]. cbn [fst snd]. split; [exact Hh1 | ].
      split; [cbn; lia | ].
      intros x ds H. injection H as <- <-. subst y. cbn [In]. auto.
    + destruct (IH l' r' h1) as (new & Hs & Hlen & Hret).
      exists (g :: new). rewrite Hs, Hh1. cbn [guesses results map].
      rewrite <- !app_assoc. cbn [app].
      split; [reflexivity | ].
      split; [cbn [List.length]; lia | ].
      intros x ds H. specialize (Hret x ds H).
      destruct Hc as [[-> ->] | [-> ->]];
        destruct Hret as [Hx | [Hx | Hx]]; cbn [guess] in Hx;
        cbn [In]; auto.
    + exists [g]. cbn [fst snd]. split; [exact Hh1 | ].
      split; [cbn; lia | ].
      intros x ds H. injection H as <- <-. subst y.
      destruct (closest_among left right (mk_cand g v)) as [-> | [-> | ->]];
        cbn [guess In]; auto.
Qed.

Lemma bracket_setup_st_history (x0 b0 b1 tol : Q) (h : history) :
  exists new,
    snd (bracket_setup_st history F x0 b0 b1 tol h)
    = mk_history (guesses h ++ x0 :: new)
                 (results h ++ map run_model (x0 :: new)) /\
    (List.length new <= 2)%nat /\
    match fst (bracket_setup_st history F x0 b0 b1 tol h) with
    | inl (Returned x _) => In x (x0 :: new)
    | inl _ => True
    | inr (l, r) => In (guess l) (x0 :: new) /\ In (guess r) (x0 :: new)
    end.
Proof.
  unfold bracket_setup_st. cbn zeta.
  set (h0 := snd (F x0 h)).
  assert (Hh0 : h0 = mk_history (guesses h ++ [x0])
                                (results h ++ map run_model [x0]))
    by reflexivity.
  destruct (Qltb (Qabs (fst (F x0 h))) tol).
  { exists []. cbn [fst snd]. split; [exact Hh0 | ].
    split; [cbn; lia | cbn [In]; auto]. }
  set (h1 := snd (F b0 h0)).
  assert (Hh1 : h1 = mk_history (guesses h ++ [x0; b0])
                                (results h ++ map run_model [x0; b0])).
  { subst h1. unfold F, _search_keff at 1. cbn [snd].
    rewrite Hh0. cbn [guesses results map].
    rewrite <- !app_assoc. reflexivity. }
  destruct (Qltb (Qabs (fst (F b0 h0))) tol).
  { exists [b0]. cbn [fst snd]. split; [exact Hh1 | ].
    split; [cbn; lia | cbn [In]; auto]. }
  set (lft := if Qltb (fst (F x0 h)) (fst (F b0 h0)) then _ else _).
  set (rgt := if Qltb (fst (F x0 h)) (fst (F b0 h0)) then _ else _).
  assert (Hl : x0 = guess lft \/ b0 = guess lft)
    by (subst lft; destruct (Qltb _ _); cbn [guess]; auto).
  assert (Hr : x0 = guess rgt \/ b0 = guess rgt)
    by (subst rgt; destruct (Qltb _ _); cbn [guess]; auto).
  clearbody lft rgt.
  destruct (same_sign (value lft) (value rgt)).
  - set (h2 := snd (F b1 h1)).
    assert (Hh2 : h2 = mk_history (guesses h ++ [x0; b0; b1])
                         (results h ++ map run_model [x0; b0; b1])).
    { subst h2. unfold F, _search_keff at 1. cbn [snd].
      rewrite Hh1. cbn [guesses results map].
      rewrite <- !app_assoc. reflexivity. }
    exists [b0; b1].
    destruct (Qltb (Qabs (fst (F b1 h1))) tol).
    { cbn [fst snd]. split; [exact Hh2 | ].
      split; [cbn; lia | cbn [In]; auto]. }
    cbn [value].
    destruct (same_sign (value lft) _); cbn [negb].
    + destruct (same_sign _ (value rgt)); cbn [negb fst snd].
      * split; [exact Hh2 | ]. split; [cbn; lia | ].
        match goal with
        | |- In (guess (closest ?a ?b ?c)) _ =>
          destruct (closest_among a b c) as [-> | [-> | ->]]
        end; cbn [guess In]; tauto.
      * split; [exact Hh2 | ]. split; [cbn; lia | ].
        cbn [guess In]. tauto.
    + cbn [fst snd]. split; [exact Hh2 | ]. split; [cbn; lia | ].
      cbn [guess In]. tauto.
  - exists [b0]. cbn [fst snd]. split; [exact Hh1 | ].
    split; [cbn; lia | cbn [In]; tauto].
Qed.

Lemma custom_root_finder_st_history (x0 : Q) (bracket : list pyval)
    (tol : Q) (n : nat) (h : history) (b0 b1 : Q) :
  cv.check_bracket bracket = inr (b0, b1) ->
  exists new,
    snd (custom_root_finder_st history F x0 bracket tol n h)
    = mk_history (guesses h ++ x0 :: new)
                 (results h ++ map run_model (x0 :: new)) /\
    (List.length (x0 :: new) <= n + 3)%nat /\
    forall x ds,
      fst (custom_root_finder_st history F x0 bracket tol n h)
      = Returned x ds -> In x (x0 :: new).
Proof.
  intro Hb. unfold custom_root_finder_st. rewrite Hb.
  destruct (bracket_setup_st_history x0 b0 b1 tol h)
    as (new1 & Hs1 & Hlen1 & Hin1).
  destruct (bracket_setup_st history F x0 b0 b1 tol h)
    as [[r | [l r]] h1]; cbn [fst snd] in Hs1, Hin1.
  - exists new1. cbn [fst snd]. split; [exact Hs1 | ].
    split; [cbn [List.length] in *; lia | ].
    intros x ds ->. exact Hin1.
  - destruct (main_loop_st_history tol n l r h1)
      as (new2 & Hs2 & Hlen2 & Hin2).
    exists (new1 ++ new2). subst h1. rewrite Hs2. cbn [guesses results].
    rewrite <- !app_assoc. cbn [app map]. rewrite map_app.
    split; [reflexivity | ].
    split; [cbn [List.length]; rewrite length_app; lia | ].
    intros x ds H. specialize (Hin2 x ds H).
    destruct Hin1 as [Hl Hr].
    change (x0 :: new1 ++ new2) with ((x0 :: new1) ++ new2).
    apply in_or_app.
    destruct Hin2 as [<- | [<- | Hx]]; auto.
Qed.

End History.

(** What a returning keff search has gone through. *)
Lemma custom_search_returned_inv (run_model : Q -> Q * Q)
    (initial_guess : option pyval) (target : pyval)
    (bracket : option (list pyval)) (tol : option pyval)
    (max_iter : option nat) (z : option Q) (pr : list diagnostic)
    (gs : list Q) (rs : list (Q * Q)) :
  custom_search_for_keff run_model initial_guess target bracket tol
                         max_iter
    = SearchReturned z pr gs rs ->
  exists br x0 t b0 b1,
    bracket = Some br /\ initial_guess = Some x0 /\ tol = Some t /\
    is_Real x0 = true /\ is_Real t = true /\ is_Real target = true /\
    cv.check_bracket br = inr (b0, b1) /\
    let res :=
      custom_root_finder_st history
        (fun guess h => _search_keff guess (to_Q target) run_model h)
        (to_Q x0) br (to_Q t)
        (match max_iter with Some n => n | None => 50%nat end)
        (mk_history [] []) in
    fst res = match z with
              | Some x => Returned x pr
              | None => FellThrough
              end /\
    (z = None -> pr = []) /\
    gs = guesses (snd res) /\ rs = results (snd res).
Proof.
  unfold custom_search_for_keff, check_real, cv.check_type.
  destruct initial_guess as [x0 | ].
  - destruct (is_Real x0) eqn:Ex; [ | discriminate].
    destruct bracket as [br | ].
    + destruct (cv.check_bracket br) as [e | [b0 b1]] eqn:Eb;
        [discriminate | ].
      destruct (is_Real target) eqn:Et; [ | discriminate].
      destruct tol as [t | ]; [ | discriminate].
      destruct (is_Real t) eqn:Etol; [ | discriminate].
      intro H. exists br, x0, t, b0, b1.
      repeat (split; [reflexivity | ]).
      cbn zeta.
      destruct (custom_root_finder_st _ _ _ _ _ _ _) as [[e | x d | ] h];
        [discriminate H | | ].
      * injection H as <- <- <- <-. cbn [fst snd].
        repeat split; first [reflexivity | assumption | discriminate].
      * injection H as <- <- <- <-. cbn [fst snd].
        repeat split; first [reflexivity | assumption].
    + destruct (is_Real target); [ | discriminate].
      destruct tol as [t | ]; [ | discriminate].
      destruct (is_Real t); discriminate.
  - destruct bracket as [br | ].
    + destruct (cv.check_bracket br) as [e | [b0 b1]]; [discriminate | ].
      destruct (is_Real target); [ | discriminate].
      destruct tol as [t | ]; [ | discriminate].
      destruct (is_Real t); discriminate.
    + destruct (is_Real target); [ | discriminate].
      destruct tol as [t | ]; [ | discriminate].
      destruct (is_Real t); discriminate.
Qed.

(** A keff search that returns hands back, next to the root, the guesses
    in the order the transport was run on them and the eigenvalue of
    each: the two lists match entry by entry, the first guess is
    [initial_guess], at most [max_iter + 3] models were run, and a
    returned root is one of the recorded guesses. *)
Theorem keff_search_history (run_model : Q -> Q * Q)
    (initial_guess : option pyval) (target : pyval)
    (bracket : option (list pyval)) (tol : option pyval)
    (max_iter : option nat) (z : option Q) (pr : list diagnostic)
    (gs : list Q) (rs : list (Q * Q)) :
  custom_search_for_keff run_model initial_guess target bracket tol
                         max_iter
    = SearchReturned z pr gs rs ->
  rs = map run_model gs /\
  (exists x0 rest, initial_guess = Some x0 /\ gs = to_Q x0 :: rest) /\
  (List.length gs
   <= match max_iter with Some n => n | None => 50 end + 3)%nat /\
  (forall x, z = Some x -> In x gs).
Proof.
  intro H. apply custom_search_returned_inv in H.
  destruct H as (br & x0 & t & b0 & b1 & -> & -> & -> & _ & _ & _ & Hb & H).
  cbn zeta in H. destruct H as (Hres & _ & -> & ->).
  destruct (custom_root_finder_st_history run_model (to_Q target) (to_Q x0)
              br (to_Q t)
              (match max_iter with Some n => n | None => 50%nat end)
              (mk_history [] []) b0 b1 Hb) as (new & Hs & Hlen & Hin).
  cbn zeta in Hs, Hin. rewrite Hs. cbn [guesses results app].
  split; [reflexivity | ].
  split; [exists x0, new; split; reflexivity | ].
  split; [exact Hlen | ].
  intros x ->. apply (Hin x pr). exact Hres.
Qed.

Lemma keff_search_history_witness :
  let root := false_position (mk_cand 1 (fst (keff_line 1) - 1))
                             (mk_cand 10 (fst (keff_line 10) - 1)) in
  map keff_line [1; 0; 10; root] = map keff_line [1; 0; 10; root] /\
  (exists x0 rest,
     Some (PyInt 1) = Some x0 /\ [1; 0; 10; root] = to_Q x0 :: rest) /\
  le (List.length [1; 0; 10; root]) (50 + 3) /\
  (forall x, Some root = Some x -> In x [1; 0; 10; root]).
Proof.
  intro root.
  apply (keff_search_history keff_line (Some (PyInt 1)) (PyInt 1)
           (Some [PyInt 0; PyInt 10]) (Some (PyFloat 1e-3)) None
           (Some root) []).
  vm_compute. reflexivity.
Defined.

(** A keff search returns only when [bracket], [initial_guess] and [tol]
    were all given as real numbers, and what it returns as root and
    diagnostics is what [custom_root_finder] returns on the objective
    "eigenvalue of the model minus target". *)
Theorem keff_search_is_root_finder_on_keff_minus_target
    (run_model : Q -> Q * Q) (initial_guess : option pyval)
    (target : pyval) (bracket : option (list pyval)) (tol : option pyval)
    (max_iter : option nat) (z : option Q) (pr : list diagnostic)
    (gs : list Q) (rs : list (Q * Q)) :
  custom_search_for_keff run_model initial_guess target bracket tol
                         max_iter
    = SearchReturned z pr gs rs ->
  exists br x0 t,
    bracket = Some br /\ initial_guess = Some x0 /\ tol = Some t /\
    is_Real x0 = true /\ is_Real t = true /\
    custom_root_finder (fun guess => fst (run_model guess) - to_Q target)
                       (to_Q x0) br (to_Q t)
                       (match max_iter with Some n => n | None => 50%nat end)
    = match z with
      | Some x => Returned x pr
      | None => FellThrough
      end.
Proof.
  intro H. apply custom_search_returned_inv in H.
  destruct H as (br & x0 & t & b0 & b1 & -> & -> & -> & Hx & Ht & _ & _ & H).
  cbn zeta in H. destruct H as (Hres & _).
  exists br, x0, t. repeat (split; [reflexivity || assumption | ]).
  rewrite <- Hres. symmetry.
  apply (custom_root_finder_st_agrees history
           (fun guess h => _search_keff guess (to_Q target) run_model h)
           (fun guess => fst (run_model guess) - to_Q target)).
  intros g s. reflexivity.
Qed.

Lemma keff_search_is_root_finder_on_keff_minus_target_witness :
  exists br x0 t,
    Some [PyInt 0; PyInt 10] = Some br /\ Some (PyInt 1) = Some x0 /\
    Some (PyFloat 1e-3) = Some t /\
    is_Real x0 = true /\ is_Real t = true /\
    custom_root_finder (fun guess => fst (keff_line guess) - to_Q (PyInt 1))
                       (to_Q x0) br (to_Q t) 50
    = Returned (false_position (mk_cand 1 (fst (keff_line 1) - 1))
                               (mk_cand 10 (fst (keff_line 10) - 1))) [].
Proof.
  apply (keff_search_is_root_finder_on_keff_minus_target keff_line
           (Some (PyInt 1)) (PyInt 1) (Some [PyInt 0; PyInt 10])
           (Some (PyFloat 1e-3)) None
           (Some (false_position (mk_cand 1 (fst (keff_line 1) - 1))
                                 (mk_cand 10 (fst (keff_line 10) - 1))))
           []
           [1; 0; 10; false_position (mk_cand 1 (fst (keff_line 1) - 1))
                                     (mk_cand 10 (fst (keff_line 10) - 1))]
           (map keff_line
              [1; 0; 10;
               false_position (mk_cand 1 (fst (keff_line 1) - 1))
                              (mk_cand 10 (fst (keff_line 10) - 1))])).
  vm_compute. reflexivity.
Defined.

End KeffSearch.

(** ** Further properties of [search_crit_conc] *)

Section ControllerRuns.

Import CoupledOperator.

(** The [bracket] argument is checked and then never read: a call with
    an accepted bracket does exactly what the call without one does, so
    the bracket bounds nothing. *)
Theorem accepted_bracket_changes_nothing (sim : transport)
    (self : operator) (vec : list (list Q)) (source_rate : Q)
    (iso : option (list string)) (batches : option pyval)
    (br : list pyval) (initial_value : option pyval) (target : Q)
    (b0 b1 : Q) :
  cv.check_bracket br = inr (b0, b1) ->
  search_crit_conc sim self vec source_rate iso batches (Some br)
                   initial_value target
  = search_crit_conc sim self vec source_rate iso batches None
                     initial_value target.
Proof.
  intro Hb. unfold search_crit_conc, check_arguments.
  destruct iso as [i | ]; [ | reflexivity].
  destruct initial_value as [v | ]; [ | reflexivity].
  destruct (cv.check_type "initial_value" is_Real v); [reflexivity | ].
  destruct batches as [n | ]; [ | reflexivity].
  destruct (cv.check_type "batches" is_Integral n); [reflexivity | ].
  rewrite Hb. reflexivity.
Qed.

Lemma accepted_bracket_changes_nothing_witness :
  search_crit_conc Scripted.sim Scripted.self0 [] 1
                   (Some Scripted.boron) (Some (PyInt 3))
                   (Some [PyFloat 0.002; PyFloat 0.003])
                   (Some (PyFloat 0.001)) 1
  = search_crit_conc Scripted.sim Scripted.self0 [] 1
                     (Some Scripted.boron) (Some (PyInt 3)) None
                     (Some (PyFloat 0.001)) 1.
Proof.
  apply (accepted_bracket_changes_nothing Scripted.sim Scripted.self0 [] 1
           (Some Scripted.boron) (Some (PyInt 3))
           [PyFloat 0.002; PyFloat 0.003] (Some (PyFloat 0.001)) 1
           0.002 0.003).
  reflexivity.
Defined.

(** Once [self.initial_value] exists, the [initial_value] argument only
    has to be a real number: its value does not enter the call. *)
Theorem initial_value_argument_used_on_first_call_only (sim : transport)
    (self : operator) (vec : list (list Q)) (source_rate : Q)
    (iso : option (list string)) (batches : option pyval)
    (bracket : option (list pyval)) (iv1 iv2 : pyval) (target v : Q) :
  initial_value self = Some v ->
  is_Real iv1 = true -> is_Real iv2 = true ->
  search_crit_conc sim self vec source_rate iso batches bracket (Some iv1)
                   target
  = search_crit_conc sim self vec source_rate iso batches bracket
                     (Some iv2) target.
Proof.
  intros Hv H1 H2.
  unfold search_crit_conc, check_arguments, cv.check_type.
  rewrite H1, H2.
  destruct iso as [i | ]; [ | reflexivity].
  destruct batches as [n | ]; [ | reflexivity].
  destruct (is_Integral n); [ | reflexivity].
  destruct (match bracket with
            | Some b => _
            | None => None
            end); [reflexivity | ].
  destruct (Qeq_bool source_rate 0); [reflexivity | ].
  destruct n as [z | q | str]; try reflexivity.
  unfold init_attributes. rewrite Hv. reflexivity.
Qed.

Lemma initial_value_argument_used_on_first_call_only_witness :
  search_crit_conc Scripted.sim
    (mk_operator (Some 0.004) [0.001; 0.004] [3; 4] 1
                 [(1%Z, Scripted.water)] [])
    [] 1 (Some Scripted.boron) (Some (PyInt 3)) None (Some (PyFloat 0.001))
    1
  = search_crit_conc Scripted.sim
      (mk_operator (Some 0.004) [0.001; 0.004] [3; 4] 1
                   [(1%Z, Scripted.water)] [])
      [] 1 (Some Scripted.boron) (Some (PyInt 3)) None (Some (PyInt 7)) 1.
Proof.
  apply (initial_value_argument_used_on_first_call_only Scripted.sim
           (mk_operator (Some 0.004) [0.001; 0.004] [3; 4] 1
                        [(1%Z, Scripted.water)] [])
           [] 1 (Some Scripted.boron) (Some (PyInt 3)) None
           (PyFloat 0.001) (PyInt 7) 1 0.004);
    reflexivity.
Defined.

(** *** The estimate inside one batch *)

Lemma weighted_step_between (a b w : Q) :
  0 <= w -> w <= 1 ->
  Qmin a b <= a + w * (b - a) <= Qmax a b.
Proof.
  intros H0 H1.
  destruct (Qlt_le_dec a b) as [Hab | Hba].
  - assert (A : 0 <= w * (b - a)) by (apply Qmult_le_0_compat; lra).
    assert (B : 0 <= (1 - w) * (b - a)) by (apply Qmult_le_0_compat; lra).
    rewrite (Q.min_l a b) by lra. rewrite (Q.max_r a b) by lra. lra.
  - assert (A : 0 <= w * (a - b)) by (apply Qmult_le_0_compat; lra).
    assert (B : 0 <= (1 - w) * (a - b)) by (apply Qmult_le_0_compat; lra).
    rewrite (Q.min_r a b) by lra. rewrite (Q.max_l a b) by lra. lra.
Qed.

(** What a later inactive batch with a positive running weight has
    computed, with the gain between 0 and 1. *)
Lemma later_batch_inv (target sp : Q) (M : nat) (loc loc' : locals)
    (o : batch_obs) :
  inactive_batch target sp M loc o = Some loc' ->
  M <> 1%nat -> 0 < p loc ->
  exists c w,
    corr target (tally_deltas M loc o) = Some c /\
    0 < w /\ w <= 1 /\
    x loc' = x loc + w * (f_prev loc * clamp c - x loc) /\
    ~ f_prev loc == 0 /\
    g loc' = x loc' / f_prev loc.
Proof.
  intros H HM Hp. apply inactive_batch_inv in H.
  destruct H as (c & pm & [x' p'] & g' & Hc & Hpm & Hfuse & Hg & ->).
  assert (Hpos : 0 < pm).
  { apply p_measure_nonneg in Hpm.
    apply fuse_some_weight_nonzero in Hfuse.
    destruct (Qlt_le_dec 0 pm) as [Hlt | Hle]; [exact Hlt | ].
    exfalso. apply Hfuse. lra. }
  rewrite (fuse_later M _ _ _ _ HM Hp Hpos) in Hfuse.
  injection Hfuse as <- <-.
  destruct (fused_precision_bounds _ _ Hp Hpos) as (Hn & Hle & _).
  apply np_div_inv in Hg. destruct Hg as [Hfp ->].
  exists c, (1 / (1 / p loc + 1 / pm) / p loc). cbn [x g fst].
  split; [exact Hc | ].
  split; [apply Qlt_shift_div_l; lra | ].
  split; [apply Qle_shift_div_r; lra | ].
  repeat split; [exact Hfp].
Qed.

(** From the second inactive batch on, the new estimate lies between
    the previous estimate and the batch observation [z = f_prev * g]: the
    fusion never overshoots. *)
Theorem fused_estimate_between_old_and_observed (target sp : Q) (M : nat)
    (loc loc' : locals) (o : batch_obs) :
  inactive_batch target sp M loc o = Some loc' ->
  M <> 1%nat -> 0 < p loc ->
  exists c,
    corr target (tally_deltas M loc o) = Some c /\
    Qmin (x loc) (f_prev loc * clamp c) <= x loc'
    /\ x loc' <= Qmax (x loc) (f_prev loc * clamp c).
Proof.
  intros H HM Hp.
  destruct (later_batch_inv _ _ _ _ _ _ H HM Hp)
    as (c & w & Hc & Hw0 & Hw1 & -> & _).
  exists c. split; [exact Hc | ].
  apply weighted_step_between; lra.
Qed.

Lemma fused_estimate_between_old_and_observed_witness :
  exists c,
    corr 1 (tally_deltas 2 Scripted.loc1 Scripted.obs2) = Some c /\
    Qmin (x Scripted.loc1) (f_prev Scripted.loc1 * clamp c)
    <= x Scripted.loc2
    /\ x Scripted.loc2
       <= Qmax (x Scripted.loc1) (f_prev Scripted.loc1 * clamp c).
Proof.
  apply (fused_estimate_between_old_and_observed 1 10 2 Scripted.loc1
           Scripted.loc2 Scripted.obs2).
  - vm_compute. reflexivity.
  - discriminate.
  - reflexivity.
Defined.

(** A later batch that measures a closed balance (correction 1) leaves
    the estimate where it was and applies the factor 1 to the densities:
    criticality is a fixed point of the controller. *)
Theorem closed_balance_is_fixed_point (target sp : Q) (M : nat)
    (loc loc' : locals) (o : batch_obs) (c : Q) :
  inactive_batch target sp M loc o = Some loc' ->
  M <> 1%nat -> 0 < p loc ->
  x loc = f_prev loc ->
  corr target (tally_deltas M loc o) = Some c ->
  c == 1 ->
  x loc' == x loc /\ g loc' == 1.
Proof.
  intros H HM Hp Hx Hc Hc1.
  destruct (later_batch_inv _ _ _ _ _ _ H HM Hp)
    as (c' & w & Hc' & _ & _ & Hx' & Hfp & Hg).
  rewrite Hc in Hc'. injection Hc' as <-.
  assert (Hcl : clamp c = c) by (apply clamp_positive; lra).
  rewrite Hcl in Hx'.
  assert (E : x loc' == x loc).
  { rewrite Hx', Hx, Hc1. ring. }
  split; [exact E | ].
  rewrite Hg, E, Hx. field. exact Hfp.
Qed.

Lemma closed_balance_is_fixed_point_witness :
  x (match inactive_batch 1 10 2 Scripted.loc1 Scripted.obs_critical with
     | Some l => l
     | None => Scripted.loc1
     end) == x Scripted.loc1 /\
  g (match inactive_batch 1 10 2 Scripted.loc1 Scripted.obs_critical with
     | Some l => l
     | None => Scripted.loc1
     end) == 1.
Proof.
  apply (closed_balance_is_fixed_point 1 10 2 Scripted.loc1 _
           Scripted.obs_critical
           (match corr 1 (tally_deltas 2 Scripted.loc1
                                       Scripted.obs_critical) with
            | Some c => c
            | None => 0
            end)).
  - vm_compute. reflexivity.
  - discriminate.
  - reflexivity.
  - vm_compute. reflexivity.
  - vm_compute. reflexivity.
  - vm_compute. reflexivity.
Defined.

(** *** Runs without an inactive batch *)

Lemma iter_batches_all_active (target sp : Q) (iso : list string)
    (batches : Z) (obs : list batch_obs) :
  forall (M : nat) (loc : locals) (self : operator),
    (batches <= Z.of_nat M)%Z ->
    exists self',
      iter_batches target sp iso batches M obs loc self
        = Some (loc, self') /\
      materials self' = materials self /\
      initial_value self' = initial_value self /\
      concs self' = concs self /\
      n_calls self' = n_calls self.
Proof.
  induction obs as [ | o rest IH]; intros M loc self HM.
  - exists self. cbn [iter_batches]. repeat split; reflexivity.
  - cbn [iter_batches].
    destruct (Z.ltb (Z.of_nat M) batches) eqn:E;
      [apply Z.ltb_lt in E; lia | ].
    cbn [fst snd].
    match goal with
    | |- context [iter_batches _ _ _ _ _ _ _ ?s] =>
      destruct (IH (S M) loc s) as (self' & -> & Hm & Hi & Hc & Hn);
        [lia | ]
    end.
    exists self'. split; [reflexivity | ].
    rewrite Hm, Hi, Hc, Hn.
    destruct (Z.eqb (Z.of_nat M) batches); repeat split; reflexivity.
Qed.

(** With [batches <= 1] no batch is inactive: whatever the tallies show,
    the call returns, the library keeps the densities installed from the
    vector, and the reference density is multiplied by 1 and appended. *)
Theorem no_inactive_batch_is_a_plain_run (sim : transport)
    (self : operator) (vec : list (list Q)) (source_rate : Q)
    (iso : list string) (batches : Z) (bracket : option (list pyval))
    (iv : pyval) (target v0 : Q) :
  check_arguments (Some iso) (Some (PyInt batches)) bracket (Some iv)
    = None ->
  ~ source_rate == 0 ->
  (batches <= 1)%Z ->
  initial_value (init_attributes self (to_Q iv)) = Some v0 ->
  exists self',
    search_crit_conc sim self vec source_rate (Some iso)
                     (Some (PyInt batches)) bracket (Some iv) target
      = Return (mk_result (final_keff sim) (rates_of sim source_rate))
               self' /\
    materials self' = densities_of_vec sim vec (materials self) /\
    initial_value self' = Some (v0 * 1) /\
    concs self' = concs (init_attributes self (to_Q iv)) ++ [v0 * 1] /\
    n_calls self' = S (n_calls self).
Proof.
  intros Hargs Hsrc Hb Hv0.
  unfold search_crit_conc. rewrite Hargs.
  destruct (Qeq_bool source_rate 0) eqn:E;
    [apply Qeq_bool_iff in E; contradiction | ].
  match goal with
  | |- context [iter_batches ?t ?sp ?i ?b ?M ?obs ?l ?s] =>
    destruct (iter_batches_all_active t sp i b obs M l s)
      as (self' & -> & Hm & Hi & Hc & Hn); [cbn; lia | ]
  end.
  cbn [materials initial_value concs n_calls log with_materials]
    in Hm, Hi, Hc, Hn.
  unfold finish. cbn [initial_value log]. rewrite Hi, Hv0.
  eexists. split; [reflexivity | ].
  cbn [materials initial_value concs n_calls log f initial_locals].
  rewrite Hm, Hc, Hn.
  assert (Hnc : n_calls (init_attributes self (to_Q iv)) = n_calls self)
    by (unfold init_attributes; destruct (initial_value self); reflexivity).
  assert (Hmat : materials (init_attributes self (to_Q iv))
                 = materials self)
    by (unfold init_attributes; destruct (initial_value self); reflexivity).
  rewrite Hnc, Hmat. repeat split; reflexivity.
Qed.

Lemma no_inactive_batch_is_a_plain_run_witness :
  exists self',
    search_crit_conc Scripted.sim Scripted.self0 [] 1
                     (Some Scripted.boron) (Some (PyInt 1)) None
                     (Some (PyFloat 0.001)) 1
      = Return (mk_result (final_keff Scripted.sim)
                          (rates_of Scripted.sim 1)) self' /\
    materials self'
    = densities_of_vec Scripted.sim [] (materials Scripted.self0) /\
    initial_value self' = Some (0.001 * 1) /\
    concs self'
    = concs (init_attributes Scripted.self0 (to_Q (PyFloat 0.001)))
      ++ [0.001 * 1] /\
    n_calls self' = S (n_calls Scripted.self0).
Proof.
  apply (no_inactive_batch_is_a_plain_run Scripted.sim Scripted.self0 []
           1 Scripted.boron 1 None (PyFloat 0.001) 1 0.001).
  - reflexivity.
  - intro H. vm_compute in H. discriminate H.
  - lia.
  - reflexivity.
Defined.

(** *** What the density updates leave alone *)

Lemma first_density_unique (m : material) (nuc : string) (d : Q) :
  NoDup (map fst m) -> In (nuc, d) m -> first_density m nuc = d.
Proof.
  induction m as [ | [n e] m IH]; intros Hnd Hin; [destruct Hin | ].
  cbn [map fst] in Hnd. apply NoDup_cons_iff in Hnd.
  destruct Hnd as [Hnotin Hnd]. cbn [first_density].
  destruct Hin as [H | H].
  - injection H as -> ->. rewrite String.eqb_refl. reflexivity.
  - destruct (String.eqb n nuc) eqn:E.
    + apply String.eqb_eq in E. subst n. exfalso. apply Hnotin.
      apply (in_map fst) in H. exact H.
    + apply IH; assumption.
Qed.

Lemma first_density_rescaled_untracked (iso : list string) (g : Q)
    (m : material) (nuc : string) (names : list string) :
  in_iso iso nuc = false ->
  1e-36 < first_density m nuc ->
  In nuc names ->
  first_density (flat_map (rescaled_entry iso g m) names) nuc
  = first_density m nuc.
Proof.
  intros Hiso Hfloor. induction names as [ | n names IH]; [intros [] | ].
  intro Hin. cbn [flat_map]. unfold rescaled_entry at 1.
  destruct (String.eqb n nuc) eqn:E.
  - apply String.eqb_eq in E. subst n.
    apply Qltb_lt in Hfloor. rewrite Hfloor, Hiso.
    cbn [app first_density]. rewrite String.eqb_refl. reflexivity.
  - assert (Hin' : In nuc names).
    { destruct Hin as [H | H]; [ | exact H].
      subst n. rewrite String.eqb_refl in E. discriminate E. }
    destruct (Qltb 1e-36 (first_density m n)).
    + cbn [app first_density]. rewrite E. apply IH. exact Hin'.
    + cbn [app]. apply IH. exact Hin'.
Qed.

(** One rescaling creates no nuclide, and an untracked nuclide that
    survives it keeps the density it had. *)
Lemma rescale_leaves_untracked (iso : list string) (g : Q) (m : material)
    (nuc : string) (d : Q) :
  In (nuc, d) (rescale iso g m) ->
  In nuc (map fst m) /\
  (in_iso iso nuc = false ->
   d = first_density m nuc /\
   first_density (rescale iso g m) nuc = first_density m nuc).
Proof.
  intro H. unfold rescale in H. apply in_flat_map in H.
  destruct H as (n & Hn & H). apply rescaled_entry_In in H.
  destruct H as (-> & Hfloor & Hd).
  split; [exact Hn | ].
  intro Hiso. rewrite Hiso in Hd. split; [exact Hd | ].
  apply first_density_rescaled_untracked; assumption.
Qed.

Lemma update_densities_leaves_untracked (iso : list string) (g : Q)
    (ms0 ms : lib_materials) :
  Forall2 (fun im0 im =>
             fst im = fst im0 /\
             forall nuc d,
               In (nuc, d) (snd im) ->
               In nuc (map fst (snd im0)) /\
               (in_iso iso nuc = false ->
                d = first_density (snd im0) nuc /\
                first_density (snd im) nuc = first_density (snd im0) nuc))
          ms0 ms ->
  Forall2 (fun im0 im =>
             fst im = fst im0 /\
             forall nuc d,
               In (nuc, d) (snd im) ->
               In nuc (map fst (snd im0)) /\
               (in_iso iso nuc = false ->
                d = first_density (snd im0) nuc /\
                first_density (snd im) nuc = first_density (snd im0) nuc))
          ms0 (update_densities iso g ms).
Proof.
  induction 1 as [ | im0 im ms0 ms [Hid Hm] _ IH]; cbn [update_densities map].
  - constructor.
  - constructor; [ | exact IH]. cbn [fst snd].
    split; [exact Hid | ].
    intros nuc d Hin.
    destruct (rescale_leaves_untracked _ _ _ _ _ Hin) as [Hname Hun].
    apply in_map_iff in Hname. destruct Hname as ([n e] & Hfst & Hne).
    cbn [fst] in Hfst. subst n.
    destruct (Hm nuc e Hne) as [H0 Hun0].
    split; [exact H0 | ].
    intro Hiso. destruct (Hun Hiso) as [Hd Hfd].
    destruct (Hun0 Hiso) as [_ Hfd0].
    split; [rewrite Hd | rewrite Hfd]; exact Hfd0.
Qed.

Lemma iter_batches_leaves_untracked (target sp : Q) (iso : list string)
    (batches : Z) (ms0 : lib_materials) (obs : list batch_obs) :
  forall (M : nat) (loc loc' : locals) (self self' : operator),
    iter_batches target sp iso batches M obs loc self
      = Some (loc', self') ->
    Forall2 (fun im0 im =>
               fst im = fst im0 /\
               forall nuc d,
                 In (nuc, d) (snd im) ->
                 In nuc (map fst (snd im0)) /\
                 (in_iso iso nuc = false ->
                  d = first_density (snd im0) nuc /\
                  first_density (snd im) nuc
                  = first_density (snd im0) nuc))
            ms0 (materials self) ->
    Forall2 (fun im0 im =>
               fst im = fst im0 /\
               forall nuc d,
                 In (nuc, d) (snd im) ->
                 In nuc (map fst (snd im0)) /\
                 (in_iso iso nuc = false ->
                  d = first_density (snd im0) nuc /\
                  first_density (snd im) nuc
                  = first_density (snd im0) nuc))
            ms0 (materials self').
Proof.
  induction obs as [ | o rest IH]; intros M loc loc' self self' H Hinv.
  - cbn [iter_batches] in H. injection H as _ <-. exact Hinv.
  - cbn [iter_batches] in H.
    destruct (Z.ltb (Z.of_nat M) batches).
    + destruct (inactive_batch target sp M loc o) as [l | ];
        [ | discriminate].
      cbn [fst snd] in H. apply IH in H; [exact H | ].
      destruct (Z.eqb (Z.of_nat M) batches);
        cbn [materials log with_materials];
        apply update_densities_leaves_untracked; exact Hinv.
    + cbn [fst snd] in H. apply IH in H; [exact H | ].
      destruct (Z.eqb (Z.of_nat M) batches);
        cbn [materials log]; exact Hinv.
Qed.

(** A returning run creates no nuclide and never changes the density of
    a nuclide that is not in [iso]: material by material, every entry
    left in the library names a nuclide that was installed from the
    vector, and an untracked one carries the density installed then. *)
Theorem run_touches_tracked_nuclides_only (sim : transport)
    (self self' : operator) (vec : list (list Q)) (source_rate : Q)
    (iso : list string) (batches : option pyval)
    (bracket : option (list pyval)) (iv : option pyval) (target : Q)
    (r : OperatorResult) :
  search_crit_conc sim self vec source_rate (Some iso) batches bracket iv
                   target
    = Return r self' ->
  ~ source_rate == 0 ->
  Forall (fun im => NoDup (map fst (snd im)))
         (densities_of_vec sim vec (materials self)) ->
  Forall2 (fun im0 im =>
             fst im = fst im0 /\
             forall nuc d,
               In (nuc, d) (snd im) ->
               In nuc (map fst (snd im0)) /\
               (in_iso iso nuc = false ->
                d = first_density (snd im0) nuc))
          (densities_of_vec sim vec (materials self)) (materials self').
Proof.
  unfold search_crit_conc. intros H Hsrc Hnd.
  destruct (check_arguments (Some iso) batches bracket iv);
    [discriminate | ].
  destruct (Qeq_bool source_rate 0) eqn:E;
    [apply Qeq_bool_iff in E; contradiction | ].
  destruct batches as [[n | q | str] | ]; try discriminate.
  destruct iv as [v | ]; [ | discriminate].
  match type of H with
  | context [iter_batches ?t ?sp ?i ?b ?M ?obs ?l ?s] =>
    destruct (iter_batches t sp i b M obs l s) as [[loc s'] | ] eqn:Eit;
      [ | discriminate]
  end.
  apply (iter_batches_leaves_untracked _ _ _ _
           (densities_of_vec sim vec (materials self))) in Eit.
  - unfold finish in H. cbn [initial_value log] in H.
    destruct (initial_value s'); [ | discriminate].
    injection H as _ <-. cbn [materials log].
    eapply Forall2_impl; [ | exact Eit].
    cbn beta. intros im0 im [Hid Hm]. split; [exact Hid | ].
    intros nuc d Hin. destruct (Hm nuc d Hin) as [H0 Hun].
    split; [exact H0 | ]. intro Hiso. apply Hun. exact Hiso.
  - cbn [materials log with_materials].
    assert (Hmat : materials (init_attributes self (to_Q v))
                   = materials self)
      by (unfold init_attributes; destruct (initial_value self);
          reflexivity).
    rewrite Hmat. clear - Hnd.
    induction (densities_of_vec sim vec (materials self))
      as [ | im ms IH]; [constructor | ].
    apply Forall_cons_iff in Hnd. destruct Hnd as [Hnd1 Hnd].
    constructor; [ | apply IH; exact Hnd].
    split; [reflexivity | ].
    intros nuc d Hin. split; [apply (in_map fst) in Hin; exact Hin | ].
    intros _. rewrite (first_density_unique _ _ _ Hnd1 Hin).
    split; reflexivity.
Qed.

Lemma run_touches_tracked_nuclides_only_witness :
  Forall2 (fun im0 im =>
             fst im = fst im0 /\
             forall nuc d,
               In (nuc, d) (snd im) ->
               In nuc (map fst (snd im0)) /\
               (in_iso Scripted.boron nuc = false ->
                d = first_density (snd im0) nuc))
          (densities_of_vec Scripted.sim [] (materials Scripted.self0))
          (materials (snd Scripted.searched)).
Proof.
  apply (run_touches_tracked_nuclides_only Scripted.sim Scripted.self0
           (snd Scripted.searched) [] 1 Scripted.boron (Some (PyInt 3))
           None (Some (PyFloat 0.001)) 1 (fst Scripted.searched)).
  - vm_compute. reflexivity.
  - intro H. vm_compute in H. discriminate H.
  - repeat constructor; cbn [In]; intro H;
      repeat (destruct H as [H | H]; [discriminate H | ]); exact H.
Defined.

End ControllerRuns.

(** ** Nuclides with data, material updates and plain calls *)

Section Updates.

Import CoupledOperator OperatorCalls.

(** *** [_get_nuclides_with_data] *)

Lemma set_add_In (nuclides : list string) (name x : string) :
  In x (set_add nuclides name) <-> In x nuclides \/ x = name.
Proof.
  unfold set_add. destruct (existsb (String.eqb name) nuclides) eqn:E.
  - split; [auto | ]. intros [H | ->]; [exact H | ].
    apply existsb_exists in E. destruct E as (y & Hy & Heq).
    apply String.eqb_eq in Heq. subst y. exact Hy.
  - rewrite in_app_iff. cbn [In]. intuition.
Qed.

Lemma set_add_NoDup (nuclides : list string) (name : string) :
  NoDup nuclides -> NoDup (set_add nuclides name).
Proof.
  intro H. unfold set_add.
  destruct (existsb (String.eqb name) nuclides) eqn:E; [exact H | ].
  apply NoDup_app; [exact H | repeat constructor; intros [] | ].
  intros y Hy [<- | []].
  assert (Ht : existsb (String.eqb name) nuclides = true).
  { apply existsb_exists. exists name. split; [exact Hy | ].
    apply String.eqb_refl. }
  congruence.
Qed.

Lemma fold_set_add (names : list string) :
  forall nuclides,
    NoDup nuclides ->
    NoDup (fold_left set_add names nuclides) /\
    forall x, In x (fold_left set_add names nuclides)
              <-> In x nuclides \/ In x names.
Proof.
  induction names as [ | name names IH]; intros nuclides Hnd;
    cbn [fold_left].
  - split; [exact Hnd | ]. intro x. cbn [In]. tauto.
  - destruct (IH (set_add nuclides name) (set_add_NoDup _ _ Hnd))
      as [H1 H2].
    split; [exact H1 | ].
    intro y. rewrite H2, set_add_In. cbn [In].
    split; [intros [[H | H] | H]; auto | intros [H | [H | H]]; auto].
Qed.

Lemma fold_libraries (libraries : list library) :
  forall nuclides,
    NoDup nuclides ->
    let result :=
      fold_left
        (fun nuclides library =>
           if negb (String.eqb (library_type library) "neutron")
           then nuclides
           else fold_left set_add (library_materials library) nuclides)
        libraries nuclides in
    NoDup result /\
    forall x,
      In x result <->
      In x nuclides \/
      exists library,
        In library libraries /\
        library_type library = "neutron"%string /\
        In x (library_materials library).
Proof.
  induction libraries as [ | lib libs IH]; intros nuclides Hnd;
    cbn [fold_left].
  - split; [exact Hnd | ]. intro x. split; [auto | ].
    intros [H | (l & [] & _)]. exact H.
  - destruct (String.eqb (library_type lib) "neutron") eqn:E; cbn [negb].
    + apply String.eqb_eq in E.
      destruct (fold_set_add (library_materials lib) nuclides Hnd)
        as [Hnd' Hin'].
      destruct (IH _ Hnd') as [H1 H2]. split; [exact H1 | ].
      intro x. rewrite H2, Hin'. split.
      * intros [[H | H] | (l & Hl & Ht & Hx)]; [auto | | ].
        -- right. exists lib. cbn [In]. auto.
        -- right. exists l. cbn [In]. auto.
      * intros [H | (l & [<- | Hl] & Ht & Hx)]; [auto | auto | ].
        right. exists l. auto.
    + apply String.eqb_neq in E.
      destruct (IH _ Hnd) as [H1 H2]. split; [exact H1 | ].
      intro x. rewrite H2. split.
      * intros [H | (l & Hl & Ht & Hx)]; [auto | ].
        right. exists l. cbn [In]. auto.
      * intros [H | (l & [<- | Hl] & Ht & Hx)]; [auto | contradiction | ].
        right. exists l. auto.
Qed.

(** The nuclides with data are exactly the names listed by some library
    of type "neutron", each once; libraries of any other type add
    nothing. *)
Theorem nuclides_with_data_are_the_neutron_names :
  forall (libraries : list library),
    NoDup (_get_nuclides_with_data libraries) /\
    forall name,
      In name (_get_nuclides_with_data libraries) <->
      exists library,
        In library libraries /\
        library_type library = "neutron"%string /\
        In name (library_materials library).
Proof.
  intro libraries. unfold _get_nuclides_with_data.
  destruct (fold_libraries libraries [] (NoDup_nil _)) as [H1 H2].
  split; [exact H1 | ].
  intro name. rewrite H2. cbn [In]. tauto.
Qed.

(** *** [_update_materials] *)

Lemma density_thresholds : -1e-21 < 0 /\ 0 < 1e-36.
Proof. split; reflexivity. Qed.

Lemma scaled_zero (d : Q) : d == 0 -> 1e-24 * d == 0.
Proof. intro H. rewrite H. apply Qmult_0_r. Qed.

(** Linear arithmetic with the two thresholds and the scaled densities
    taken as atoms. *)
Ltac threshold_lra :=
  let Hw := fresh "Hw" in
  let Hf := fresh "Hf" in
  destruct density_thresholds as [Hw Hf];
  repeat match goal with
         | H : ?d == 0 |- _ =>
           lazymatch d with
           | 1e-24 * _ => fail
           | _ => apply scaled_zero in H
           end
         end;
  repeat match goal with
         | |- context [1e-24 * ?t] =>
           let v := fresh "v" in set (v := 1e-24 * t) in *
         | H : context [1e-24 * ?t] |- _ =>
           let v := fresh "v" in set (v := 1e-24 * t) in *
         end;
  set (floor36 := 1e-36) in *;
  set (warn21 := -1e-21) in *;
  lra.

Section AtomNumberLaws.

Variable number : Type.
Variable get_atom_density : number -> Z -> string -> Q.
Variable set_zero : number -> Z -> string -> number.
Variable round8 : Q -> Q.

(** What the assignment [number[mat, nuc] = 0.0] does to the reads. *)
Hypothesis get_set_same :
  forall n mat nuc, get_atom_density (set_zero n mat nuc) mat nuc == 0.
Hypothesis get_set_other :
  forall n mat nuc mat' nuc',
    (mat', nuc') <> (mat, nuc) ->
    get_atom_density (set_zero n mat nuc) mat' nuc'
    = get_atom_density n mat' nuc'.

Variable nuclides_with_data : list string.
Variable round_number : bool.
Variable n0 : number.

(** The state of the number vector while the loops run: the entries in
    [Z] have been zeroed, all others are as in [n0]. *)
Let tracks (Z : Z -> string -> Prop) (n : number) : Prop :=
  forall mat nuc,
    (Z mat nuc -> get_atom_density n mat nuc == 0) /\
    (get_atom_density n mat nuc = get_atom_density n0 mat nuc \/
     Z mat nuc).

Let below (mat : Z) (nuc : string) : Prop :=
  1e-24 * get_atom_density n0 mat nuc < -1e-21.

Lemma key_eq_dec (mat mat' : Z) (nuc nuc' : string) :
  {(mat', nuc') = (mat, nuc)} + {(mat', nuc') <> (mat, nuc)}.
Proof.
  destruct (Z.eq_dec mat' mat) as [-> | Hm];
    [ | right; intro H; injection H as H1 H2; contradiction].
  destruct (string_dec nuc' nuc) as [-> | Hn];
    [left; reflexivity
    | right; intro H; injection H as H2; contradiction].
Qed.

Lemma update_nuclides_tracks (mat : Z) (nuclides : list string) :
  forall (Zd : Z -> string -> Prop) (n : number),
    tracks Zd n ->
    (forall m k, Zd m k -> below m k) ->
    let '(n', dens, warns) :=
      update_nuclides number get_atom_density set_zero round8
                      nuclides_with_data round_number mat nuclides n in
    tracks (fun m k =>
              Zd m k \/
              (m = mat /\ In k nuclides /\
               existsb (String.eqb k) nuclides_with_data = true /\
               below m k)) n' /\
    dens = flat_map (handed_over number get_atom_density round8
                       nuclides_with_data round_number n0 mat) nuclides /\
    (forall k m v, In (k, m, v) warns ->
                   m = mat /\ In k nuclides /\
                   existsb (String.eqb k) nuclides_with_data = true /\
                   below m k /\
                   v = 1e-24 * get_atom_density n0 m k) /\
    ((forall k, In k nuclides ->
                existsb (String.eqb k) nuclides_with_data = true ->
                ~ 1e-24 * get_atom_density n mat k < -1e-21) ->
     n' = n /\ warns = []).
Proof.
  induction nuclides as [ | nuc rest IH]; intros Zd n Ht Hz;
    cbn [update_nuclides].
  - split; [ | split; [reflexivity | split; [intros k m v [] | auto]]].
    intros m k. destruct (Ht m k) as [H1 H2]. split.
    + intros [H | (_ & [] & _)]. auto.
    + destruct H2; auto.
  - unfold handed_over at 1. cbn [flat_map].
    destruct (existsb (String.eqb nuc) nuclides_with_data) eqn:Ed;
      cbn [andb].
    + destruct (Ht mat nuc) as [Hzero Hsame].
      destruct (Qltb 1e-36 (1e-24 * get_atom_density n mat nuc)) eqn:E1.
      * (* above the floor: handed over, nothing zeroed *)
        apply Qltb_lt in E1.
        assert (Heq : get_atom_density n mat nuc
                      = get_atom_density n0 mat nuc).
        { destruct Hsame as [H | H]; [exact H | ].
          apply Hzero in H. threshold_lra. }
        specialize (IH Zd n Ht Hz).
        destruct (update_nuclides _ _ _ _ _ _ mat rest n)
          as [[n' dens] warns].
        destruct IH as (I1 & I2 & I3 & I4).
        rewrite <- Heq.
        assert (E1' := E1). apply Qltb_lt in E1'. rewrite E1'.
        split; [ | split; [ | split]].
        -- intros m k. destruct (I1 m k) as [A B]. split.
           ++ intros [H | (-> & [<- | Hin] & Hd & Hb)]; [auto | | auto 7].
              unfold below in Hb. rewrite <- Heq in Hb. threshold_lra.
           ++ destruct B as [B | [B | (-> & Hin & Hd & Hb)]]; cbn [In];
                auto 8.
        -- cbn [app]. rewrite I2. reflexivity.
        -- intros k m v Hin. destruct (I3 k m v Hin) as (A & B & C & D & D').
           cbn [In]. auto 6.
        -- intro Hno. apply I4. intros k Hk. apply Hno. cbn [In]. auto 6.
      * apply Qltb_ge in E1.
        destruct (Qltb (1e-24 * get_atom_density n mat nuc) (-1e-21))
          eqn:E2.
        -- (* significantly negative: zeroed, with a warning *)
           apply Qltb_lt in E2.
           assert (Heq : get_atom_density n mat nuc
                         = get_atom_density n0 mat nuc).
           { destruct Hsame as [H | H]; [exact H | ].
             apply Hzero in H. threshold_lra. }
           assert (Hb : below mat nuc)
             by (unfold below; rewrite <- Heq; exact E2).
           assert (Ht' : tracks (fun m k => Zd m k \/
                                            (m = mat /\ k = nuc))
                                (set_zero n mat nuc)).
           { intros m k. destruct (Ht m k) as [A B].
             destruct (key_eq_dec mat m nuc k) as [Hk | Hk].
             - injection Hk as -> ->. split; [intros _; apply get_set_same | ].
               right. right. split; reflexivity.
             - rewrite (get_set_other _ _ _ _ _ Hk). split.
               + intros [H | [-> ->]]; [auto | ]. contradiction Hk.
                 reflexivity.
               + destruct B; auto. }
           assert (Hz' : forall m k,
                      Zd m k \/ (m = mat /\ k = nuc) -> below m k).
           { intros m k [H | [-> ->]]; [auto | exact Hb]. }
           specialize (IH _ _ Ht' Hz').
           destruct (update_nuclides _ _ _ _ _ _ mat rest
                                     (set_zero n mat nuc))
             as [[n' dens] warns].
           destruct IH as (I1 & I2 & I3 & _).
           assert (E1' : Qltb 1e-36 (1e-24 * get_atom_density n0 mat nuc)
                         = false).
           { apply Qltb_ge. rewrite <- Heq. exact E1. }
           rewrite E1'.
           split; [ | split; [ | split]].
           ++ intros m k. destruct (I1 m k) as [A B]. split.
              ** intros [H | (-> & [<- | Hin] & Hd & Hb')]; auto 8.
              ** destruct B as [B | [[B | [-> ->]] | (-> & Hin & Hd & Hb')]];
                   cbn [In]; auto 9.
           ++ cbn [app]. exact I2.
           ++ intros k m v [H | Hin].
              ** injection H as <- <- <-. cbn [In].
                 rewrite Heq. auto 6.
              ** destruct (I3 k m v Hin) as (A & B & C & D & D').
                 cbn [In]. auto 6.
           ++ intro Hno. exfalso.
              apply (Hno nuc); [cbn [In]; auto | exact Ed | exact E2].
        -- (* in between: left alone *)
           apply Qltb_ge in E2.
           specialize (IH Zd n Ht Hz).
           destruct (update_nuclides _ _ _ _ _ _ mat rest n)
             as [[n' dens] warns].
           destruct IH as (I1 & I2 & I3 & I4).
           assert (E1' : Qltb 1e-36 (1e-24 * get_atom_density n0 mat nuc)
                         = false).
           { apply Qltb_ge. destruct Hsame as [H | H].
             - rewrite <- H. exact E1.
             - apply Hz in H. unfold below in H. threshold_lra. }
           rewrite E1'.
           split; [ | split; [ | split]].
           ++ intros m k. destruct (I1 m k) as [A B]. split.
              ** intros [H | (-> & [<- | Hin] & Hd & Hb)]; [auto | | auto 7].
                 destruct Hsame as [H | H]; [ | auto].
                 unfold below in Hb. rewrite <- H in Hb. threshold_lra.
              ** destruct B as [B | [B | (-> & Hin & Hd & Hb)]];
                   cbn [In]; auto 8.
           ++ cbn [app]. exact I2.
           ++ intros k m v Hin. destruct (I3 k m v Hin) as (A & B & C & D & D').
              cbn [In]. auto 6.
           ++ intro Hno. apply I4. intros k Hk. apply Hno. cbn [In]. auto 6.
    + (* no data: skipped *)
      specialize (IH Zd n Ht Hz).
      destruct (update_nuclides _ _ _ _ _ _ mat rest n)
        as [[n' dens] warns].
      destruct IH as (I1 & I2 & I3 & I4).
      split; [ | split; [ | split]].
      * intros m k. destruct (I1 m k) as [A B]. split.
        -- intros [H | (-> & [<- | Hin] & Hd & Hb)]; [auto | | auto 7].
           congruence.
        -- destruct B as [B | [B | (-> & Hin & Hd & Hb)]];
             cbn [In]; auto 8.
      * cbn [app]. exact I2.
      * intros k m v Hin. destruct (I3 k m v Hin) as (A & B & C & D & D').
        cbn [In]. auto 6.
      * intro Hno. apply I4. intros k Hk. apply Hno. cbn [In]. auto 6.
Qed.

Lemma update_materials_tracks (nuclides : list string)
    (materials : list Z) :
  forall (Zd : Z -> string -> Prop) (n : number),
    tracks Zd n ->
    (forall m k, Zd m k -> below m k) ->
    let '(n', calls, warns) :=
      _update_materials number get_atom_density set_zero round8
                        nuclides_with_data round_number materials nuclides
                        n in
    tracks (fun m k =>
              Zd m k \/
              (In m materials /\ In k nuclides /\
               existsb (String.eqb k) nuclides_with_data = true /\
               below m k)) n' /\
    calls = map (fun mat =>
                   (mat,
                    flat_map (handed_over number get_atom_density round8
                                nuclides_with_data round_number n0 mat)
                             nuclides)) materials /\
    (forall k m v, In (k, m, v) warns ->
                   In m materials /\ In k nuclides /\
                   existsb (String.eqb k) nuclides_with_data = true /\
                   below m k /\
                   v = 1e-24 * get_atom_density n0 m k) /\
    ((forall m k, In m materials -> In k nuclides ->
                  existsb (String.eqb k) nuclides_with_data = true ->
                  ~ 1e-24 * get_atom_density n m k < -1e-21) ->
     n' = n /\ warns = []).
Proof.
  induction materials as [ | mat rest IH]; intros Zd n Ht Hz;
    cbn [_update_materials].
  - split; [ | split; [reflexivity | split; [intros k m v [] | auto]]].
    intros m k. destruct (Ht m k) as [H1 H2]. split.
    + intros [H | ([] & _)]. auto.
    + destruct H2; auto.
  - assert (H1 := update_nuclides_tracks mat nuclides Zd n Ht Hz).
    destruct (update_nuclides _ _ _ _ _ _ mat nuclides n)
      as [[n1 dens] warns1].
    destruct H1 as (T1 & D1 & W1 & N1).
    match type of T1 with
    | tracks ?Z1 _ =>
      assert (Hz1 : forall m k, Z1 m k -> below m k)
    end.
    { cbn beta. intros m k [H | (_ & _ & _ & H)]; auto. }
    specialize (IH _ n1 T1 Hz1).
    destruct (_update_materials _ _ _ _ _ _ rest nuclides n1)
      as [[n2 calls] warns2].
    destruct IH as (T2 & D2 & W2 & N2).
    split; [ | split; [ | split]].
    + intros m k. destruct (T2 m k) as [A B]. split.
      * intros [H | ([<- | Hin] & Hk & Hd & Hb)]; auto 9.
      * destruct B as [B | [[B | (-> & Hk & Hd & Hb)]
                           | (Hin & Hk & Hd & Hb)]];
          cbn [In]; auto 9.
    + cbn [map]. rewrite D1, D2. reflexivity.
    + intros k m v Hin. apply in_app_or in Hin.
      destruct Hin as [Hin | Hin].
      * destruct (W1 k m v Hin) as (-> & B & C & D & D'). cbn [In]. auto 6.
      * destruct (W2 k m v Hin) as (A & B & C & D & D'). cbn [In]. auto 6.
    + intro Hno.
      destruct N1 as [-> ->];
        [intros k Hk Hd; apply (Hno mat k); cbn [In]; auto | ].
      destruct N2 as [-> ->];
        [intros m k Hm Hk Hd; apply (Hno m k); cbn [In]; auto | ].
      split; reflexivity.
Qed.

Lemma tracks_start : tracks (fun _ _ => False) n0.
Proof.
  intros m k. split; [intros [] | left; reflexivity].
Qed.

Lemma update_materials_calls (materials : list Z)
    (nuclides : list string) :
  snd (fst (_update_materials number get_atom_density set_zero round8
              nuclides_with_data round_number materials nuclides n0))
  = map (fun mat =>
           (mat,
            flat_map (handed_over number get_atom_density round8
                        nuclides_with_data round_number n0 mat)
                     nuclides)) materials.
Proof.
  assert (H := update_materials_tracks nuclides materials _ n0
                 tracks_start (fun m k (F : False) => match F with end)).
  destruct (_update_materials _ _ _ _ _ _ materials nuclides n0)
    as [[n' calls] warns].
  destruct H as (_ & H & _). exact H.
Qed.

Lemma update_materials_final_number (materials : list Z)
    (nuclides : list string) :
  forall mat nuc,
    (significantly_negative number get_atom_density nuclides_with_data
       materials nuclides n0 mat nuc ->
     get_atom_density
       (fst (fst (_update_materials number get_atom_density set_zero
                    round8 nuclides_with_data round_number materials
                    nuclides n0))) mat nuc == 0) /\
    (get_atom_density
       (fst (fst (_update_materials number get_atom_density set_zero
                    round8 nuclides_with_data round_number materials
                    nuclides n0))) mat nuc
     = get_atom_density n0 mat nuc \/
     significantly_negative number get_atom_density nuclides_with_data
       materials nuclides n0 mat nuc).
Proof.
  assert (H := update_materials_tracks nuclides materials _ n0
                 tracks_start (fun m k (F : False) => match F with end)).
  destruct (_update_materials _ _ _ _ _ _ materials nuclides n0)
    as [[n' calls] warns].
  destruct H as (T & _). cbn [fst snd].
  unfold significantly_negative.
  intros mat nuc. destruct (T mat nuc) as [A B]. split.
  - intro H. apply A. right. exact H.
  - destruct B as [B | [[] | B]]; auto.
Qed.

(** The lists handed to [set_densities] are those read off the number
    vector as it was when the method was entered, one call per material
    in order: a nuclide with data is handed over, at [1e-24] times its
    atom density (rounded if asked), exactly when that exceeds [1e-36];
    the zeroing done on the way changes none of them. *)
Theorem update_materials_hands_over_initial_densities
    (materials : list Z) (nuclides : list string) :
  snd (fst (_update_materials number get_atom_density set_zero round8
              nuclides_with_data round_number materials nuclides n0))
  = map (fun mat =>
           (mat,
            flat_map (handed_over number get_atom_density round8
                        nuclides_with_data round_number n0 mat)
                     nuclides)) materials.
Proof.
  assert (H := update_materials_tracks nuclides materials _ n0
                 tracks_start (fun m k (F : False) => match F with end)).
  destruct (_update_materials _ _ _ _ _ _ materials nuclides n0)
    as [[n' calls] warns].
  destruct H as (_ & H & _). exact H.
Qed.

(** The clamp of lines 746-752: an entry is zeroed exactly when the
    loops visit it, the nuclide has data and its density is below
    [-1e-21] atom/b-cm; every other entry, mildly negative ones included,
    is left as it was, and the warnings printed are about zeroed entries
    and show their density. *)
Theorem update_materials_zeroes_only_significant_negatives
    (materials : list Z) (nuclides : list string) :
  let out := _update_materials number get_atom_density set_zero round8
               nuclides_with_data round_number materials nuclides n0 in
  (forall mat nuc,
     (significantly_negative number get_atom_density nuclides_with_data
        materials nuclides n0 mat nuc ->
      get_atom_density (fst (fst out)) mat nuc == 0) /\
     (get_atom_density (fst (fst out)) mat nuc
      = get_atom_density n0 mat nuc \/
      significantly_negative number get_atom_density nuclides_with_data
        materials nuclides n0 mat nuc)) /\
  (forall nuc mat v,
     In (nuc, mat, v) (snd out) ->
     significantly_negative number get_atom_density nuclides_with_data
       materials nuclides n0 mat nuc /\
     v = 1e-24 * get_atom_density n0 mat nuc).
Proof.
  cbn zeta.
  assert (H := update_materials_tracks nuclides materials _ n0
                 tracks_start (fun m k (F : False) => match F with end)).
  destruct (_update_materials _ _ _ _ _ _ materials nuclides n0)
    as [[n' calls] warns].
  destruct H as (T & _ & W & _). cbn [fst snd].
  unfold significantly_negative. split.
  - intros mat nuc. destruct (T mat nuc) as [A B]. split.
    + intro H. apply A. right. exact H.
    + destruct B as [B | [[] | B]]; auto.
  - intros nuc mat v Hin.
    destruct (W nuc mat v Hin) as (A & B & C & D & E).
    repeat split; assumption.
Qed.

(** A number vector without a significantly negative entry among the
    visited nuclides with data comes back untouched, without a
    warning. *)
Lemma update_materials_noop (materials : list Z) (nuclides : list string) :
  (forall m k, In m materials -> In k nuclides ->
               existsb (String.eqb k) nuclides_with_data = true ->
               ~ 1e-24 * get_atom_density n0 m k < -1e-21) ->
  fst (fst (_update_materials number get_atom_density set_zero round8
              nuclides_with_data round_number materials nuclides n0))
  = n0 /\
  snd (_update_materials number get_atom_density set_zero round8
         nuclides_with_data round_number materials nuclides n0) = [].
Proof.
  intro Hno.
  assert (H := update_materials_tracks nuclides materials _ n0
                 tracks_start (fun m k (F : False) => match F with end)).
  destruct (_update_materials _ _ _ _ _ _ materials nuclides n0)
    as [[n' calls] warns].
  destruct H as (_ & _ & _ & H). exact (H Hno).
Qed.

End AtomNumberLaws.

(** Running the method a second time changes nothing: the number vector
    stays as the first run left it, the same lists are handed to
    [set_densities], and no warning is printed. *)
Theorem update_materials_is_idempotent (number : Type)
    (get_atom_density : number -> Z -> string -> Q)
    (set_zero : number -> Z -> string -> number) (round8 : Q -> Q)
    (nuclides_with_data : list string) (round_number : bool)
    (materials : list Z) (nuclides : list string) (n0 : number) :
  (forall n mat nuc, get_atom_density (set_zero n mat nuc) mat nuc == 0) ->
  (forall n mat nuc mat' nuc',
     (mat', nuc') <> (mat, nuc) ->
     get_atom_density (set_zero n mat nuc) mat' nuc'
     = get_atom_density n mat' nuc') ->
  let out1 := _update_materials number get_atom_density set_zero round8
                nuclides_with_data round_number materials nuclides n0 in
  _update_materials number get_atom_density set_zero round8
    nuclides_with_data round_number materials nuclides (fst (fst out1))
  = (fst (fst out1), snd (fst out1), []).
Proof.
  intros Hsame Hother out1.
  assert (H1 := update_materials_calls number get_atom_density set_zero
                  round8 Hsame Hother nuclides_with_data round_number n0
                  materials nuclides).
  assert (H2 := update_materials_final_number number get_atom_density
                  set_zero round8 Hsame Hother nuclides_with_data
                  round_number n0 materials nuclides).
  fold out1 in H1, H2.
  set (n1 := fst (fst out1)) in *.
  assert (Hnoop := update_materials_noop number get_atom_density set_zero
                     round8 Hsame Hother nuclides_with_data round_number
                     n1 materials nuclides).
  assert (H1' := update_materials_calls number get_atom_density set_zero
                   round8 Hsame Hother nuclides_with_data round_number n1
                   materials nuclides).
  destruct (_update_materials number get_atom_density set_zero round8
              nuclides_with_data round_number materials nuclides n1)
    as [[n2 calls2] warns2].
  cbn [fst snd] in Hnoop, H1'.
  destruct Hnoop as [-> ->].
  - intros m k Hm Hk Hd Hneg.
    destruct (H2 m k) as [Hz [He | Hc]].
    + rewrite He in Hneg.
      assert (Hc : significantly_negative number get_atom_density
                     nuclides_with_data materials nuclides n0 m k)
        by (repeat split; assumption).
      apply Hz in Hc. rewrite He in Hc. threshold_lra.
    + apply Hz in Hc. threshold_lra.
  - f_equal. f_equal. rewrite H1', H1. apply map_ext. intro mat.
    f_equal. apply flat_map_ext. intro nuc. unfold handed_over.
    destruct (H2 mat nuc) as [Hz [He | Hc]].
    + fold n1 in He. rewrite He. reflexivity.
    + assert (Hzero := Hz Hc). destruct Hc as (_ & _ & _ & Hb).
      fold n1 in Hzero.
      assert (E1 : Qltb 1e-36 (1e-24 * get_atom_density n1 mat nuc)
                   = false) by (apply Qltb_ge; threshold_lra).
      assert (E0 : Qltb 1e-36 (1e-24 * get_atom_density n0 mat nuc)
                   = false) by (apply Qltb_ge; threshold_lra).
      rewrite E1, E0, !andb_false_r. reflexivity.
Qed.

Lemma table_get_set_same (n : number_table) (mat : Z) (nuc : string) :
  table_get (table_set_zero n mat nuc) mat nuc == 0.
Proof.
  unfold table_set_zero. cbn [table_get].
  rewrite Z.eqb_refl, String.eqb_refl. reflexivity.
Qed.

Lemma table_get_set_other (n : number_table) (mat : Z) (nuc : string)
    (mat' : Z) (nuc' : string) :
  (mat', nuc') <> (mat, nuc) ->
  table_get (table_set_zero n mat nuc) mat' nuc' = table_get n mat' nuc'.
Proof.
  intro H. unfold table_set_zero. cbn [table_get].
  destruct (Z.eqb mat mat') eqn:Em; [ | reflexivity].
  destruct (String.eqb nuc nuc') eqn:En; [ | reflexivity].
  apply Z.eqb_eq in Em. apply String.eqb_eq in En. subst.
  contradiction H. reflexivity.
Qed.

Lemma update_materials_is_idempotent_witness :
  let out1 := _update_materials number_table table_get table_set_zero
                (fun v => v) ["U235"; "Xe135"; "I135"; "Pu239"]%string
                false [1%Z] ["U235"; "Xe135"; "I135"; "Pu239"; "He4"]%string
                depleted in
  _update_materials number_table table_get table_set_zero (fun v => v)
    ["U235"; "Xe135"; "I135"; "Pu239"]%string false [1%Z]
    ["U235"; "Xe135"; "I135"; "Pu239"; "He4"]%string (fst (fst out1))
  = (fst (fst out1), snd (fst out1), []).
Proof.
  apply (update_materials_is_idempotent number_table table_get
           table_set_zero (fun v => v)
           ["U235"; "Xe135"; "I135"; "Pu239"]%string false [1%Z]
           ["U235"; "Xe135"; "I135"; "Pu239"; "He4"]%string depleted).
  - exact table_get_set_same.
  - exact table_get_set_other.
Defined.

Lemma update_materials_hands_over_initial_densities_witness :
  snd (fst (_update_materials number_table table_get table_set_zero
              (fun v => v) ["U235"; "Xe135"; "I135"; "Pu239"]%string false
              [1%Z] ["U235"; "Xe135"; "I135"; "Pu239"; "He4"]%string
              depleted))
  = map (fun mat =>
           (mat,
            flat_map (handed_over number_table table_get (fun v => v)
                        ["U235"; "Xe135"; "I135"; "Pu239"]%string false
                        depleted mat)
                     ["U235"; "Xe135"; "I135"; "Pu239"; "He4"]%string))
        [1%Z].
Proof.
  apply (update_materials_hands_over_initial_densities number_table
           table_get table_set_zero (fun v => v) table_get_set_same
           table_get_set_other).
Defined.

Lemma update_materials_zeroes_only_significant_negatives_witness :
  let out := _update_materials number_table table_get table_set_zero
               (fun v => v) ["U235"; "Xe135"; "I135"; "Pu239"]%string false
               [1%Z] ["U235"; "Xe135"; "I135"; "Pu239"; "He4"]%string
               depleted in
  (forall mat nuc,
     (significantly_negative number_table table_get
        ["U235"; "Xe135"; "I135"; "Pu239"]%string [1%Z]
        ["U235"; "Xe135"; "I135"; "Pu239"; "He4"]%string depleted mat nuc ->
      table_get (fst (fst out)) mat nuc == 0) /\
     (table_get (fst (fst out)) mat nuc = table_get depleted mat nuc \/
      significantly_negative number_table table_get
        ["U235"; "Xe135"; "I135"; "Pu239"]%string [1%Z]
        ["U235"; "Xe135"; "I135"; "Pu239"; "He4"]%string depleted mat nuc))
  /\
  (forall nuc mat v,
     In (nuc, mat, v) (snd out) ->
     significantly_negative number_table table_get
       ["U235"; "Xe135"; "I135"; "Pu239"]%string [1%Z]
       ["U235"; "Xe135"; "I135"; "Pu239"; "He4"]%string depleted mat nuc /\
     v = 1e-24 * table_get depleted mat nuc).
Proof.
  apply (update_materials_zeroes_only_significant_negatives number_table
           table_get table_set_zero (fun v => v) table_get_set_same
           table_get_set_other).
Defined.

(** The depleted vector at work: uranium is handed over, the iodine
    entry at [-2e-21] is zeroed with a warning, the xenon entry at
    [-5e-22] and the plutonium trace at [1e-37] are neither handed over
    nor zeroed, and helium, without data, is not looked at. *)
Example update_materials_on_depleted :
  _update_materials number_table table_get table_set_zero (fun v => v)
    ["U235"; "Xe135"; "I135"; "Pu239"]%string false [1%Z]
    ["U235"; "Xe135"; "I135"; "Pu239"; "He4"]%string depleted
  = (table_set_zero depleted 1 "I135",
     [(1%Z, [("U235"%string, 1e-24 * 7e20)])],
     [("I135"%string, 1%Z, 1e-24 * -2e3)])
  /\ 1e-24 * -2e3 == -2e-21 /\ 1e-24 * -5e2 == -5e-22.
Proof.
  split; [vm_compute; reflexivity | split; vm_compute; reflexivity].
Qed.

(** *** [__call__] *)

Lemma call_sequence_flags (sim : transport)
    (steps : list (list (list Q) * Q)) :
  forall (self : operator),
    n_calls (fst (call_sequence sim self steps))
    = (n_calls self
       + List.length (filter (fun s => negb (Qeq_bool (snd s) 0)) steps))%nat
    /\
    forall k o,
      nth_error (snd (call_sequence sim self steps)) k = Some o ->
      timers_reset o
      = Nat.ltb 0 (n_calls self
                   + List.length
                       (filter (fun s => negb (Qeq_bool (snd s) 0))
                               (firstn k steps))) /\
      exists s, nth_error steps k = Some s /\
                transport_run o = negb (Qeq_bool (snd s) 0).
Proof.
  induction steps as [ | [vec rate] rest IH]; intro self;
    cbn [call_sequence].
  - cbn [fst snd filter List.length]. split; [lia | ].
    intros [ | k] o H; discriminate H.
  - specialize (IH (call_self (__call__ sim self vec rate))).
    destruct (call_sequence sim (call_self (__call__ sim self vec rate))
                            rest) as [self' os].
    cbn [fst snd] in IH |- *. destruct IH as [IH1 IH2].
    assert (Hn : n_calls (call_self (__call__ sim self vec rate))
                 = (n_calls self
                    + (if negb (Qeq_bool rate 0) then 1 else 0))%nat).
    { unfold __call__. destruct (Qeq_bool rate 0);
        cbn [call_self n_calls log with_materials negb]; lia. }
    split.
    + rewrite IH1, Hn. cbn [filter snd].
      destruct (negb (Qeq_bool rate 0)); cbn [List.length]; lia.
    + intros [ | k] o H.
      * cbn [nth_error] in H. injection H as <-.
        cbn [firstn filter List.length nth_error].
        split.
        -- unfold __call__. destruct (Qeq_bool rate 0);
             cbn [timers_reset n_calls log]; f_equal; lia.
        -- exists (vec, rate). split; [reflexivity | ].
           cbn [snd]. unfold __call__.
           destruct (Qeq_bool rate 0); reflexivity.
      * cbn [nth_error] in H. destruct (IH2 k o H) as [H1 H2].
        split; [ | exact H2].
        rewrite H1, Hn. cbn [firstn filter snd].
        destruct (negb (Qeq_bool rate 0)); cbn [List.length];
          f_equal; lia.
Qed.

(** Over any sequence of plain calls on a fresh operator, a call resets
    the timers exactly when an earlier call of the sequence had a
    nonzero source rate: calls with a zero source rate run no transport
    and do not count as calls. *)
Theorem timers_reset_after_first_transport_run (sim : transport)
    (self : operator) (steps : list (list (list Q) * Q)) (k : nat)
    (o : call_outcome) :
  n_calls self = 0%nat ->
  nth_error (snd (call_sequence sim self steps)) k = Some o ->
  (timers_reset o = true <->
   exists j s, (j < k)%nat /\ nth_error steps j = Some s /\
               ~ snd s == 0) /\
  n_calls (fst (call_sequence sim self steps))
  = List.length (filter (fun s => negb (Qeq_bool (snd s) 0)) steps).
Proof.
  intros Hn Ho.
  destruct (call_sequence_flags sim steps self) as [H1 H2].
  destruct (H2 k o Ho) as [Ht _]. rewrite Hn in *. cbn [Nat.add] in *.
  split; [ | exact H1].
  rewrite Ht, Nat.ltb_lt. clear.
  revert k. induction steps as [ | s rest IH]; intro k.
  - rewrite firstn_nil. cbn [filter List.length]. split; [lia | ].
    intros (j & s & _ & H & _). destruct j; discriminate H.
  - destruct k as [ | k]; cbn [firstn filter].
    + cbn [List.length]. split; [lia | ].
      intros (j & s' & Hj & _). lia.
    + destruct (Qeq_bool (snd s) 0) eqn:E; cbn [negb].
      * rewrite IH. split.
        -- intros (j & s' & Hj & Hs & Hr). exists (S j), s'.
           cbn [nth_error]. repeat split; [lia | exact Hs | exact Hr].
        -- intros ([ | j] & s' & Hj & Hs & Hr); cbn [nth_error] in Hs.
           ++ injection Hs as <-. apply Qeq_bool_iff in E. contradiction.
           ++ exists j, s'. repeat split; [lia | exact Hs | exact Hr].
      * cbn [List.length]. split; [ | lia].
        intros _. exists 0%nat, s. cbn [nth_error].
        split; [lia | ]. split; [reflexivity | ].
        intro H. apply Qeq_bool_iff in H. congruence.
Qed.

Lemma timers_reset_after_first_transport_run_witness :
  (timers_reset Scripted.third_call = true <->
   exists j s, (j < 2)%nat /\
               nth_error Scripted.steps3 j = Some s /\
               ~ snd s == 0) /\
  n_calls (fst (call_sequence Scripted.sim Scripted.self0 Scripted.steps3))
  = List.length (filter (fun s => negb (Qeq_bool (snd s) 0))
                        Scripted.steps3).
Proof.
  apply (timers_reset_after_first_transport_run Scripted.sim
           Scripted.self0 Scripted.steps3 2).
  - reflexivity.
  - reflexivity.
Defined.

Lemma iter_batches_n_calls (target sp : Q) (iso : list string)
    (batches : Z) (obs : list batch_obs) :
  forall (M : nat) (loc loc' : locals) (self self' : operator),
    iter_batches target sp iso batches M obs loc self
      = Some (loc', self') ->
    n_calls self' = n_calls self.
Proof.
  induction obs as [ | o rest IH]; intros M loc loc' self self' H.
  - cbn [iter_batches] in H. injection H as _ <-. reflexivity.
  - cbn [iter_batches] in H.
    destruct (Z.ltb (Z.of_nat M) batches).
    + destruct (inactive_batch target sp M loc o) as [l | ];
        [ | discriminate].
      cbn [fst snd] in H. apply IH in H. rewrite H.
      destruct (Z.eqb (Z.of_nat M) batches); reflexivity.
    + cbn [fst snd] in H. apply IH in H. rewrite H.
      destruct (Z.eqb (Z.of_nat M) batches); reflexivity.
Qed.

(** A search that ran the transport and returned counts as one call of
    the operator, so that the next plain call resets the timers; a
    search at zero source rate, like a plain call at zero source rate,
    does not count. *)
Theorem returning_search_counts_as_one_call (sim : transport)
    (self self' : operator) (vec : list (list Q)) (source_rate : Q)
    (iso : option (list string)) (batches : option pyval)
    (bracket : option (list pyval)) (iv : option pyval) (target : Q)
    (r : OperatorResult) :
  search_crit_conc sim self vec source_rate iso batches bracket iv target
    = Return r self' ->
  (~ source_rate == 0 ->
   n_calls self' = S (n_calls self) /\
   forall sim' vec' rate',
     timers_reset (__call__ sim' self' vec' rate') = true) /\
  (source_rate == 0 -> self' = self).
Proof.
  unfold search_crit_conc. intro H.
  destruct (check_arguments iso batches bracket iv); [discriminate | ].
  destruct (Qeq_bool source_rate 0) eqn:E.
  - injection H as _ <-. split; [ | reflexivity].
    intro Hn. apply Qeq_bool_iff in E. contradiction.
  - split; [ | intro Hz; apply Qeq_bool_iff in Hz; congruence].
    intros _.
    destruct iso as [i | ]; [ | discriminate].
    destruct batches as [[n | q | str] | ]; try discriminate.
    destruct iv as [v | ]; [ | discriminate].
    match type of H with
    | context [iter_batches ?t ?sp ?i ?b ?M ?obs ?l ?s] =>
      destruct (iter_batches t sp i b M obs l s) as [[loc s'] | ] eqn:Eit;
        [ | discriminate]
    end.
    apply iter_batches_n_calls in Eit.
    cbn [n_calls log with_materials] in Eit.
    unfold finish in H. cbn [initial_value log] in H.
    destruct (initial_value s'); [ | discriminate].
    injection H as _ <-.
    assert (Hn : n_calls (init_attributes self (to_Q v)) = n_calls self)
      by (unfold init_attributes; destruct (initial_value self);
          reflexivity).
    split.
    + cbn [n_calls log]. rewrite Eit, Hn. reflexivity.
    + intros sim' vec' rate'. unfold __call__.
      destruct (Qeq_bool rate' 0); cbn [timers_reset n_calls log];
        reflexivity.
Qed.

Lemma returning_search_counts_as_one_call_witness :
  (~ 1 == 0 ->
   n_calls (snd Scripted.searched) = S (n_calls Scripted.self0) /\
   forall sim' vec' rate',
     timers_reset (__call__ sim' (snd Scripted.searched) vec' rate')
     = true) /\
  (1 == 0 -> snd Scripted.searched = Scripted.self0).
Proof.
  apply (returning_search_counts_as_one_call Scripted.sim Scripted.self0
           (snd Scripted.searched) [] 1 (Some Scripted.boron)
           (Some (PyInt 3)) None (Some (PyFloat 0.001)) 1
           (fst Scripted.searched)).
  vm_compute. reflexivity.
Defined.

End Updates.

(** ** The two general lemmas above at concrete inputs *)

Section Instances.

Import Search CoupledOperator.

Lemma bracket_setup_unrepairable_witness :
  exists give,
    bracket_setup f_linear 12 10 20 1e-3
      = inl (Returned (guess give)
                      [NoRootInRange (guess give) (value give)]) /\
    In give [mk_cand 12 (f_linear 12); mk_cand 10 (f_linear 10);
             mk_cand 20 (f_linear 20)] /\
    Qabs (value give) <= Qabs (f_linear 12) /\
    Qabs (value give) <= Qabs (f_linear 10) /\
    Qabs (value give) <= Qabs (f_linear 20).
Proof.
  apply (bracket_setup_unrepairable f_linear 12 10 20 1e-3).
  - intro H. vm_compute in H. discriminate H.
  - intro H. vm_compute in H. discriminate H.
  - intro H. vm_compute in H. discriminate H.
  - reflexivity.
  - reflexivity.
  - reflexivity.
Defined.

Lemma returning_run_keeps_reference_density_positive_witness :
  exists estimate,
    0 < estimate /\
    initial_value (snd Scripted.searched) = Some (0.001 * estimate) /\
    0 < 0.001 * estimate /\
    concs (snd Scripted.searched)
    = concs (init_attributes Scripted.self0 (to_Q (PyFloat 0.001)))
      ++ [0.001 * estimate].
Proof.
  apply (returning_run_keeps_reference_density_positive Scripted.sim
           Scripted.self0 (snd Scripted.searched) [] 1
           (Some Scripted.boron) (Some (PyInt 3)) None (PyFloat 0.001) 1
           0.001 (fst Scripted.searched)).
  - vm_compute. reflexivity.
  - intro H. vm_compute in H. discriminate H.
  - reflexivity.
  - reflexivity.
Defined.

End Instances.
